(** * Record extraction and flattening engine: a shallow embedding

  The development follows the parsers under [src/components] and the tree
  helpers of [src/utils/xml_utlis.py].

  Conventions.
  - A Python [str] is a [string]; a character stands for the code point of
    the same number (0 to 255), and the character classes below are
    Python's on that range.
  - A Python exception is a value [Raise e] of the error type [exn].
  - A Python [dict] with string keys is a [gmap string _]. *)

From Stdlib Require Import Ascii String NArith Lia.
From stdpp Require Import gmap strings list.

Set Default Proof Using "Type".
Set Warnings "-register-all".

(** ** Exceptions *)

Inductive error : Type :=
| IndexError
| AttributeError
| ValueError
| CustomException (msg : string).

Inductive exn (A : Type) : Type :=
| Ok (a : A)
| Raise (e : error).
Arguments Ok {A} a.
Arguments Raise {A} e.

Global Instance exn_ret : MRet exn := fun A a => Ok a.
Global Instance exn_bind : MBind exn := fun A B f m =>
  match m with
  | Ok a => f a
  | Raise e => Raise e
  end.

(** The text of an exception, for the [CustomException] that wraps it. The
    file name and line number the wrapper adds are left out, and so is the
    literal that the text of a [ValueError] quotes. *)
Definition message (e : error) : string :=
  match e with
  | IndexError => "list index out of range"
  | AttributeError => "'NoneType' object has no attribute 'strip'"
  | ValueError => "invalid literal"
  | CustomException msg => msg
  end.

(** ** Strings: the [str] methods the parsers use *)

Module Str.

Definition code (c : ascii) : N := N_of_ascii c.

(** [str.isspace] on one character, also the class [\s] of [re]. *)
Definition is_space (c : ascii) : bool :=
  let n := code c in
  ((9 <=? n) && (n <=? 13) || (28 <=? n) && (n <=? 32)
   || (n =? 133) || (n =? 160))%N.

(** The class [\w] of [re] on a [str] pattern: alphanumeric or underscore. *)
Definition is_word (c : ascii) : bool :=
  let n := code c in
  ((48 <=? n) && (n <=? 57) || (65 <=? n) && (n <=? 90) || (n =? 95)
   || (97 <=? n) && (n <=? 122) || (n =? 170) || (178 <=? n) && (n <=? 179)
   || (n =? 181) || (185 <=? n) && (n <=? 186) || (188 <=? n) && (n <=? 190)
   || (192 <=? n) && (n <=? 214) || (216 <=? n) && (n <=? 246)
   || (248 <=? n))%N.

(** Every character of [s] satisfies [p]. *)
Fixpoint all (p : ascii -> bool) (s : string) : bool :=
  match s with
  | "" => true
  | String c s' => p c && all p s'
  end.

(** [s] is not empty and its first character satisfies [p]. *)
Definition head_in (p : ascii -> bool) (s : string) : bool :=
  match s with
  | "" => false
  | String c _ => p c
  end.

(** [s.lstrip()] *)
Fixpoint lstrip (s : string) : string :=
  match s with
  | "" => ""
  | String c s' => if is_space c then lstrip s' else s
  end.

(** [s.rstrip()] *)
Fixpoint rstrip (s : string) : string :=
  match s with
  | "" => ""
  | String c s' =>
      match rstrip s' with
      | "" => if is_space c then "" else String c ""
      | r => String c r
      end
  end.

(** [s.strip()] *)
Definition strip (s : string) : string := lstrip (rstrip s).

(** [s.strip(chars)], the characters to strip given as a class. *)
Fixpoint lstrip_chars (p : ascii -> bool) (s : string) : string :=
  match s with
  | "" => ""
  | String c s' => if p c then lstrip_chars p s' else s
  end.

Fixpoint rstrip_chars (p : ascii -> bool) (s : string) : string :=
  match s with
  | "" => ""
  | String c s' =>
      match rstrip_chars p s' with
      | "" => if p c then "" else String c ""
      | r => String c r
      end
  end.

Definition strip_chars (p : ascii -> bool) (s : string) : string :=
  lstrip_chars p (rstrip_chars p s).

(** [s.startswith(p)] *)
Fixpoint startswith (s p : string) : bool :=
  match p, s with
  | "", _ => true
  | String _ _, "" => false
  | String a p', String b s' => if decide (a = b) then startswith s' p' else false
  end.

(** [s[n:]] *)
Fixpoint drop (n : nat) (s : string) : string :=
  match n, s with
  | O, _ => s
  | S _, "" => ""
  | S n', String _ s' => drop n' s'
  end.

(** [s.split(sep, 1)] for a non-empty [sep]: [None] when [sep] does not
    occur in [s] (Python then returns the one-element list [[s]]), else the
    text before and after the first occurrence. *)
Fixpoint split1 (sep s : string) : option (string * string) :=
  if startswith s sep then Some ("", drop (String.length sep) s)
  else match s with
       | "" => None
       | String c s' =>
           match split1 sep s' with
           | Some (a, b) => Some (String c a, b)
           | None => None
           end
       end.

(** [sep in s] *)
Definition contains (sep s : string) : bool :=
  match split1 sep s with Some _ => true | None => false end.

(** [s.split(sep)] for a one-character [sep]. *)
Fixpoint split (sep : ascii) (s : string) : list string :=
  match s with
  | "" => [""]
  | String c s' =>
      if decide (c = sep) then "" :: split sep s'
      else match split sep s' with
           | w :: ws => String c w :: ws
           | [] => [String c ""]
           end
  end.

(** [s.replace(a, b)] for one-character [a] and [b]. *)
Fixpoint replace (a b : ascii) (s : string) : string :=
  match s with
  | "" => ""
  | String c s' => String (if decide (c = a) then b else c) (replace a b s')
  end.

(** [s.upper()] on ASCII text: the letters [a] to [z] go to upper case, the
    other ASCII characters stay. *)
Definition upper_char (c : ascii) : ascii :=
  let n := code c in
  if ((97 <=? n) && (n <=? 122))%N then ascii_of_N (n - 32) else c.

Fixpoint upper_ascii (s : string) : string :=
  match s with
  | "" => ""
  | String c s' => String (upper_char c) (upper_ascii s')
  end.

(** [sep.join(l)] *)
Fixpoint join (sep : string) (l : list string) : string :=
  match l with
  | [] => ""
  | [x] => x
  | x :: l' => x +:+ sep +:+ join sep l'
  end.

End Str.

(** * The ontology tag-block reader ([parse_hpo_obo.py]) *)

Module Obo.

(** A Term maps a tag to its list of raw values. *)
Abbreviation Term := (gmap string (list string)).

(** [parse_tag_value] *)
Definition parse_tag_value (line : string) : string * string :=
  match Str.split1 ": " line with
  | None => (line, "")
  | Some (tag, value) => (Str.strip tag, Str.strip value)
  end.

(** The tags [parse_term_block] stores as lists that grow. *)
Definition multi_valued : list string :=
  ["synonym"; "xref"; "alt_id"; "is_a"; "intersection_of"; "disjoint_from"].

Definition is_multi (tag : string) : bool := bool_decide (tag ∈ multi_valued).

(** [l[-1] += suffix]: an empty list has no last element. *)
Definition append_last (suffix : string) (l : list string) : exn (list string) :=
  match last l with
  | None => Raise IndexError
  | Some v => Ok (<[pred (length l) := v +:+ suffix]> l)
  end.

(** The loop state of [parse_term_block]: [term] and [current_tag]. *)
Definition state : Type := Term * option string.

(** One iteration of the loop over [lines[1:]]. *)
Definition term_step (st : state) (line : string) : exn state :=
  let '(term, current_tag) := st in
  if decide (Str.strip line = "") then Ok st
  else if Str.startswith line " " then
    match current_tag with
    | Some tag =>
        if decide (tag = "") then Ok st
        else match term !! tag with
             | Some vs =>
                 vs' ← append_last (" " +:+ Str.strip line) vs;
                 Ok (<[tag := vs']> term, current_tag)
             | None => Ok st
             end
    | None => Ok st
    end
  else
    let '(tag, value) := parse_tag_value line in
    if decide (value = "") then Ok (term, Some tag)
    else if is_multi tag then
      Ok (<[tag := default [] (term !! tag) ++ [value]]> term, Some tag)
    else Ok (<[tag := [value]]> term, Some tag).

Fixpoint term_loop (st : state) (lines : list string) : exn state :=
  match lines with
  | [] => Ok st
  | line :: rest => st' ← term_step st line; term_loop st' rest
  end.

(** [parse_term_block] *)
Definition parse_term_block (lines : list string) : exn (option Term) :=
  match lines with
  | [] => Ok None
  | first :: rest =>
      if Str.startswith first "[Term]" then
        st ← term_loop (∅, None) rest; Ok (Some st.1)
      else Ok None
  end.

(** ** The per-tag reading of a block

    What the claims about the reader say of one tag, written down without the
    dictionary: the Term built by [parse_term_block] is compared with it. *)

(** Join [suffix] to the last element, if there is one. *)
Fixpoint extend_last (suffix : string) (l : list string) : list string :=
  match l with
  | [] => []
  | [v] => [v +:+ suffix]
  | v :: l' => v :: extend_last suffix l'
  end.

(** A line of a block is blank, a continuation (it starts with a space) or a
    tag line, the three cases of the loop body. *)
Definition is_blank (line : string) : bool := bool_decide (Str.strip line = "").

Definition is_continuation (line : string) : bool :=
  negb (is_blank line) && Str.startswith line " ".

Definition is_tag_line (line : string) : bool :=
  negb (is_blank line) && negb (Str.startswith line " ").

(** Scanning a block for one tag [t]: the values of the value-bearing lines of
    [t] met so far, in first-seen order, and whether [t] is the tag met most
    recently. A continuation line is joined to the last value while [t], a
    non-empty tag, is the most recent tag. *)
Definition occ_step (t : string) (st : list string * bool) (line : string)
  : list string * bool :=
  let '(vals, here) := st in
  if is_blank line then st
  else if Str.startswith line " " then
    (if here && bool_decide (t <> "")
     then extend_last (" " +:+ Str.strip line) vals else vals, here)
  else
    let '(tag, value) := parse_tag_value line in
    if decide (tag = t)
    then (if decide (value = "") then vals else vals ++ [value], true)
    else (vals, false).

Definition tag_values (t : string) (body : list string) : list string :=
  (fold_left (occ_step t) body ([], false)).1.

(** The bare values of the value-bearing lines of [t], in order. *)
Definition occurrences (t : string) (body : list string) : list string :=
  omap (fun line =>
          if is_tag_line line then
            let '(tag, value) := parse_tag_value line in
            if decide (tag = t) then
              if decide (value = "") then None else Some value
            else None
          else None) body.

(** What a Term holds under [t] when the values of [t] are [vals]. *)
Definition held (t : string) (vals : list string) : option (list string) :=
  if is_multi t then (if vals is [] then None else Some vals)
  else (fun v => [v]) <$> last vals.

(** The state of the loop agrees with the scans for every tag: the invariant
    of [parse_term_block]. *)
Definition agrees (st : state) (f : string -> list string * bool) : Prop :=
  forall t, (f t).2 = bool_decide (st.2 = Some t) /\ st.1 !! t = held t (f t).1.

(** The tag met most recently in [body], as [current_tag] has it. *)
Definition last_tag (body : list string) : option string :=
  fold_left (fun cur line =>
               if is_tag_line line then Some (parse_tag_value line).1 else cur)
            body None.

(** An entry [e] of a Term continues the value [v] of a tag line: it is [v]
    followed by the text joined on by continuation lines. *)
Definition continues (v e : string) : Prop := exists suffix, e = v +:+ suffix.

(** [V + " " + c1 + " " + c2 + ...] *)
Definition joined (V : string) (cs : list string) : string :=
  fold_left (fun acc c => acc +:+ " " +:+ c) cs V.

(** The line begins with a whitespace character. *)
Definition leading_whitespace (line : string) : bool :=
  match line with
  | String c _ => Str.is_space c
  | "" => false
  end.

End Obo.

(** * Regular expressions, as [re.match] runs them

    The fragment of [re] that [extract_synonym_details] uses: literals,
    repetition of a character class (greedy or lazy), concatenation, an
    optional part and capture groups. [run] lists the matches at the start of
    the string in the order the backtracking matcher reaches them; [re.match]
    returns the first. *)

Module Re.

Inductive regex : Type :=
| Lit (c : ascii)
| Rep (greedy : bool) (lo : nat) (p : ascii -> bool)
| Cat (r1 r2 : regex)
| Opt (r : regex)
| Group (i : nat) (r : regex).

(** The text of each group that took part in the match. *)
Abbreviation groups := (gmap nat string).

(** The ways [p] repeated at least [lo] times matches at the start of [s], as
    (matched text, rest): longest first when greedy, shortest first when lazy. *)
Fixpoint rep (greedy : bool) (lo : nat) (p : ascii -> bool) (s : string)
  : list (string * string) :=
  let stop := if lo is O then [("", s)] else [] in
  match s with
  | "" => stop
  | String c s' =>
      if p c then
        let more := (fun wr => (String c wr.1, wr.2)) <$> rep greedy (pred lo) p s' in
        if greedy then more ++ stop else stop ++ more
      else stop
  end.

Fixpoint run (r : regex) (s : string) (caps : groups)
  : list (string * groups * string) :=
  match r with
  | Lit c =>
      match s with
      | String c' s' => if decide (c' = c) then [(String c "", caps, s')] else []
      | "" => []
      end
  | Rep g lo p => (fun wr => (wr.1, caps, wr.2)) <$> rep g lo p s
  | Cat r1 r2 =>
      m1 ← run r1 s caps;
      (fun m2 => (m1.1.1 +:+ m2.1.1, m2.1.2, m2.2)) <$> run r2 m1.2 m1.1.2
  | Opt r' => run r' s caps ++ [("", caps, s)]
  | Group i r' => (fun m => (m.1.1, <[i := m.1.1]> m.1.2, m.2)) <$> run r' s caps
  end.

(** [re.match(r, s)]: the groups of the first match, [None] without one. *)
Definition re_match (r : regex) (s : string) : option groups :=
  match run r s ∅ with
  | m :: _ => Some m.1.2
  | [] => None
  end.

(** The strings a pattern denotes. *)
Inductive lang : regex -> string -> Prop :=
| lang_lit c : lang (Lit c) (String c "")
| lang_rep g lo p w : Str.all p w = true -> lo <= String.length w -> lang (Rep g lo p) w
| lang_cat r1 r2 w1 w2 : lang r1 w1 -> lang r2 w2 -> lang (Cat r1 r2) (w1 +:+ w2)
| lang_opt_some r w : lang r w -> lang (Opt r) w
| lang_opt_none r : lang (Opt r) ""
| lang_group i r w : lang r w -> lang (Group i r) w.

End Re.

(** * The synonym decomposer ([parse_hpo_obo.py]) *)

Module Synonym.
Import Re.

Definition dquote : ascii := "034"%char.

(** The negated class of the pattern: any character but the double quote. *)
Definition not_quote (c : ascii) : bool := negb (bool_decide (c = dquote)).

(** The class [.]: any character but a newline. *)
Definition dot (c : ascii) : bool := negb (bool_decide (c = "010"%char)).

Definition not_rbracket (c : ascii) : bool := negb (bool_decide (c = "]"%char)).

(** The pattern of [extract_synonym_details]: a quoted text, white space, a
    word, optionally white space and a second word, optional white space and
    a bracketed part matched lazily. *)
Definition synonym_re : regex :=
  Cat (Lit dquote)
  (Cat (Group 1 (Rep true 1 not_quote))
  (Cat (Lit dquote)
  (Cat (Rep true 1 Str.is_space)
  (Cat (Group 2 (Rep true 1 Str.is_word))
  (Cat (Opt (Cat (Rep true 1 Str.is_space) (Group 3 (Rep true 1 Str.is_word))))
  (Cat (Rep true 0 Str.is_space)
  (Cat (Lit "[")
  (Cat (Group 4 (Rep false 0 dot))
       (Lit "]"))))))))).

(** [x.strip()] on a group: a group that took no part is [None], which has no
    such method. *)
Definition strip_group (x : option string) : exn string :=
  match x with
  | Some s => Ok (Str.strip s)
  | None => Raise AttributeError
  end.

(** How an f-string renders a group. *)
Definition fmt (x : option string) : string := default "None" x.

Definition truthy (x : option string) : bool :=
  match x with
  | Some s => negb (bool_decide (s = ""))
  | None => false
  end.

(** [extract_synonym_details] *)
Definition extract_synonym_details (synonym : string)
  : exn (string * string * string) :=
  match re_match synonym_re synonym with
  | None => Ok (synonym, "", "")
  | Some m =>
      let text := m !! 1 in
      let syn_type := m !! 2 in
      let syn_subtype := m !! 3 in
      let source := m !! 4 in
      let full_type :=
        if truthy syn_subtype then Some (fmt syn_type +:+ " " +:+ fmt syn_subtype)
        else syn_type in
      t ← strip_group text;
      ty ← strip_group full_type;
      src ← strip_group source;
      Ok (t, ty, src)
  end.

(** ** The shape of a synonym string

    [quoted text] [white space] [type] ([white space] [subtype])?
    [white space]* [bracketed source], the source running to the first
    closing bracket. *)
Record parts : Type := Parts {
  quoted : string;
  gap1 : string;
  type_token : string;
  subtype : option (string * string);
  gap3 : string;
  bracketed : string
}.

Definition nonempty (s : string) : bool := negb (bool_decide (s = "")).

Definition well_shaped (x : parts) : bool :=
  nonempty (quoted x) && Str.all not_quote (quoted x)
  && nonempty (gap1 x) && Str.all Str.is_space (gap1 x)
  && nonempty (type_token x) && Str.all Str.is_word (type_token x)
  && match subtype x with
     | Some (gap2, sub) =>
         nonempty gap2 && Str.all Str.is_space gap2
         && nonempty sub && Str.all Str.is_word sub
     | None => true
     end
  && Str.all Str.is_space (gap3 x)
  && Str.all dot (bracketed x) && Str.all not_rbracket (bracketed x).

(** The string with these parts, followed by [rest]. *)
Definition assemble (x : parts) (rest : string) : string :=
  String dquote (quoted x +:+
  String dquote (gap1 x +:+ type_token x +:+
  match subtype x with Some (gap2, sub) => gap2 +:+ sub | None => "" end +:+
  gap3 x +:+ String "[" (bracketed x +:+ String "]" rest))).

(** The type the decomposer is to return: the type token, with the subtype
    after a single space when there is one. *)
Definition full_type (x : parts) : string :=
  match subtype x with
  | Some (_, sub) => type_token x +:+ " " +:+ sub
  | None => type_token x
  end.

(** The groups [re.match] is to report on a string with these parts. *)
Definition groups_of (x : parts) : groups :=
  <[4 := bracketed x]>
    (match subtype x with
     | Some (_, sub) => <[3 := sub]> (<[2 := type_token x]> (<[1 := quoted x]> ∅))
     | None => <[2 := type_token x]> (<[1 := quoted x]> ∅)
     end).

End Synonym.

(** * The annotation-file reader ([parse_phenotype_hpoa.py]) *)

Module Hpoa.

Definition tab : ascii := "009"%char.

Definition is_dquote (c : ascii) : bool := bool_decide (c = "034"%char).


(** The loop of [parse_metadata]: it stops at the first line that does not
    start with the comment marker. *)
Fixpoint metadata_loop (metadata : gmap string string) (lines : list string)
  : gmap string string :=
  match lines with
  | [] => metadata
  | line :: rest =>
      if negb (Str.startswith line "#") then metadata
      else
        match Str.split1 ":" (Str.drop 1 line) with
        | Some (key, value) =>
            metadata_loop
              (<[Str.strip key := Str.strip_chars is_dquote (Str.strip value)]>
                 metadata) rest
        | None => metadata_loop metadata rest
        end
  end.

(** [parse_metadata] *)
Definition parse_metadata (lines : list string) : gmap string string :=
  metadata_loop ∅ lines.

(** One annotation, with the twelve columns of the file. *)
Record row : Type := Row {
  database_id : string;
  disease_name : string;
  qualifier : string;
  hpo_id : string;
  reference : string;
  evidence : string;
  onset : string;
  frequency : string;
  sex : string;
  modifier : string;
  aspect : string;
  biocuration : string
}.

(** [parse_hpoa_line]: unpacking into twelve names raises [ValueError] for any
    other number of fields; the function catches it, logs and returns [None]. *)
Definition parse_hpoa_line (line : string) : option row :=
  match Str.split tab (Str.strip line) with
  | [a; b; c; d; e; f; g; h; i; j; k; l] => Some (Row a b c d e f g h i j k l)
  | _ => None
  end.

(** The index of the first line that does not start with the comment marker,
    0 when there is none. *)
Fixpoint first_data_line (i : nat) (lines : list string) : nat :=
  match lines with
  | [] => 0
  | line :: rest =>
      if negb (Str.startswith line "#") then i else first_data_line (S i) rest
  end.

(** What a run of [convert] leaves: the metadata and the rows written, and the
    two counters it reports. *)
Record output : Type := Output {
  metadata : gmap string string;
  rows : list row;
  total_rows : nat;
  valid_rows : nat
}.

(** The loop over the data lines. *)
Fixpoint data_loop (out : list row * nat * nat) (lines : list string)
  : list row * nat * nat :=
  match lines with
  | [] => out
  | line :: rest =>
      let '(written, total, valid) := out in
      match parse_hpoa_line line with
      | Some r => data_loop (written ++ [r], S total, S valid) rest
      | None => data_loop (written, S total, valid) rest
      end
  end.

(** [convert], on the lines [readlines] returns. Indexing the header past the
    end of the list raises [IndexError], which [convert] wraps. *)
Definition convert (lines : list string) : exn output :=
  let metadata := parse_metadata lines in
  let data_start := first_data_line 0 lines in
  match lines !! data_start with
  | None => Raise (CustomException "list index out of range")
  | Some _ =>
      let '(written, total, valid) :=
        data_loop ([], 0, 0) (drop (S data_start) lines) in
      Ok (Output metadata written total valid)
  end.

End Hpoa.

(** * Element trees

    An [xml.etree.ElementTree.Element]: its tag, attributes, text and
    children (the tail text is never read by the parsers). *)

Module Xml.

Inductive element : Type :=
| Element (tag : string) (attrib : gmap string string) (text : option string)
          (children : list element).

Definition tag (e : element) : string := let 'Element t _ _ _ := e in t.
Definition attrib (e : element) : gmap string string := let 'Element _ a _ _ := e in a.
Definition text (e : element) : option string := let 'Element _ _ x _ := e in x.
Definition children (e : element) : list element := let 'Element _ _ _ cs := e in cs.

(** [e.get(key, dflt)] *)
Definition get (e : element) (key dflt : string) : string :=
  default dflt (attrib e !! key).

(** A text is true when it is there and not empty. *)
Definition has_text (e : element) : bool :=
  match text e with
  | Some s => negb (bool_decide (s = ""))
  | None => false
  end.

(** [(e.text or "").strip()] *)
Definition text_stripped (e : element) : string := Str.strip (default "" (text e)).

(** [x.text.strip() if x is not None and x.text else ""] *)
Definition text_of_found (x : option element) : string :=
  match x with
  | Some e => if has_text e then text_stripped e else ""
  | None => ""
  end.

(** [e.clear()] *)
Definition clear (e : element) : element := Element (tag e) ∅ None [].

(** ** The lookups of ElementTree: tags are compared as they are *)

(** [e.findall(path)] for a path [name1/name2/...] of plain names. *)
Fixpoint findall (path : list string) (e : element) : list element :=
  match path with
  | [] => [e]
  | name :: path' =>
      c ← filter (fun c => tag c = name) (children e); findall path' c
  end.

(** [e.find(path)] *)
Definition find (path : list string) (e : element) : option element :=
  head (findall path e).

(** [e.iter()]: the element and its descendants, in document order. *)
Fixpoint iter (e : element) : list element :=
  match e with
  | Element _ _ _ cs => e :: concat (map iter cs)
  end.

(** [e.findall(".//name")]: the descendants of [e] with that tag. *)
Definition findall_descendants (name : string) (e : element) : list element :=
  filter (fun d => tag d = name) (concat (map iter (children e))).

(** ** The lookups of [xml_utlis.py]: tags are compared by local name *)

(** [local]: indexing the second piece of the split raises [IndexError] when
    the tag opens a brace and never closes it. *)
Definition local (tag : string) : exn string :=
  match tag with
  | String "{" _ =>
      match Str.split1 "}" tag with
      | Some (_, name) => Ok name
      | None => Raise IndexError
      end
  | _ => Ok tag
  end.

(** The loop of [find_first] over the children. *)
Fixpoint first_child (name : string) (cs : list element) : exn (option element) :=
  match cs with
  | [] => Ok None
  | c :: cs' =>
      n ← local (tag c);
      if decide (n = name) then Ok (Some c) else first_child name cs'
  end.

(** [find_first] *)
Definition find_first (parent : option element) (name : string)
  : exn (option element) :=
  match parent with
  | None => Ok None
  | Some p => first_child name (children p)
  end.

(** The comprehension of [find_all]. *)
Fixpoint all_children (name : string) (cs : list element) : exn (list element) :=
  match cs with
  | [] => Ok []
  | c :: cs' =>
      n ← local (tag c);
      rest ← all_children name cs';
      Ok (if decide (n = name) then c :: rest else rest)
  end.

(** [find_all] *)
Definition find_all (parent : option element) (name : string)
  : exn (list element) :=
  match parent with
  | None => Ok []
  | Some p => all_children name (children p)
  end.

(** [find_text] *)
Definition find_text (parent : option element) (name dflt : string) : exn string :=
  node ← find_first parent name;
  match node with
  | Some e => Ok (if has_text e then Str.strip (default "" (text e)) else dflt)
  | None => Ok dflt
  end.

(** The loop of [find_text_lang] over the children. *)
Fixpoint first_lang_text (name lang dflt : string) (cs : list element)
  : exn string :=
  match cs with
  | [] => Ok dflt
  | c :: cs' =>
      n ← local (tag c);
      if decide (n = name) then
        match attrib c !! "lang" with
        | None => Ok (text_stripped c)
        | Some l =>
            if decide (l = lang) then Ok (text_stripped c)
            else first_lang_text name lang dflt cs'
        end
      else first_lang_text name lang dflt cs'
  end.

(** [find_text_lang]: without a parent it returns [None]. *)
Definition find_text_lang (parent : option element) (name lang dflt : string)
  : exn (option string) :=
  match parent with
  | None => Ok None
  | Some p => s ← first_lang_text name lang dflt (children p); Ok (Some s)
  end.

(** No tag of the tree opens a brace without closing it, as in every tree
    that comes out of the parser. *)
Fixpoint well_tagged (e : element) : bool :=
  match e with
  | Element t _ _ cs =>
      match local t with Ok _ => true | Raise _ => false end
      && forallb well_tagged cs
  end.

(** ** Trees that differ in namespace prefixes only *)

(** The same tree up to the tags, which have the same local name. *)
Inductive same_local_names : element -> element -> Prop :=
| same_local_names_intro t t' a x cs cs' :
    local t = local t' ->
    Forall2 same_local_names cs cs' ->
    same_local_names (Element t a x cs) (Element t' a x cs').

(** Two outcomes agree: both raise the same exception, or both return, with
    related results. *)
Definition exn_rel {A : Type} (R : A -> A -> Prop) (x y : exn A) : Prop :=
  match x, y with
  | Ok a, Ok b => R a b
  | Raise e, Raise e' => e = e'
  | _, _ => False
  end.

(** Put every tag of the tree in the namespace [ns]. *)
Fixpoint qualify (ns : string) (e : element) : element :=
  match e with
  | Element t a x cs =>
      Element ("{" +:+ ns +:+ "}" +:+ t) a x (map (qualify ns) cs)
  end.

End Xml.

(** * The single-entity flattener ([parse_orpha_xml1.py]) *)

Module OrphaXml1.
Import Xml.

(** The loop of [get_child_text]. *)
Fixpoint first_text (lang : option string) (cs : list element) : string :=
  match cs with
  | [] => ""
  | c :: cs' =>
      match lang with
      | None => text_stripped c
      | Some l =>
          if decide (attrib c !! "lang" = Some l) then text_stripped c
          else first_text lang cs'
      end
  end.

(** [get_child_text] *)
Definition get_child_text (parent : option element) (tag : string)
    (lang : option string) : string :=
  match parent with
  | None => ""
  | Some p => first_text lang (findall [tag] p)
  end.

(** A row of the output, one field per column. *)
Record row : Type := Row {
  id : string;
  OrphaCode : string;
  Name : string;
  ExpertLink : string;
  Synonyms : string;
  DisorderType : string;
  DisorderGroup : string;
  ExternalReferences : string;
  Definition_ : string
}.

(** The texts of the elements that have one, stripped. *)
Definition stripped_texts (l : list element) : list string :=
  text_stripped <$> filter (fun s => has_text s = true) l.

(** The [Source:Reference] pairs of the external references. *)
Definition ext_pairs (exts : list element) : list string :=
  omap (fun ext =>
          let source := get_child_text (Some ext) "Source" None in
          let ref := get_child_text (Some ext) "Reference" None in
          if negb (bool_decide (source = "")) || negb (bool_decide (ref = ""))
          then Some (source +:+ ":" +:+ ref) else None) exts.

(** The text block: the structured contents, else the generated one. *)
Definition contents_of (elem : element) : string :=
  match find ["SummaryInformationList"; "SummaryInformation"] elem with
  | Some si =>
      match find ["TextSectionList"; "TextSection"; "Contents"] si with
      | Some ts =>
          if has_text ts then text_stripped ts
          else text_of_found (find ["TextAuto"; "Info"] si)
      | None => text_of_found (find ["TextAuto"; "Info"] si)
      end
  | None => ""
  end.

(** [parse_disorder] *)
Definition parse_disorder (elem : element) : row :=
  {| id := get elem "id" "";
     OrphaCode := get_child_text (Some elem) "OrphaCode" None;
     ExpertLink := get_child_text (Some elem) "ExpertLink" (Some "en");
     Name := get_child_text (Some elem) "Name" (Some "en");
     Synonyms := Str.join "; " (stripped_texts (findall ["SynonymList"; "Synonym"] elem));
     DisorderType := text_of_found (find ["DisorderType"; "Name"] elem);
     DisorderGroup := text_of_found (find ["DisorderGroup"; "Name"] elem);
     ExternalReferences :=
       Str.join "; "
         (ext_pairs (findall ["ExternalReferenceList"; "ExternalReference"] elem));
     Definition_ := contents_of elem |}.

Definition fieldnames : list string :=
  ["id"; "OrphaCode"; "Name"; "ExpertLink"; "Synonyms"; "DisorderType";
   "DisorderGroup"; "ExternalReferences"; "Definition"].

(** The output file: its header row and its data rows. *)
Record csv : Type := Csv { header : list string; body : list row }.

Definition no_disorder : string := "No <Disorder> elements found".

(** [convert], from the root of the parsed document and the output file as
    it is before the run ([None] when there is none) to the outcome and the
    output file after the run. The check for an empty list of disorders comes
    before the file is opened; the exception raised there is caught by the
    handler around the body and raised again as a [CustomException]. *)
Definition convert (root : element) (file : option csv) : exn nat * option csv :=
  let disorders := findall_descendants "Disorder" root in
  match disorders with
  | [] => (Raise (CustomException no_disorder), file)
  | _ => (Ok 0, Some (Csv fieldnames (parse_disorder <$> disorders)))
  end.

End OrphaXml1.

(** * The gene-association flattener ([parse_orpha_xml6.py]) *)

Module OrphaXml6.
Import Xml.

(** A cell of a row: a text, or [None] where [find_text_lang] gave none. *)
Inductive value : Type :=
| VStr (s : string)
| VNone.

Definition of_option (x : option string) : value :=
  match x with
  | Some s => VStr s
  | None => VNone
  end.

(** A row under construction is a dictionary from column to cell. *)
Abbreviation dict := (gmap string value).

(** The loop of [parse_external_references]. *)
Fixpoint external_references (refs : gmap string string) (l : list element)
  : exn (gmap string string) :=
  match l with
  | [] => Ok refs
  | ref :: l' =>
      source ← find_text (Some ref) "Source" "";
      reference ← find_text (Some ref) "Reference" "";
      if negb (bool_decide (source = "")) && negb (bool_decide (reference = ""))
      then external_references (<[source := reference]> refs) l'
      else external_references refs l'
  end.

(** [parse_external_references] *)
Definition parse_external_references (gene_elem : element)
  : exn (gmap string string) :=
  external_references ∅ (findall ["ExternalReferenceList"; "ExternalReference"] gene_elem).

(** [gene[f"Ref_{source}"] = ref] for every item of [refs]. *)
Definition add_refs (refs : gmap string string) (gene : dict) : dict :=
  map_fold (fun source ref g => <["Ref_" +:+ source := VStr ref]> g) gene refs.

(** [parse_gene] *)
Definition parse_gene (gene_elem : option element) : exn (option dict) :=
  match gene_elem with
  | None => Ok None
  | Some g =>
      name ← find_text_lang (Some g) "Name" "en" "";
      symbol ← find_text (Some g) "Symbol" "";
      let gene : dict :=
        <["GeneSymbol" := VStr symbol]>
          (<["GeneName" := of_option name]>
             (<["GeneID" := VStr (get g "id" "")]> ∅)) in
      let synonyms := OrphaXml1.stripped_texts (findall ["SynonymList"; "Synonym"] g) in
      let gene := <["GeneSynonyms" := VStr (Str.join "; " synonyms)]> gene in
      let gene :=
        <["GeneType" := VStr (text_of_found (find ["GeneType"; "Name"] g))]> gene in
      refs ← parse_external_references g;
      let gene := add_refs refs gene in
      match find ["LocusList"; "Locus"] g with
      | Some locus =>
          gl ← find_text (Some locus) "GeneLocus" "";
          lk ← find_text (Some locus) "LocusKey" "";
          Ok (Some (<["LocusKey" := VStr lk]> (<["GeneLocus" := VStr gl]> gene)))
      | None => Ok (Some gene)
      end
  end.

(** The scalar fields of a disorder, [disorder_info]. *)
Definition disorder_info (disorder_elem : element) : exn dict :=
  code ← find_text (Some disorder_elem) "OrphaCode" "";
  name ← find_text_lang (Some disorder_elem) "Name" "en" "";
  link ← find_text_lang (Some disorder_elem) "ExpertLink" "en" "";
  Ok (<["DisorderGroup" :=
          VStr (text_of_found (find ["DisorderGroup"; "Name"] disorder_elem))]>
        (<["DisorderType" :=
             VStr (text_of_found (find ["DisorderType"; "Name"] disorder_elem))]>
           (<["ExpertLink" := of_option link]>
              (<["DisorderName" := of_option name]>
                 (<["OrphaCode" := VStr code]>
                    (<["DisorderID" := VStr (get disorder_elem "id" "")]> ∅)))))).

(** The body of the loop over the associations: the row of one association,
    [None] when [if gene] fails, that is without a gene or with an empty
    dictionary for it. *)
Definition association_row (info : dict) (assoc : element) : exn (option dict) :=
  sov ← find_text (Some assoc) "SourceOfValidation" "";
  let row := <["SourceOfValidation" := VStr sov]> info in
  let row :=
    <["AssociationType" :=
        VStr (text_of_found (find ["DisorderGeneAssociationType"; "Name"] assoc))]> row in
  let row :=
    <["AssociationStatus" :=
        VStr (text_of_found (find ["DisorderGeneAssociationStatus"; "Name"] assoc))]> row in
  gene ← parse_gene (find ["Gene"] assoc);
  match gene with
  | Some g => if decide (g = ∅) then Ok None else Ok (Some (g ∪ row))
  | None => Ok None
  end.

Fixpoint association_rows (info : dict) (assocs : list element) : exn (list dict) :=
  match assocs with
  | [] => Ok []
  | assoc :: rest =>
      r ← association_row info assoc;
      rows ← association_rows info rest;
      Ok (option_list r ++ rows)
  end.

(** The associations [parse_disorder] goes through. *)
Definition associations (disorder_elem : element) : list element :=
  findall ["DisorderGeneAssociationList"; "DisorderGeneAssociation"] disorder_elem.

(** [parse_disorder] *)
Definition parse_disorder (disorder_elem : element) : exn (list dict) :=
  info ← disorder_info disorder_elem;
  association_rows info (associations disorder_elem).



End OrphaXml6.

(** * The streaming link parser ([parse_orpha_xml4.py]) *)

Module OrphaXml4.
Import Xml.

(** An edge of the output. *)
Record link : Type := Link {
  start_orpha_id : string;
  end_hp_id : string;
  frequency : string
}.

Definition assoc_tag : string := "DisorderHPOTermAssociation".

(** [a or b] on texts: [b] is looked at when [a] is empty. *)
Definition or_else (a b : exn string) : exn string :=
  x ← a; if decide (x = "") then b else Ok x.

(** An element is true when it has children; [None] is false. *)
Definition truthy_element (x : option element) : bool :=
  match x with
  | Some e => negb (bool_decide (children e = []))
  | None => false
  end.

Definition truthy_text (x : option string) : bool :=
  match x with
  | Some s => negb (bool_decide (s = ""))
  | None => false
  end.

(** [orpha], as the loop body computes it. *)
Definition orpha_of (elem : element) : exn (option string) :=
  dis ← find_first (Some elem) "Disorder";
  match dis with
  | None => Ok None
  | Some _ =>
      s ← or_else (find_text dis "OrphaNumber" "") (find_text dis "OrphaCode" "");
      Ok (Some s)
  end.

(** [hp_id] *)
Definition hp_id_of (elem : element) : exn (option string) :=
  hpo_block ← find_first (Some elem) "HPO";
  match hpo_block with
  | None => Ok None
  | Some _ =>
      s ← or_else (find_text hpo_block "HPOId" "")
            (or_else (find_text hpo_block "HPO_ID" "")
               (or_else (find_text hpo_block "Id" "")
                  (find_text hpo_block "ID" "")));
      Ok (Some s)
  end.

(** [freq] *)
Definition freq_of (elem : element) : exn (option string) :=
  first ← find_first (Some elem) "Frequency";
  freq_block ← (if truthy_element first then Ok first
                else find_first (Some elem) "HPOFrequency");
  match freq_block with
  | None => Ok None
  | Some b =>
      s ← or_else (find_text freq_block "Name" "") (Ok (text_stripped b));
      Ok (Some s)
  end.

Section Upper.

(** [str.upper], a parameter of the model. *)
Variable upper : string -> string.

(** [normalize_hp] *)
Definition normalize_hp (hp : string) : string :=
  if decide (hp = "") then hp else upper (Str.replace "_" ":" hp).

(** What the loop body writes for an association element: a row or nothing. *)
Definition link_row (elem : element) : exn (option link) :=
  orpha ← orpha_of elem;
  hp_id ← hp_id_of elem;
  freq ← freq_of elem;
  Ok (if truthy_text orpha && truthy_text hp_id
      then Some {| start_orpha_id := "ORPHA:" +:+ default "" orpha;
                   end_hp_id := normalize_hp (default "" hp_id);
                   frequency := default "" freq |}
      else None).

(** The pass over the end events of the children of an element, in order:
    the rows written, and the children as the pass leaves them, or the
    exception that stopped it. *)
Definition walk_children (walk : element -> list link * exn element)
  : list element -> list link * exn (list element) :=
  fix go (cs : list element) :=
    match cs with
    | [] => ([], Ok [])
    | c :: cs' =>
        match walk c with
        | (rows1, Ok c') =>
            match go cs' with
            | (rows2, Ok cs'') => (rows1 ++ rows2, Ok (c' :: cs''))
            | (rows2, Raise er) => (rows1 ++ rows2, Raise er)
            end
        | (rows1, Raise er) => (rows1, Raise er)
        end
    end.

(** The loop over [iterparse]: the end event of an element comes after those
    of its children. An association element is inspected, gives its row or
    none, and is cleared; the others are left alone. *)
Fixpoint walk (e : element) : list link * exn element :=
  match e with
  | Element t a x cs =>
      match walk_children walk cs with
      | (rows, Ok cs') =>
          let elem := Element t a x cs' in
          match local t with
          | Ok name =>
              if decide (name = assoc_tag) then
                match link_row elem with
                | Ok r => (rows ++ option_list r, Ok (clear elem))
                | Raise er => (rows, Raise er)
                end
              else (rows, Ok elem)
          | Raise er => (rows, Raise er)
          end
      | (rows, Raise er) => (rows, Raise er)
      end
  end.

(** [convert]: the rows written to the file, and the outcome. Any exception
    is raised again as a [CustomException]. *)
Definition convert (root : element) : list link * exn nat :=
  match walk root with
  | (rows, Ok _) => (rows, Ok 0)
  | (rows, Raise _) => (rows, Raise (CustomException "Failed to parse"))
  end.

End Upper.

(** ** The identifiers, by ordered fallback *)





(** ** The tree the pass leaves *)

Definition is_association (e : element) : bool :=
  match local (tag e) with
  | Ok name => bool_decide (name = assoc_tag)
  | Raise _ => false
  end.

(** Association elements emptied, the rest as it was. *)
Fixpoint residue (e : element) : element :=
  match e with
  | Element t a x cs =>
      if is_association e then Element t ∅ None []
      else Element t a x (map residue cs)
  end.

(** The element has neither attributes, nor text, nor children. *)
Definition is_cleared (e : element) : bool :=
  bool_decide (attrib e = ∅) && bool_decide (text e = None)
  && match children e with [] => true | _ :: _ => false end.

End OrphaXml4.

(** * The ontology file reader and its table ([parse_hpo_obo.py]) *)

Module OboFile.
Import Obo Synonym.

(** [term_dict = parse_term_block(current_block)] followed by
    [if term_dict: yield term_dict]: what a block yields, nothing when the
    block is no Term or gives an empty dictionary. *)
Definition emit (current_block : list string) : exn (list Term) :=
  term_dict ← parse_term_block current_block;
  Ok (match term_dict with
      | Some term => if decide (term = ∅) then [] else [term]
      | None => []
      end).

(** The generator [parse_obo_file], on the lines the file iterates over: the
    Terms yielded, in order, and how the generator ends. [block_loop] is the
    loop with [current_block] as its state, followed by the processing of the
    last block. *)
Fixpoint block_loop (current_block : list string) (lines : list string)
  : list Term * exn unit :=
  match lines with
  | [] =>
      match current_block with
      | [] => ([], Ok ())
      | _ :: _ =>
          match emit current_block with
          | Ok ts => (ts, Ok ())
          | Raise e => ([], Raise e)
          end
      end
  | raw :: rest =>
      let line := Str.rstrip raw in
      if decide (line = "[Term]") then
        match (match current_block with
               | [] => Ok []
               | _ :: _ => emit current_block
               end) with
        | Ok ts => let '(more, r) := block_loop [line] rest in (ts ++ more, r)
        | Raise e => ([], Raise e)
        end
      else if bool_decide (line = "") && negb (bool_decide (current_block = [])) then
        match emit current_block with
        | Ok ts => let '(more, r) := block_loop [] rest in (ts ++ more, r)
        | Raise e => ([], Raise e)
        end
      else if negb (bool_decide (current_block = []))
              || negb (bool_decide (Str.strip line = "")) then
        block_loop (current_block ++ [line]) rest
      else block_loop current_block rest
  end.

Definition parse_obo_file (lines : list string) : list Term * exn unit :=
  block_loop [] lines.

(** A row of the table, one field per column. *)
Record row : Type := Row {
  id : string;
  name : string;
  definition : string;
  comment : string;
  synonyms : string;
  synonym_types : string;
  xrefs : string;
  alt_ids : string;
  is_a : string;
  created_date : string;
  obsolete : string
}.

Definition fieldnames : list string :=
  ["id"; "name"; "definition"; "comment"; "synonyms"; "synonym_types"; "xrefs";
   "alt_ids"; "is_a"; "created_date"; "obsolete"].

(** [term[tag][0] if tag in term else ''] *)
Definition first_value (term : Term) (tag : string) : exn string :=
  match term !! tag with
  | Some (v :: _) => Ok v
  | Some [] => Raise IndexError
  | None => Ok ""
  end.

(** The loop over [term['synonym']]: the texts, and the types that are not
    empty. *)
Fixpoint synonym_columns (syns : list string) : exn (list string * list string) :=
  match syns with
  | [] => Ok ([], [])
  | syn :: rest =>
      d ← extract_synonym_details syn;
      cols ← synonym_columns rest;
      Ok (d.1.1 :: cols.1,
          if decide (d.1.2 = "") then cols.2 else d.1.2 :: cols.2)
  end.

(** The body of the loop of [convert] over the Terms: the row of a Term,
    [None] for a Term without [id], which is skipped. *)
Definition term_row (term : Term) : exn (option row) :=
  match term !! "id" with
  | None => Ok None
  | Some _ =>
      cols ← match term !! "synonym" with
             | Some syns => synonym_columns syns
             | None => Ok ([], [])
             end;
      i ← first_value term "id";
      n ← first_value term "name";
      d ← first_value term "def";
      c ← first_value term "comment";
      created ← first_value term "creation_date";
      Ok (Some {| id := i; name := n; definition := d; comment := c;
                  synonyms := Str.join "; " cols.1;
                  synonym_types := Str.join "; " cols.2;
                  xrefs := Str.join "; " (default [] (term !! "xref"));
                  alt_ids := Str.join "; " (default [] (term !! "alt_id"));
                  is_a := Str.join "; " (default [] (term !! "is_a"));
                  created_date := created;
                  obsolete := if term !! "is_obsolete" is Some _
                              then "true" else "false" |})
  end.

(** The rows written for the Terms the generator yields, up to the first
    exception. *)
Fixpoint write_rows (terms : list Term) : list row * exn unit :=
  match terms with
  | [] => ([], Ok ())
  | term :: rest =>
      match term_row term with
      | Ok r => let '(rows, res) := write_rows rest in (option_list r ++ rows, res)
      | Raise e => ([], Raise e)
      end
  end.

(** The output file: its header row and its data rows. *)
Record csv : Type := Csv { header : list string; body : list row }.

(** [convert], on the lines of the input file: the outcome and the output
    file. The file is opened and its header written before the first line is
    read; an exception met on the way is raised again as a
    [CustomException]. *)
Definition convert (lines : list string) : exn nat * csv :=
  let '(terms, ended) := parse_obo_file lines in
  match write_rows terms with
  | (rows, Ok _) =>
      match ended with
      | Ok _ => (Ok 0, Csv fieldnames rows)
      | Raise e => (Raise (CustomException (message e)), Csv fieldnames rows)
      end
  | (rows, Raise e) => (Raise (CustomException (message e)), Csv fieldnames rows)
  end.

(** ** Files made of stanzas *)

(** A line that goes into the current block: it is neither blank nor the
    Term marker, once stripped on the right. *)
Definition is_body_line (raw : string) : bool :=
  negb (bool_decide (Str.rstrip raw = "")) && negb (bool_decide (Str.rstrip raw = "[Term]")).

(** A line that is empty once stripped on the right. *)
Definition is_separator (raw : string) : bool := bool_decide (Str.rstrip raw = "").

(** A stanza: a first line that is not blank, then body lines. *)
Definition is_stanza (b : list string) : bool :=
  match b with
  | [] => false
  | first :: rest => negb (is_separator first) && forallb is_body_line rest
  end.

(** What a stanza yields. *)
Definition terms_of (b : list string) : list Term :=
  match parse_term_block (Str.rstrip <$> b) with
  | Ok (Some term) => if decide (term = ∅) then [] else [term]
  | _ => []
  end.

(** A Term that is not empty and holds no empty list of values. *)
Definition sound_term (term : Term) : Prop :=
  term <> ∅ /\ forall t vs, term !! t = Some vs -> vs <> [].

End OboFile.

(** * Annotation lines, field by field ([parse_phenotype_hpoa.py]) *)

Module HpoaLine.
Import Hpoa.

(** The twelve fields of a row, in the order of the columns. *)
Definition fields (r : row) : list string :=
  [database_id r; disease_name r; qualifier r; hpo_id r; reference r;
   evidence r; onset r; frequency r; sex r; modifier r; aspect r;
   biocuration r].

Definition not_tab (c : ascii) : bool := negb (bool_decide (c = tab)).

(** The text is not empty and does not begin with white space. *)
Definition starts_clean (s : string) : bool :=
  match s with
  | "" => false
  | String c _ => negb (Str.is_space c)
  end.

(** The text is not empty and does not end with white space. *)
Definition ends_clean (s : string) : bool :=
  negb (bool_decide (s = "")) && bool_decide (Str.rstrip s = s).

End HpoaLine.

(** * Tags without a namespace ([xml_utlis.py]) *)

Module XmlPlain.
Import Xml.

Definition not_rbrace (c : ascii) : bool := negb (bool_decide (c = "}"%char)).

(** The tag has no namespace part: it does not open a brace. *)
Definition plain (t : string) : bool := negb (Str.startswith t "{").

(** No tag of the tree has a namespace part. *)
Fixpoint plain_tree (e : element) : bool :=
  match e with
  | Element t _ _ cs => plain t && forallb plain_tree cs
  end.

End XmlPlain.

(** * The table of gene associations ([parse_orpha_xml6.py]) *)

Module OrphaXml6File.
Import Xml OrphaXml6.

Definition fieldnames : list string :=
  ["DisorderID"; "OrphaCode"; "DisorderName"; "ExpertLink";
   "DisorderType"; "DisorderGroup";
   "SourceOfValidation"; "AssociationType"; "AssociationStatus";
   "GeneID"; "GeneName"; "GeneSymbol"; "GeneSynonyms";
   "GeneType"; "GeneLocus"; "LocusKey";
   "Ref_HGNC"; "Ref_Ensembl"; "Ref_OMIM"; "Ref_SwissProt";
   "Ref_Genatlas"; "Ref_ClinVar"; "Ref_Reactome"].

(** What the [DictWriter] passes on for a row: the cell of each column, the
    empty text for a column the row has no key for; with
    [extrasaction='ignore'] the keys of the row that are no column are left
    out. *)
Definition cells (row : dict) : list value :=
  (fun k => default (VStr "") (row !! k)) <$> fieldnames.

(** The output file: its header row and its data rows. *)
Record csv : Type := Csv { header : list string; body : list (list value) }.

(** The loop of [convert] over the disorders: the rows written, and the
    count of rows or the exception that stopped the loop. *)
Fixpoint write_disorders (disorders : list element)
  : list (list value) * exn nat :=
  match disorders with
  | [] => ([], Ok 0)
  | disorder :: rest =>
      match parse_disorder disorder with
      | Ok rows =>
          let '(more, r) := write_disorders rest in
          ((cells <$> rows) ++ more, n ← r; Ok (length rows + n))
      | Raise e => ([], Raise e)
      end
  end.

(** [convert], from the root of the parsed document and the output file as
    it is before the run to the outcome and the output file after the run. *)
Definition convert (root : element) (file : option csv) : exn nat * option csv :=
  let disorders := findall_descendants "Disorder" root in
  match disorders with
  | [] => (Raise (CustomException OrphaXml1.no_disorder), file)
  | _ :: _ =>
      match write_disorders disorders with
      | (rows, Ok _) => (Ok 0, Some (Csv fieldnames rows))
      | (rows, Raise e) =>
          (Raise (CustomException (message e)), Some (Csv fieldnames rows))
      end
  end.


(** The external references of a gene that state both a source and a
    reference. *)
Definition states (ref : element) (source reference : string) : Prop :=
  find_text (Some ref) "Source" "" = Ok source /\
  find_text (Some ref) "Reference" "" = Ok reference /\
  source <> "" /\ reference <> "".

End OrphaXml6File.

(** * The disorder-association flattener ([parse_orpha_xml7.py]) *)

Module OrphaXml7.
Import Xml.

(** A cell of a row: a text, the count of associations, or [None] where
    [find_text_lang] gave none. *)
Inductive value : Type :=
| VStr (s : string)
| VInt (n : Z)
| VNone.

Definition of_option (x : option string) : value :=
  match x with
  | Some s => VStr s
  | None => VNone
  end.

Abbreviation dict := (gmap string value).

(** [parse_target_disorder] *)
Definition parse_target_disorder (target : option element) : exn dict :=
  match target with
  | None => Ok ∅
  | Some t =>
      code ← find_text (Some t) "OrphaCode" "";
      name ← find_text_lang (Some t) "Name" "en" "";
      Ok (<["TargetName" := of_option name]>
            (<["TargetOrphaCode" := VStr code]>
               (<["TargetId" := VStr (get t "id" "")]> ∅)))
  end.

(** [parse_disorder_association]: the keys of [target] come last in the
    dictionary display, so they would win over the four before them. *)
Definition parse_disorder_association (association : option element)
    (disorder_id : string) : exn (option dict) :=
  match association with
  | None => Ok None
  | Some a =>
      target ← parse_target_disorder (find ["TargetDisorder"] a);
      let association_type :=
        text_of_found (find ["DisorderDisorderAssociationType"; "Name"] a) in
      let root := find ["RootDisorder"] a in
      let root_id := match root with Some r => get r "id" "" | None => "" end in
      let is_cycle :=
        match root with Some r => get r "cycle" "false" | None => "false" end in
      Ok (Some (target ∪
                <["AssociationType" := VStr association_type]>
                  (<["IsCycle" := VStr is_cycle]>
                     (<["RootId" := VStr root_id]>
                        (<["DisorderId" := VStr disorder_id]> ∅)))))
  end.

Definition fieldnames : list string :=
  ["OrphaCode"; "DisorderName"; "ExpertLink"; "TotalAssociations";
   "DisorderId"; "RootId"; "IsCycle";
   "TargetId"; "TargetOrphaCode"; "TargetName";
   "AssociationType"].

(** What the [DictWriter] passes on for a row: the cell of each column, the
    empty text for a column the row has no key for. A key that is no column
    makes it raise [ValueError]. *)
Definition cells (row : dict) : exn (list value) :=
  let wrong_fields : gset string := dom row ∖ list_to_set fieldnames in
  if decide (wrong_fields = ∅)
  then Ok ((fun k => default (VStr "") (row !! k)) <$> fieldnames)
  else Raise ValueError.

(** The output file: its header row and its data rows. *)
Record csv : Type := Csv { header : list string; body : list (list value) }.

(** The loop over the rows of one disorder: the rows written, up to the
    first exception. *)
Fixpoint write_rows (rows : list dict) : list (list value) * exn unit :=
  match rows with
  | [] => ([], Ok ())
  | row :: rest =>
      match cells row with
      | Ok cs => let '(more, r) := write_rows rest in (cs :: more, r)
      | Raise e => ([], Raise e)
      end
  end.

Section Int.

(** [int] on a text, a parameter of the model. *)
Variable int : string -> exn Z.

(** The loop of [parse_disorder] over the associations of the list. *)
Fixpoint association_rows (base : dict) (disorder_id : string)
    (assocs : list element) : exn (list dict) :=
  match assocs with
  | [] => Ok []
  | assoc :: rest =>
      assoc_data ← parse_disorder_association (Some assoc) disorder_id;
      rows ← association_rows base disorder_id rest;
      Ok (match assoc_data with
          | Some data => if decide (data = ∅) then rows else (data ∪ base) :: rows
          | None => rows
          end)
  end.

(** [parse_disorder] *)
Definition parse_disorder (disorder : element) : exn (list dict) :=
  let disorder_id := get disorder "id" "" in
  orpha_code ← find_text (Some disorder) "OrphaCode" "";
  name ← find_text_lang (Some disorder) "Name" "en" "";
  expert_link ← find_text_lang (Some disorder) "ExpertLink" "en" "";
  match find ["DisorderDisorderAssociationList"] disorder with
  | None => Ok []
  | Some assoc_list =>
      total_associations ← int (get assoc_list "count" "0");
      association_rows
        (<["TotalAssociations" := VInt total_associations]>
           (<["ExpertLink" := of_option expert_link]>
              (<["DisorderName" := of_option name]>
                 (<["OrphaCode" := VStr orpha_code]> ∅))))
        disorder_id
        (findall ["DisorderDisorderAssociation"] assoc_list)
  end.

(** The loop of [convert] over the disorders. *)
Fixpoint write_disorders (disorders : list element)
  : list (list value) * exn unit :=
  match disorders with
  | [] => ([], Ok ())
  | disorder :: rest =>
      match parse_disorder disorder with
      | Ok rows =>
          match write_rows rows with
          | (written, Ok _) =>
              let '(more, r) := write_disorders rest in (written ++ more, r)
          | (written, Raise e) => (written, Raise e)
          end
      | Raise e => ([], Raise e)
      end
  end.

(** [convert], from the root of the parsed document and the output file as
    it is before the run to the outcome and the output file after the run. *)
Definition convert (root : element) (file : option csv) : exn nat * option csv :=
  let disorders := findall_descendants "Disorder" root in
  match disorders with
  | [] => (Raise (CustomException OrphaXml1.no_disorder), file)
  | _ :: _ =>
      match write_disorders disorders with
      | (rows, Ok _) => (Ok 0, Some (Csv fieldnames rows))
      | (rows, Raise e) =>
          (Raise (CustomException (message e)), Some (Csv fieldnames rows))
      end
  end.

End Int.

(** The associations of a disorder: the [DisorderDisorderAssociation]
    children of its first association list. *)
Definition associations (disorder : element) : list element :=
  match find ["DisorderDisorderAssociationList"] disorder with
  | Some assoc_list => findall ["DisorderDisorderAssociation"] assoc_list
  | None => []
  end.

(** The text [int] is applied to for a disorder, when it has a list. *)
Definition count_text (disorder : element) : option string :=
  (fun assoc_list => get assoc_list "count" "0")
    <$> find ["DisorderDisorderAssociationList"] disorder.

(** An instance of [int] for the examples: the value of a text of ASCII
    digits, [ValueError] for any other text. *)
Fixpoint digits_value (acc : Z) (s : string) : option Z :=
  match s with
  | "" => Some acc
  | String c s' =>
      let n := Str.code c in
      if ((48 <=? n) && (n <=? 57))%N
      then digits_value (10 * acc + Z.of_N (n - 48)) s'
      else None
  end.

Definition int_of_digits (s : string) : exn Z :=
  match s with
  | "" => Raise ValueError
  | _ => match digits_value 0 s with Some n => Ok n | None => Raise ValueError end
  end.

End OrphaXml7.

(** * The order of the streaming pass ([parse_orpha_xml4.py]) *)

Module OrphaXml4Order.
Import Xml OrphaXml4.

(** The association elements of a document in the order of their end
    events, each as the loop finds it: the associations below it have been
    cleared by then. *)
Fixpoint inspected (e : element) : list element :=
  match e with
  | Element t a x cs =>
      concat (map inspected cs)
      ++ (if is_association e then [Element t a x (map residue cs)] else [])
  end.

Definition not_underscore (c : ascii) : bool := negb (bool_decide (c = "_"%char)).

End OrphaXml4Order.

(** * Properties *)

(** ** Exceptions and strings *)

Lemma exn_bind_ok {A B} (f : A -> exn B) (m : exn A) (b : B) :
  m ≫= f = Ok b -> exists a, m = Ok a /\ f a = Ok b.
Proof. destruct m as [a|e]; simpl; [eauto | discriminate]. Qed.

Lemma str_app_cons (c : ascii) (a b : string) : String c a +:+ b = String c (a +:+ b).
Proof. done. Qed.

Lemma str_app_nil_l (s : string) : "" +:+ s = s.
Proof. done. Qed.

Lemma str_app_nil_r (s : string) : s +:+ "" = s.
Proof. induction s as [|c s IH]; [done|]. by rewrite str_app_cons, IH. Qed.

Lemma str_app_assoc (a b c : string) : (a +:+ b) +:+ c = a +:+ b +:+ c.
Proof. induction a as [|x a IH]; [done|]. by rewrite !str_app_cons, IH. Qed.

Lemma str_all_app p (a b : string) : Str.all p (a +:+ b) = Str.all p a && Str.all p b.
Proof.
  induction a as [|x a IH]; [done|]. rewrite str_app_cons. cbn. rewrite IH.
  by destruct (p x).
Qed.


(** ** The tag-block reader *)

Section TermBlock.
Import Obo.

Lemma extend_last_snoc (suffix : string) (vs : list string) (v : string) :
  extend_last suffix (vs ++ [v]) = vs ++ [v +:+ suffix].
Proof.
  induction vs as [|x vs IH]; [done|].
  cbn [app extend_last]. rewrite IH. by destruct vs.
Qed.

Lemma append_last_snoc (suffix : string) (vs : list string) (v : string) :
  append_last suffix (vs ++ [v]) = Ok (vs ++ [v +:+ suffix]).
Proof.
  unfold append_last. rewrite last_snoc, length_app. cbn [length].
  replace (pred (length vs + 1)) with (length vs + 0) by lia.
  by rewrite insert_app_r.
Qed.

Lemma append_last_extend (suffix : string) (l : list string) :
  l <> [] -> append_last suffix l = Ok (extend_last suffix l).
Proof.
  destruct l as [|x l _] using rev_ind; [done|]. intros _.
  by rewrite append_last_snoc, extend_last_snoc.
Qed.

Lemma last_extend_last (suffix : string) (l : list string) :
  last (extend_last suffix l) = (fun v => v +:+ suffix) <$> last l.
Proof.
  destruct l as [|x l _] using rev_ind; [done|].
  by rewrite extend_last_snoc, !last_snoc.
Qed.

Lemma extend_last_nil_inv (suffix : string) (l : list string) :
  extend_last suffix l = [] -> l = [].
Proof. destruct l as [|x [|y l]]; done. Qed.

Lemma held_some_nonempty (t : string) (vals l : list string) :
  held t vals = Some l -> l <> [] /\ vals <> [].
Proof.
  unfold held. destruct (is_multi t).
  - destruct vals; naive_solver.
  - destruct (last vals) eqn:E; [|done]. intros [= <-]. split; [done|].
    by intros ->.
Qed.

Lemma held_none (t : string) (vals : list string) :
  held t vals = None -> vals = [].
Proof.
  unfold held. destruct (is_multi t).
  - by destruct vals.
  - destruct vals as [|x l _] using rev_ind; [done|]. by rewrite last_snoc.
Qed.

Lemma held_extend (t suffix : string) (vals l : list string) :
  held t vals = Some l ->
  held t (extend_last suffix vals) = Some (extend_last suffix l).
Proof.
  unfold held. destruct (is_multi t).
  - destruct vals as [|x vals]; [done|]. intros [= <-].
    destruct (extend_last suffix (x :: vals)) eqn:E; [|done].
    by apply extend_last_nil_inv in E.
  - rewrite last_extend_last. destruct (last vals); [|done]. by intros [= <-].
Qed.

Lemma held_snoc (t value : string) (vals : list string) :
  held t (vals ++ [value]) =
  Some (if is_multi t then default [] (held t vals) ++ [value] else [value]).
Proof.
  unfold held. destruct (is_multi t).
  - by destruct vals.
  - by rewrite last_snoc.
Qed.

Lemma term_step_agrees (st : state) f (line : string) :
  agrees st f ->
  exists st', term_step st line = Ok st' /\
              agrees st' (fun t => occ_step t (f t) line).
Proof.
  intros Hag. destruct st as [term cur]. unfold term_step, occ_step, is_blank.
  destruct (decide (Str.strip line = "")) as [Hb|Hb].
  { exists (term, cur). split; [done|]. intros t.
    rewrite bool_decide_true by done. destruct (f t) eqn:E.
    specialize (Hag t). by rewrite E in Hag. }
  rewrite bool_decide_false by done.
  destruct (Str.startswith line " ") eqn:Hsp.
  - (* continuation *)
    destruct cur as [tag|]; cycle 1.
    { exists (term, None). split; [done|]. intros t.
      destruct (Hag t) as [Hh Hl]. destruct (f t) as [vals here].
      cbn in *. subst here. rewrite bool_decide_false by done. done. }
    destruct (decide (tag = "")) as [->|Hne].
    { exists (term, Some ""). split; [done|]. intros t.
      destruct (Hag t) as [Hh Hl]. destruct (f t) as [vals here].
      cbn in *. split; [done|]. subst here.
      destruct (decide (t = "")) as [->|Ht].
      - rewrite (bool_decide_false (_ <> _)) by naive_solver.
        by rewrite andb_false_r.
      - rewrite (bool_decide_false (Some _ = _)) by naive_solver. done. }
    destruct (term !! tag) as [vs|] eqn:Hvs.
    + destruct (Hag tag) as [_ Htag]. cbn in Htag. rewrite Hvs in Htag.
      symmetry in Htag. destruct (held_some_nonempty _ _ _ Htag) as [Hvs0 _].
      rewrite (append_last_extend _ _ Hvs0). cbn.
      eexists. split; [done|]. intros t.
      destruct (Hag t) as [Hh Hl]. destruct (f t) as [vals here] eqn:E.
      cbn in *. split; [done|]. subst here.
      destruct (decide (tag = t)) as [<-|Ht].
      * rewrite bool_decide_true by done. rewrite bool_decide_true by done.
        cbn. rewrite lookup_insert_eq. rewrite E in Htag. cbn in Htag.
        symmetry. by apply held_extend.
      * rewrite (bool_decide_false (Some _ = _)) by naive_solver. cbn.
        by rewrite lookup_insert_ne.
    + exists (term, Some tag). split; [done|]. intros t.
      destruct (Hag t) as [Hh Hl]. destruct (f t) as [vals here] eqn:E.
      cbn in *. split; [done|]. subst here.
      destruct (decide (tag = t)) as [<-|Ht].
      * rewrite Hvs in Hl. symmetry in Hl. apply held_none in Hl. subst vals.
        rewrite Hvs. destruct (_ && _); cbn; unfold held; by destruct (is_multi tag).
      * rewrite (bool_decide_false (Some _ = _)) by naive_solver. done.
  - (* tag line *)
    destruct (parse_tag_value line) as [tag value].
    destruct (decide (value = "")) as [Hv|Hv].
    { exists (term, Some tag). split; [done|]. intros t.
      destruct (Hag t) as [Hh Hl]. destruct (f t) as [vals here].
      cbn in *. destruct (decide (tag = t)) as [<-|Ht]; cbn.
      - by rewrite bool_decide_true.
      - by rewrite bool_decide_false by naive_solver. }
    eexists (<[tag := if is_multi tag
                      then default [] (term !! tag) ++ [value] else [value]]> term,
             Some tag).
    split; [by destruct (is_multi tag)|]. intros t.
    destruct (Hag t) as [Hh Hl]. destruct (f t) as [vals here].
    cbn in *. destruct (decide (tag = t)) as [<-|Ht]; cbn.
    + rewrite bool_decide_true by done. split; [done|].
      by rewrite lookup_insert_eq, held_snoc, Hl.
    + rewrite bool_decide_false by naive_solver. split; [done|].
      by rewrite lookup_insert_ne.
Qed.

Lemma term_loop_agrees (lines : list string) (st : state) f :
  agrees st f ->
  exists st', term_loop st lines = Ok st' /\
              agrees st' (fun t => fold_left (occ_step t) lines (f t)).
Proof.
  revert st f. induction lines as [|line lines IH]; intros st f Hag.
  { by exists st. }
  destruct (term_step_agrees st f line Hag) as (st1 & Hst1 & Hag1).
  destruct (IH st1 _ Hag1) as (st2 & Hst2 & Hag2).
  exists st2. split; [|done]. cbn. by rewrite Hst1.
Qed.

Lemma agrees_init : agrees (∅, None) (fun _ => ([], false)).
Proof.
  intros t. split; [done|]. cbn. rewrite lookup_empty. unfold held.
  by destruct (is_multi t).
Qed.


Lemma term_loop_app (st : state) (l1 l2 : list string) :
  term_loop st (l1 ++ l2) = (st' ← term_loop st l1; term_loop st' l2).
Proof.
  revert st. induction l1 as [|x l1 IH]; intros st; [done|].
  cbn. destruct (term_step st x) as [st1|e]; [|done]. cbn. apply IH.
Qed.

Lemma continues_refl (v : string) : continues v v.
Proof. exists "". by rewrite str_app_nil_r. Qed.

Lemma continues_app (v e suffix : string) :
  continues v e -> continues v (e +:+ suffix).
Proof. intros [s ->]. exists (s +:+ suffix). by rewrite str_app_assoc. Qed.

Lemma Forall2_continues_extend (suffix : string) (occs vals : list string) :
  Forall2 continues occs vals ->
  Forall2 continues occs (extend_last suffix vals).
Proof.
  induction 1 as [|v e occs vals Hve HF IH]; [constructor|].
  destruct vals as [|e' vals].
  - inversion HF; subst. cbn. constructor; [by apply continues_app|constructor].
  - change (extend_last suffix (e :: e' :: vals))
      with (e :: extend_last suffix (e' :: vals)).
    by constructor.
Qed.

Lemma occurrences_cons (t line : string) (body : list string) :
  occurrences t (line :: body) =
  (if is_tag_line line then
     if decide ((parse_tag_value line).1 = t) then
       if decide ((parse_tag_value line).2 = "") then []
       else [(parse_tag_value line).2]
     else []
   else []) ++ occurrences t body.
Proof.
  unfold occurrences. cbn [omap list_omap]. destruct (is_tag_line line); [|done].
  destruct (parse_tag_value line) as [tag value]. cbn.
  destruct (decide (tag = t)); [|done]. by destruct (decide (value = "")).
Qed.

Lemma occ_step_unfold (t line : string) (vals : list string) (here : bool) :
  occ_step t (vals, here) line =
  if is_blank line then (vals, here)
  else if Str.startswith line " " then
    (if here && bool_decide (t <> "")
     then extend_last (" " +:+ Str.strip line) vals else vals, here)
  else if decide ((parse_tag_value line).1 = t)
       then (if decide ((parse_tag_value line).2 = "") then vals
             else vals ++ [(parse_tag_value line).2], true)
       else (vals, false).
Proof. unfold occ_step. by destruct (parse_tag_value line). Qed.

Lemma occ_fold_continues (t : string) (body : list string) vals here occs :
  Forall2 continues occs vals ->
  Forall2 continues (occs ++ occurrences t body)
          (fold_left (occ_step t) body (vals, here)).1.
Proof.
  revert vals here occs. induction body as [|line body IH]; intros vals here occs HF.
  { cbn. by rewrite app_nil_r. }
  cbn [fold_left]. rewrite occurrences_cons, occ_step_unfold. unfold is_tag_line.
  destruct (is_blank line); cbn [negb andb app].
  { by apply IH. }
  destruct (Str.startswith line " "); cbn [negb andb app].
  { apply IH. destruct (here && _); [|done]. by apply Forall2_continues_extend. }
  destruct (decide (_ = t)); [|by apply IH].
  destruct (decide (_ = "")); [by apply IH|].
  rewrite app_assoc. apply IH.
  apply Forall2_app; [done|]. constructor; [apply continues_refl|constructor].
Qed.

Lemma occ_fold_plain (t : string) (body : list string) vals here :
  Forall (fun line => is_continuation line = false) body ->
  (fold_left (occ_step t) body (vals, here)).1 = vals ++ occurrences t body.
Proof.
  revert vals here. induction body as [|line body IH]; intros vals here HF.
  { cbn. by rewrite app_nil_r. }
  inversion HF as [|? ? Hl HF']; subst.
  cbn [fold_left]. rewrite occurrences_cons, occ_step_unfold.
  unfold is_tag_line. unfold is_continuation in Hl.
  destruct (is_blank line); cbn [negb andb app] in *.
  { by apply IH. }
  rewrite Hl. cbn [negb andb app].
  destruct (decide (_ = t)); [|by apply IH].
  destruct (decide (_ = "")); [by apply IH|].
  rewrite IH by done. by rewrite <- app_assoc.
Qed.

Lemma term_step_current_tag (st st' : state) (line : string) :
  term_step st line = Ok st' ->
  st'.2 = if is_tag_line line then Some (parse_tag_value line).1 else st.2.
Proof.
  destruct st as [term cur]. unfold term_step, is_tag_line, is_blank.
  destruct (decide (Str.strip line = "")).
  { rewrite bool_decide_true by done. by intros [= <-]. }
  rewrite bool_decide_false by done.
  destruct (Str.startswith line " "); cbn.
  - destruct cur as [tag|]; [|by intros [= <-]].
    destruct (decide (tag = "")); [by intros [= <-]|].
    destruct (term !! tag); [|by intros [= <-]].
    destruct (append_last _ _); cbn; [|done]. by intros [= <-].
  - destruct (parse_tag_value line) as [tag value]. cbn.
    destruct (decide (value = "")); [by intros [= <-]|].
    destruct (is_multi tag); by intros [= <-].
Qed.

Lemma term_loop_current_tag (body : list string) (st st' : state) :
  term_loop st body = Ok st' ->
  st'.2 = fold_left (fun cur line =>
                       if is_tag_line line then Some (parse_tag_value line).1
                       else cur) body st.2.
Proof.
  revert st. induction body as [|line body IH]; intros st; cbn.
  { by intros [= <-]. }
  intros H. apply exn_bind_ok in H as (st1 & H1 & H2).
  rewrite (IH _ H2). by rewrite (term_step_current_tag _ _ _ H1).
Qed.

(** What a run of continuation lines does to a state. *)
Lemma continuation_loop (conts : list string) (term : Term) (cur : option string)
    (st' : state) :
  Forall (fun line => is_continuation line = true) conts ->
  term_loop (term, cur) conts = Ok st' ->
  st'.2 = cur /\ dom st'.1 = dom term /\
  (cur = None -> st'.1 = term) /\
  (forall t, cur = Some t -> term !! t = None -> st'.1 = term) /\
  (forall t vs V, cur = Some t -> t <> "" -> term !! t = Some (vs ++ [V]) ->
     st'.1 = <[t := vs ++ [joined V (Str.strip <$> conts)]]> term).
Proof.
  revert term. induction conts as [|line conts IH]; intros term HF H.
  { cbn in H. injection H as <-. cbn. repeat split; try done.
    intros t vs V _ _ Ht. by rewrite insert_id. }
  inversion HF as [|? ? Hl HF']; subst.
  cbn in H. apply exn_bind_ok in H as (st1 & H1 & H2).
  unfold is_continuation, is_blank in Hl. apply andb_true_iff in Hl as [Hb Hs].
  apply negb_true_iff, bool_decide_eq_false in Hb.
  unfold term_step in H1. rewrite decide_False in H1 by done. rewrite Hs in H1.
  destruct cur as [tag|]; cycle 1.
  { injection H1 as <-. destruct (IH _ HF' H2) as (?&?&?&?&?).
    repeat split; done. }
  destruct (decide (tag = "")) as [->|Hne].
  { injection H1 as <-. destruct (IH _ HF' H2) as (?&?&?&?&?).
    repeat split; try done. by intros t vs V [= <-]. }
  destruct (term !! tag) as [l|] eqn:Hl; cycle 1.
  { injection H1 as <-. destruct (IH _ HF' H2) as (?&?&?&Hn&?).
    repeat split; try done. intros t vs V [= <-] _ Ht. congruence. }
  apply exn_bind_ok in H1 as (l' & Hl' & [= <-]).
  destruct (IH _ HF' H2) as (Hc & Hd & _ & _ & Hv).
  split; [done|]. split.
  { rewrite Hd. apply dom_insert_lookup_L. by eexists. }
  split; [done|]. split.
  { intros t [= <-]. congruence. }
  intros t vs V [= <-] _ Ht. rewrite Hl in Ht. injection Ht as ->.
  rewrite append_last_snoc in Hl'. injection Hl' as <-.
  rewrite (Hv tag vs (V +:+ " " +:+ Str.strip line)); try done.
  - by rewrite insert_insert_eq.
  - by rewrite lookup_insert_eq.
Qed.

(** C1. For every block that opens with the [Term] marker and every tag [t]:
    the value-bearing lines of [t] each have their entry in [tag_values], in
    first-seen order (the entry is the value, followed by whatever its
    continuation lines joined on; it is the bare value when the block has no
    continuation line); a multi-valued tag is mapped to that whole list, so
    no occurrence is overwritten, and any other tag to its last entry only. *)
Theorem parse_term_block_tag_values (first : string) (body : list string) :
  Str.startswith first "[Term]" = true ->
  exists term,
    parse_term_block (first :: body) = Ok (Some term) /\
    forall t,
      Forall2 continues (occurrences t body) (tag_values t body) /\
      (Forall (fun line => is_continuation line = false) body ->
       tag_values t body = occurrences t body) /\
      (t ∈ multi_valued ->
       term !! t = if tag_values t body is [] then None
                   else Some (tag_values t body)) /\
      (t ∉ multi_valued ->
       term !! t = (fun v => [v]) <$> last (tag_values t body)).
Proof.
  intros Hfirst.
  destruct (term_loop_agrees body _ _ agrees_init) as (st & Hst & Hag).
  exists st.1. split.
  { unfold parse_term_block. by rewrite Hfirst, Hst. }
  intros t. destruct (Hag t) as [_ Hl]. fold (tag_values t body) in Hl.
  split; [apply (occ_fold_continues t body [] false []); constructor|].
  split; [intros HF; apply (occ_fold_plain t body [] false HF)|].
  unfold held, is_multi in Hl. split; intros Ht.
  - by rewrite bool_decide_true in Hl.
  - by rewrite bool_decide_false in Hl.
Qed.

Lemma parse_term_block_tag_values_witness :
  exists term,
    parse_term_block ["[Term]"; "id: HP:1"; "synonym: a"; "name: n1";
                      "synonym: b"; "name: n2"] = Ok (Some term) /\
    term !! "synonym" = Some ["a"; "b"] /\ term !! "name" = Some ["n2"].
Proof.
  destruct (parse_term_block_tag_values "[Term]"
              ["id: HP:1"; "synonym: a"; "name: n1"; "synonym: b"; "name: n2"])
    as (term & Hp & Ht); [reflexivity|].
  exists term. split; [exact Hp|]. split.
  - destruct (Ht "synonym") as (_ & _ & Hm & _). rewrite Hm; [reflexivity|].
    by apply (bool_decide_unpack _).
  - destruct (Ht "name") as (_ & _ & _ & Hs). rewrite Hs; [reflexivity|].
    by apply (bool_decide_eq_false_1 _).
Defined.

(** A line that begins with a tab begins with white space, yet the reader
    takes it for a tag line, and it brings a tag into the Term that was not
    there: lines with leading white space do not all leave the tags of the
    Term alone. *)
Lemma whitespace_line_adds_tag :
  ~ (forall (body : list string) (line : string) (term term' : Term),
       leading_whitespace line = true ->
       parse_term_block ("[Term]" :: body) = Ok (Some term) ->
       parse_term_block ("[Term]" :: body ++ [line]) = Ok (Some term') ->
       dom term' = dom term).
Proof.
  intros H.
  specialize (H [] (String "009" "name: x") ∅ {["name" := ["x"]]}
                eq_refl eq_refl eq_refl).
  assert (Hin : "name" ∈ dom ({["name" := ["x"]]} : Term)).
  { apply elem_of_dom. eexists. apply lookup_singleton_eq. }
  rewrite H in Hin. apply elem_of_dom in Hin as [l Hl].
  vm_compute in Hl. discriminate.
Qed.

(** C2. The reader breaks the claim on an indented line that is led by a tab.
    The branch of [parse_term_block] for line continuations is headed
    "indented lines", and it tests for a leading space alone. After the line
    [def: first], the line [second: part] led by a tab is not joined to the
    value of [def]: it is read as a tag line and brings the tag [second] into
    the Term. The same line led by a space is joined, as the claim says. Both
    lines begin with white space. *)
Theorem tab_led_line_is_read_as_tag_line :
  parse_term_block ["[Term]"; "def: first"; String "009" "second: part"]
  = Ok (Some ({["def" := ["first"]; "second" := ["part"]]} : Term)) /\
  parse_term_block ["[Term]"; "def: first"; " second: part"]
  = Ok (Some ({["def" := ["first second: part"]]} : Term)) /\
  leading_whitespace (String "009" "second: part") = true /\
  leading_whitespace " second: part" = true.
Proof. repeat split; vm_compute; reflexivity. Qed.

(** X27. The lines the reader takes for continuation lines are the non-blank
    lines that begin with a space. Appended to a block, they leave the set of
    tags of the Term as it was. When the tag met most recently is a non-empty
    tag whose last value is [V], they turn that value into
    [V + " " + c1 + ... + " " + cN], the [ci] being the stripped lines, and
    change nothing else; when no tag has been met yet, or the most recent tag
    holds no value, they are discarded. *)
Theorem continuation_lines_extend_last_value
    (first : string) (body conts : list string) :
  Str.startswith first "[Term]" = true ->
  Forall (fun line => is_continuation line = true) conts ->
  exists term term',
    parse_term_block (first :: body) = Ok (Some term) /\
    parse_term_block (first :: body ++ conts) = Ok (Some term') /\
    dom term' = dom term /\
    (forall t vs V,
       last_tag body = Some t -> t <> "" -> term !! t = Some (vs ++ [V]) ->
       term' = <[t := vs ++ [joined V (Str.strip <$> conts)]]> term) /\
    (last_tag body = None -> term' = term) /\
    (forall t, last_tag body = Some t -> term !! t = None -> term' = term).
Proof.
  intros Hfirst Hconts.
  destruct (term_loop_agrees body _ _ agrees_init) as (st & Hst & _).
  destruct (term_loop_agrees (body ++ conts) _ _ agrees_init) as (st' & Hst' & _).
  exists st.1, st'.1.
  split; [unfold parse_term_block; by rewrite Hfirst, Hst|].
  split; [unfold parse_term_block; by rewrite Hfirst, Hst'|].
  pose proof (term_loop_current_tag _ _ _ Hst) as Hcur. cbn in Hcur.
  fold (last_tag body) in Hcur.
  rewrite term_loop_app, Hst in Hst'. cbn in Hst'.
  destruct st as [term cur]. cbn in Hcur. subst cur.
  destruct (continuation_loop _ _ _ _ Hconts Hst') as (_ & Hd & Hn & Hv & He).
  cbn. repeat split; done.
Qed.

Lemma continuation_lines_extend_last_value_witness :
  exists term term',
    parse_term_block ["[Term]"; "synonym: a"; "def: first"] = Ok (Some term) /\
    parse_term_block ["[Term]"; "synonym: a"; "def: first";
                      "  second part"; " third"] = Ok (Some term') /\
    dom term' = dom term /\
    term' = <["def" := ["first second part third"]]> term.
Proof.
  destruct (continuation_lines_extend_last_value "[Term]"
              ["synonym: a"; "def: first"] ["  second part"; " third"])
    as (term & term' & H1 & H2 & Hd & Hv & _); [reflexivity | | ].
  { repeat constructor. }
  exists term, term'. split; [exact H1|]. split; [exact H2|]. split; [exact Hd|].
  apply (Hv "def" [] "first"); [reflexivity|discriminate|].
  destruct (term_loop_agrees ["synonym: a"; "def: first"] _ _ agrees_init)
    as (st & Hst & Hag).
  unfold parse_term_block in H1. cbn [Str.startswith] in H1.
  rewrite decide_True in H1 by reflexivity.
  change (Str.startswith "Term]" "Term]") with true in H1.
  rewrite Hst in H1. injection H1 as <-.
  destruct (Hag "def") as [_ ->]. vm_compute. reflexivity.
Defined.

End TermBlock.

(** ** The matcher *)

Section Matcher.
Import Re.

Lemma space_not_word (c : ascii) : Str.is_space c = true -> Str.is_word c = false.
Proof. destruct c as [[] [] [] [] [] [] [] []]; vm_compute; congruence. Qed.

Lemma word_not_space (c : ascii) : Str.is_word c = true -> Str.is_space c = false.
Proof. destruct c as [[] [] [] [] [] [] [] []]; vm_compute; congruence. Qed.

Lemma head_in_app_nonempty p q (w r : string) :
  (forall c, p c = true -> q c = false) ->
  w <> "" -> Str.all p w = true -> Str.head_in q (w +:+ r) = false.
Proof.
  intros Hpq Hw Hall. destruct w as [|c w]; [done|].
  rewrite str_app_cons. cbn in *. apply andb_true_iff in Hall as [Hc _]. auto.
Qed.

Lemma head_in_app p q (w r : string) :
  (forall c, p c = true -> q c = false) ->
  Str.all p w = true -> Str.head_in q r = false ->
  Str.head_in q (w +:+ r) = false.
Proof.
  intros Hpq Hall Hr. destruct w as [|c w]; [done|].
  apply (head_in_app_nonempty p); done.
Qed.

Lemma rep_sound g lo p (s w r : string) :
  (w, r) ∈ rep g lo p s ->
  s = w +:+ r /\ Str.all p w = true /\ lo <= String.length w.
Proof.
  revert lo w r. induction s as [|c s IH]; intros lo w r Hin.
  - cbn in Hin. destruct lo; [|by apply elem_of_nil in Hin].
    apply list_elem_of_singleton in Hin as [= -> ->]. done.
  - cbn [rep] in Hin.
    assert (Hstop : (w, r) ∈ (if lo is 0 then [("", String c s)] else []) ->
                    String c s = w +:+ r /\ Str.all p w = true /\
                    lo <= String.length w).
    { destruct lo; [|by intros ?%elem_of_nil].
      intros [= -> ->]%list_elem_of_singleton. done. }
    assert (Hmore : (w, r) ∈ ((fun wr : string * string => (String c wr.1, wr.2))
                                <$> rep g (pred lo) p s) ->
                    p c = true ->
                    String c s = w +:+ r /\ Str.all p w = true /\
                    lo <= String.length w).
    { intros ([w' r'] & [= -> ->] & Hin')%list_elem_of_fmap Hc.
      destruct (IH _ _ _ Hin') as (-> & Hall & Hlo). cbn.
      rewrite Hc, Hall. repeat split; try done. lia. }
    destruct (p c) eqn:Hc; [|by apply Hstop].
    destruct g; apply elem_of_app in Hin as [?|?]; auto.
Qed.

Lemma rep_greedy_head lo p (w r : string) :
  Str.all p w = true -> lo <= String.length w -> Str.head_in p r = false ->
  exists tl, rep true lo p (w +:+ r) = (w, r) :: tl.
Proof.
  revert lo. induction w as [|c w IH]; intros lo Hall Hlo Hr.
  - rewrite str_app_nil_l. cbn in Hlo. assert (lo = 0) as -> by lia.
    destruct r as [|c r]; cbn; [by eexists|]. cbn in Hr. rewrite Hr. by eexists.
  - rewrite str_app_cons. cbn in Hall, Hlo |- *.
    apply andb_true_iff in Hall as [Hc Hall]. rewrite Hc.
    destruct (IH (pred lo) Hall ltac:(lia) Hr) as [tl ->].
    cbn. by eexists.
Qed.

Lemma rep_no_match g lo p (s : string) :
  0 < lo -> Str.head_in p s = false -> rep g lo p s = [].
Proof.
  intros Hlo Hs. destruct lo; [lia|]. destruct s as [|c s]; [done|].
  cbn in *. by rewrite Hs.
Qed.

Lemma bind_all_nil {A B} (K : A -> list B) (l : list A) :
  (forall x, x ∈ l -> K x = []) -> l ≫= K = [].
Proof.
  induction l as [|x l IH]; intros H; [done|].
  rewrite bind_cons. rewrite (H x) by constructor. rewrite IH; [done|].
  intros y Hy. apply H. by constructor.
Qed.

(** A lazy repetition in front of something that needs a closing bracket
    stops at the first closing bracket. *)
Lemma rep_lazy_bind {B} (K : string * string -> list B) (src rest : string) :
  Str.all Synonym.dot src = true ->
  Str.all Synonym.not_rbracket src = true ->
  (forall w c r, c <> "]"%char -> K (w, String c r) = []) ->
  exists tl,
    rep false 0 Synonym.dot (src +:+ String "]" rest) ≫= K
    = K (src, String "]" rest) ++ tl.
Proof.
  revert K. induction src as [|c src IH]; intros K Hdot Hbr HK.
  - rewrite str_app_nil_l. cbn [rep]. change (Synonym.dot "]") with true.
    cbn. by eexists.
  - rewrite str_app_cons. cbn in Hdot, Hbr.
    apply andb_true_iff in Hdot as [Hc Hdot].
    apply andb_true_iff in Hbr as [Hb Hbr].
    cbn [rep]. rewrite Hc. cbn [app]. rewrite bind_cons.
    rewrite HK; cycle 1.
    { unfold Synonym.not_rbracket in Hb.
      by apply negb_true_iff, bool_decide_eq_false in Hb. }
    rewrite list_fmap_bind. cbn [app].
    destruct (IH (K ∘ (fun wr : string * string => (String c wr.1, wr.2)))
                Hdot Hbr) as [tl Htl].
    { intros w c' r Hc'. cbn. by apply HK. }
    change (Init.Nat.pred 0) with 0. rewrite Htl. by eexists.
Qed.

(** Every match in the list consumes a string the pattern denotes. *)
Lemma run_sound (r : regex) (s : string) (caps : groups) w caps' s' :
  (w, caps', s') ∈ run r s caps -> s = w +:+ s' /\ lang r w.
Proof.
  revert s caps w caps' s'.
  induction r as [c|g lo p|r1 IH1 r2 IH2|r IH|i r IH]; intros s caps w caps' s' Hin.
  - destruct s as [|c' s]; cbn in Hin; [by apply elem_of_nil in Hin|].
    destruct (decide (c' = c)) as [->|]; [|by apply elem_of_nil in Hin].
    apply list_elem_of_singleton in Hin as [= -> -> ->].
    split; [done|constructor].
  - cbn in Hin. apply list_elem_of_fmap in Hin as ([w0 r0] & [= -> -> ->] & Hin).
    apply rep_sound in Hin as (-> & Hall & Hlo). split; [done|by constructor].
  - cbn in Hin. apply list_elem_of_bind in Hin as ([[w1 c1] s1] & Hin2 & Hin1).
    apply list_elem_of_fmap in Hin2 as ([[w2 c2] s2] & [= -> -> ->] & Hin2).
    cbn in *. apply IH1 in Hin1 as [-> L1]. apply IH2 in Hin2 as [-> L2].
    split; [by rewrite str_app_assoc|by constructor].
  - cbn in Hin. apply elem_of_app in Hin as [Hin|Hin].
    + apply IH in Hin as [-> L]. split; [done|by constructor].
    + apply list_elem_of_singleton in Hin as [= -> -> ->].
      split; [done|apply lang_opt_none].
  - cbn in Hin. apply list_elem_of_fmap in Hin as ([[w0 c0] s0] & [= -> -> ->] & Hin).
    cbn. apply IH in Hin as [-> L]. split; [done|by constructor].
Qed.

(** The first match of a pattern built from parts whose first matches are
    known. *)
Lemma run_lit_first (c : ascii) (s : string) (caps : groups) :
  exists tl, run (Lit c) (String c s) caps = (String c "", caps, s) :: tl.
Proof. cbn. rewrite decide_True by done. by eexists. Qed.

Lemma run_rep_first lo p (w r : string) (caps : groups) :
  Str.all p w = true -> lo <= String.length w -> Str.head_in p r = false ->
  exists tl, run (Rep true lo p) (w +:+ r) caps = (w, caps, r) :: tl.
Proof.
  intros Hall Hlo Hr. destruct (rep_greedy_head lo p w r Hall Hlo Hr) as [tl Htl].
  cbn. rewrite Htl. cbn. by eexists.
Qed.

Lemma run_cat_first r1 r2 (s : string) (caps : groups) w1 c1 s1 w2 c2 s2 :
  (exists tl, run r1 s caps = (w1, c1, s1) :: tl) ->
  (exists tl, run r2 s1 c1 = (w2, c2, s2) :: tl) ->
  exists tl, run (Cat r1 r2) s caps = (w1 +:+ w2, c2, s2) :: tl.
Proof.
  intros [tl1 H1] [tl2 H2]. cbn [run]. rewrite H1, bind_cons. cbn.
  rewrite H2. cbn. by eexists.
Qed.

Lemma run_group_first i r (s : string) (caps : groups) w c s' :
  (exists tl, run r s caps = (w, c, s') :: tl) ->
  exists tl, run (Group i r) s caps = (w, <[i := w]> c, s') :: tl.
Proof. intros [tl H]. cbn [run]. rewrite H. cbn. by eexists. Qed.

Lemma run_opt_first r (s : string) (caps : groups) m :
  (exists tl, run r s caps = m :: tl) ->
  exists tl, run (Opt r) s caps = m :: tl.
Proof. intros [tl H]. cbn [run]. rewrite H. cbn. by eexists. Qed.

Lemma run_opt_skip r (s : string) (caps : groups) :
  run r s caps = [] -> exists tl, run (Opt r) s caps = ("", caps, s) :: tl.
Proof. intros H. cbn [run]. rewrite H. by eexists. Qed.

End Matcher.

(** ** The synonym decomposer *)

Section SynonymDetails.
Import Re Synonym.

Lemma nonempty_length (s : string) : nonempty s = true -> 1 <= String.length s.
Proof. destruct s; cbn; [done|lia]. Qed.

Lemma length_nonempty (s : string) : 1 <= String.length s -> nonempty s = true.
Proof. destruct s; cbn; [lia|done]. Qed.

Lemma nonempty_neq (s : string) : nonempty s = true -> s <> "".
Proof. by destruct s. Qed.

Lemma run_bracket_first (src rest : string) (caps : groups) :
  Str.all dot src = true -> Str.all not_rbracket src = true ->
  exists tl,
    run (Cat (Group 4 (Rep false 0 dot)) (Lit "]")) (src +:+ String "]" rest) caps
    = (src +:+ "]", <[4 := src]> caps, rest) :: tl.
Proof.
  intros Hdot Hbr. cbn [run]. rewrite !list_fmap_bind.
  match goal with |- context [_ ≫= ?K] =>
    destruct (rep_lazy_bind K src rest Hdot Hbr) as [tl Htl] end.
  { intros w c r Hc. cbn. by rewrite decide_False. }
  rewrite Htl. cbn. by eexists.
Qed.

Lemma space_prefix_head (g3 w r t : string) :
  g3 +:+ String "[" t = w +:+ r ->
  Str.all Str.is_space g3 = true -> Str.all Str.is_space w = true ->
  Str.head_in Str.is_word r = false.
Proof.
  revert w. induction g3 as [|a g3 IH]; intros w Heq Hg Hw.
  - rewrite str_app_nil_l in Heq. destruct w as [|c w].
    + rewrite str_app_nil_l in Heq. by subst r.
    + rewrite str_app_cons in Heq. injection Heq as <- _. done.
  - rewrite str_app_cons in Heq. cbn in Hg.
    apply andb_true_iff in Hg as [Ha Hg]. destruct w as [|c w].
    + rewrite str_app_nil_l in Heq. subst r. cbn. by apply space_not_word.
    + rewrite str_app_cons in Heq. injection Heq as <- Heq. cbn in Hw.
      apply andb_true_iff in Hw as [_ Hw]. by apply (IH w).
Qed.

Lemma subtype_part_fails (g3 t : string) (caps : groups) :
  Str.all Str.is_space g3 = true ->
  run (Cat (Rep true 1 Str.is_space) (Group 3 (Rep true 1 Str.is_word)))
      (g3 +:+ String "[" t) caps = [].
Proof.
  intros Hg. cbn [run]. rewrite list_fmap_bind. apply bind_all_nil.
  intros [w r] Hin. apply rep_sound in Hin as (Heq & Hw & _). cbn.
  rewrite rep_no_match; [done|lia|]. by apply (space_prefix_head g3 w r t).
Qed.

(** A string of the shape is matched up to its first closing bracket, with
    the groups of its parts. *)
Lemma shape_first_match (x : parts) (rest : string) :
  well_shaped x = true ->
  exists w tl, run synonym_re (assemble x rest) ∅ = (w, groups_of x, rest) :: tl.
Proof.
  destruct x as [q g1 ty sub g3 src]. unfold well_shaped, assemble, groups_of.
  cbn [quoted gap1 type_token subtype gap3 bracketed].
  rewrite !andb_true_iff.
  intros [[[[[[[[[Hq1 Hq2] Hg1] Hg2] Ht1] Ht2] Hsub] Hg3] Hs1] Hs2].
  destruct sub as [[g2 sb]|].
  - apply andb_true_iff in Hsub as [[[Hg21 Hg22]%andb_true_iff Hb1]%andb_true_iff Hb2].
    rewrite (str_app_assoc g2 sb).
    eexists. unfold synonym_re.
    eapply run_cat_first; [apply run_lit_first|].
    eapply run_cat_first.
    { apply run_group_first, run_rep_first; [done|by apply nonempty_length|done]. }
    eapply run_cat_first; [apply run_lit_first|].
    eapply run_cat_first.
    { apply run_rep_first; [done|by apply nonempty_length|].
      apply (head_in_app_nonempty Str.is_word);
        [apply word_not_space|by apply nonempty_neq|done]. }
    eapply run_cat_first.
    { apply run_group_first, run_rep_first; [done|by apply nonempty_length|].
      apply (head_in_app_nonempty Str.is_space);
        [apply space_not_word|by apply nonempty_neq|done]. }
    eapply run_cat_first.
    { apply run_opt_first. eapply run_cat_first.
      - apply run_rep_first; [done|by apply nonempty_length|].
        apply (head_in_app_nonempty Str.is_word);
          [apply word_not_space|by apply nonempty_neq|done].
      - apply run_group_first, run_rep_first; [done|by apply nonempty_length|].
        apply (head_in_app Str.is_space); [apply space_not_word|done|done]. }
    eapply run_cat_first.
    { apply run_rep_first; [done|lia|done]. }
    eapply run_cat_first; [apply run_lit_first|].
    by apply run_bracket_first.
  - rewrite str_app_nil_l.
    eexists. unfold synonym_re.
    eapply run_cat_first; [apply run_lit_first|].
    eapply run_cat_first.
    { apply run_group_first, run_rep_first; [done|by apply nonempty_length|done]. }
    eapply run_cat_first; [apply run_lit_first|].
    eapply run_cat_first.
    { apply run_rep_first; [done|by apply nonempty_length|].
      apply (head_in_app_nonempty Str.is_word);
        [apply word_not_space|by apply nonempty_neq|done]. }
    eapply run_cat_first.
    { apply run_group_first, run_rep_first; [done|by apply nonempty_length|].
      apply (head_in_app Str.is_space); [apply space_not_word|done|done]. }
    eapply run_cat_first.
    { apply run_opt_skip. by apply subtype_part_fails. }
    eapply run_cat_first.
    { apply run_rep_first; [done|lia|done]. }
    eapply run_cat_first; [apply run_lit_first|].
    by apply run_bracket_first.
Qed.

Lemma shape_re_match (x : parts) (rest : string) :
  well_shaped x = true ->
  re_match synonym_re (assemble x rest) = Some (groups_of x).
Proof.
  intros H. destruct (shape_first_match x rest H) as (w & tl & Hrun).
  unfold re_match. by rewrite Hrun.
Qed.

Lemma lang_lit_inv c (w : string) : lang (Lit c) w -> w = String c "".
Proof. by inversion 1. Qed.

Lemma lang_rep_inv g lo p (w : string) :
  lang (Rep g lo p) w -> Str.all p w = true /\ lo <= String.length w.
Proof. by inversion 1. Qed.

Lemma lang_cat_inv r1 r2 (w : string) :
  lang (Cat r1 r2) w -> exists w1 w2, w = w1 +:+ w2 /\ lang r1 w1 /\ lang r2 w2.
Proof. inversion 1; subst. eauto. Qed.

Lemma lang_opt_inv r (w : string) : lang (Opt r) w -> lang r w \/ w = "".
Proof. inversion 1; subst; auto. Qed.

Lemma lang_group_inv i r (w : string) : lang (Group i r) w -> lang r w.
Proof. by inversion 1. Qed.

Lemma split_at_bracket (src' tail : string) :
  Str.all dot src' = true ->
  exists src more,
    src' +:+ String "]" tail = src +:+ String "]" more /\
    Str.all dot src = true /\ Str.all not_rbracket src = true.
Proof.
  induction src' as [|c s IH]; intros Hd.
  - by exists "", tail.
  - cbn in Hd. apply andb_true_iff in Hd as [Hc Hd].
    destruct (decide (c = "]"%char)) as [->|Hne].
    + by exists "", (s +:+ String "]" tail).
    + destruct (IH Hd) as (src & more & Heq & H1 & H2).
      exists (String c src), more. rewrite !str_app_cons, Heq. cbn.
      rewrite Hc, H1, H2. unfold not_rbracket.
      by rewrite bool_decide_false.
Qed.

(** Whatever the pattern matches at the start of a string, the string has
    the shape. *)
Lemma lang_synonym_shape (w s' : string) :
  lang synonym_re w ->
  exists x rest, well_shaped x = true /\ w +:+ s' = assemble x rest.
Proof.
  intros L. unfold synonym_re in L.
  apply lang_cat_inv in L as (? & ? & -> & ->%lang_lit_inv & L).
  apply lang_cat_inv in L as (q & ? & -> & [Hq Hql]%lang_group_inv%lang_rep_inv & L).
  apply lang_cat_inv in L as (? & ? & -> & ->%lang_lit_inv & L).
  apply lang_cat_inv in L as (g1 & ? & -> & [Hg Hgl]%lang_rep_inv & L).
  apply lang_cat_inv in L as (ty & ? & -> & [Ht Htl]%lang_group_inv%lang_rep_inv & L).
  apply lang_cat_inv in L as (o & ? & -> & Lo%lang_opt_inv & L).
  apply lang_cat_inv in L as (g3 & ? & -> & [Hg3 _]%lang_rep_inv & L).
  apply lang_cat_inv in L as (? & ? & -> & ->%lang_lit_inv & L).
  apply lang_cat_inv in L as (src' & ? & -> & [Hs _]%lang_group_inv%lang_rep_inv
                              & ->%lang_lit_inv).
  destruct (split_at_bracket src' s' Hs) as (src & more & Heq & Hs1 & Hs2).
  destruct Lo as [Lo| ->].
  - apply lang_cat_inv in Lo as (g2 & sb & -> & [Hg2 Hg2l]%lang_rep_inv
                                 & [Hb Hbl]%lang_group_inv%lang_rep_inv).
    exists (Parts q g1 ty (Some (g2, sb)) g3 src), more. split.
    + unfold well_shaped. cbn.
      rewrite Hq, Hg, Ht, Hg2, Hb, Hg3, Hs1, Hs2, !length_nonempty; done.
    + unfold assemble. cbn [quoted gap1 type_token subtype gap3 bracketed].
      rewrite !str_app_assoc, !str_app_cons, !str_app_nil_l.
      by rewrite Heq.
  - exists (Parts q g1 ty None g3 src), more. split.
    + unfold well_shaped. cbn.
      rewrite Hq, Hg, Ht, Hg3, Hs1, Hs2, !length_nonempty; done.
    + unfold assemble. cbn [quoted gap1 type_token subtype gap3 bracketed].
      rewrite !str_app_assoc, !str_app_cons, !str_app_nil_l.
      by rewrite Heq.
Qed.

Lemma re_match_shape (s : string) (m : groups) :
  re_match synonym_re s = Some m ->
  exists x rest, well_shaped x = true /\ s = assemble x rest.
Proof.
  unfold re_match. destruct (run synonym_re s ∅) as [|[[w c] s'] tl] eqn:E; [done|].
  intros _. assert (Hin : (w, c, s') ∈ run synonym_re s ∅).
  { rewrite E. constructor. }
  apply run_sound in Hin as [-> L]. by apply lang_synonym_shape.
Qed.

(** [strip] leaves alone a text that neither begins nor ends with white
    space. *)
Lemma lstrip_head (s : string) :
  Str.head_in Str.is_space s = false -> Str.lstrip s = s.
Proof. destruct s as [|c s]; [done|]. cbn. by intros ->. Qed.

Lemma rstrip_word (s : string) : Str.all Str.is_word s = true -> Str.rstrip s = s.
Proof.
  induction s as [|c s IH]; [done|]. cbn. intros [Hc Hs]%andb_true_iff.
  rewrite (IH Hs). destruct s; [|done]. by rewrite (word_not_space c Hc).
Qed.

Lemma rstrip_app_word (a s : string) :
  s <> "" -> Str.all Str.is_word s = true -> Str.rstrip (a +:+ s) = a +:+ s.
Proof.
  intros Hne Hs. induction a as [|c a IH].
  - rewrite str_app_nil_l. by apply rstrip_word.
  - rewrite str_app_cons. cbn. rewrite IH.
    destruct (a +:+ s) eqn:E; [|done]. destruct a; [|done].
    rewrite str_app_nil_l in E. done.
Qed.

Lemma strip_word (s : string) : Str.all Str.is_word s = true -> Str.strip s = s.
Proof.
  intros Hs. unfold Str.strip. rewrite rstrip_word by done.
  apply lstrip_head. destruct s as [|c s]; [done|]. cbn in *.
  apply andb_true_iff in Hs as [Hc _]. by apply word_not_space.
Qed.

Lemma strip_two_words (a b : string) :
  a <> "" -> Str.all Str.is_word a = true ->
  b <> "" -> Str.all Str.is_word b = true ->
  Str.strip (a +:+ " " +:+ b) = a +:+ " " +:+ b.
Proof.
  intros Ha Hwa Hb Hwb. unfold Str.strip.
  rewrite <- (str_app_assoc a " " b), rstrip_app_word by done.
  rewrite str_app_assoc. apply lstrip_head.
  by apply (head_in_app_nonempty Str.is_word); [apply word_not_space| |].
Qed.

(** What the decomposer returns on a string of the shape, whatever follows
    the first closing bracket. *)
Lemma extract_shape (x : parts) (rest : string) :
  well_shaped x = true ->
  extract_synonym_details (assemble x rest)
  = Ok (Str.strip (quoted x), full_type x, Str.strip (bracketed x)).
Proof.
  intros Hx. unfold extract_synonym_details.
  rewrite (shape_re_match x rest Hx).
  destruct x as [q g1 ty sub g3 src]. unfold well_shaped in Hx.
  unfold groups_of, full_type.
  cbn [quoted gap1 type_token subtype gap3 bracketed] in *.
  rewrite !andb_true_iff in Hx.
  destruct Hx as [[[[[[[[[Hq1 Hq2] Hg1] Hg2] Ht1] Ht2] Hsub] Hg3] Hs1] Hs2].
  destruct sub as [[g2 sb]|].
  - apply andb_true_iff in Hsub as [[_ Hb1]%andb_true_iff Hb2].
    rewrite lookup_insert_eq.
    rewrite !(lookup_insert_ne _ 4) by done.
    rewrite lookup_insert_eq.
    rewrite !(lookup_insert_ne _ 3) by done.
    rewrite lookup_insert_eq.
    rewrite !(lookup_insert_ne _ 2) by done.
    rewrite lookup_insert_eq.
    unfold strip_group, truthy, fmt, mbind, exn_bind, default.
    unfold nonempty in Hb1. rewrite Hb1.
    rewrite strip_two_words; [done|by apply nonempty_neq|done| |done].
    by apply (nonempty_neq sb).
  - rewrite lookup_insert_eq.
    rewrite !(lookup_insert_ne _ 4) by done.
    rewrite !(lookup_insert_ne _ 2 3) by done.
    rewrite !(lookup_insert_ne _ 1 3) by done.
    rewrite lookup_empty, lookup_insert_eq.
    rewrite !(lookup_insert_ne _ 2 1) by done.
    rewrite lookup_insert_eq.
    unfold strip_group, truthy, mbind, exn_bind. by rewrite (strip_word ty).
Qed.

(** C3, as stated, fails: the decomposer strips what it returns, so for a
    quoted text with a space at its edge the text returned is not the quoted
    text. *)
Lemma extract_returns_stripped_text :
  ~ (forall x, well_shaped x = true ->
       extract_synonym_details (assemble x "")
       = Ok (quoted x, full_type x, bracketed x)).
Proof.
  intros H. specialize (H (Parts " a" " " "EXACT" None " " "") eq_refl).
  vm_compute in H. discriminate.
Qed.

(** C3, amended. [extract_synonym_details] never raises. On a string of the
    shape it returns the quoted text, the type token with the subtype after a
    single space when there is one, and the bracket contents (possibly
    empty), the text and the contents stripped of surrounding white space; on
    a string no prefix of which has the shape it returns the string itself
    with empty type and source. The example of the specification comes out
    as stated. *)
Theorem extract_synonym_details_shape :
  (forall s, exists r, extract_synonym_details s = Ok r) /\
  (forall x, well_shaped x = true ->
     extract_synonym_details (assemble x "")
     = Ok (Str.strip (quoted x), full_type x, Str.strip (bracketed x))) /\
  (forall s, (forall x rest, well_shaped x = true -> s <> assemble x rest) ->
     extract_synonym_details s = Ok (s, "", "")) /\
  extract_synonym_details
    (String dquote ("Abnormality of body height"
                    +:+ String dquote " EXACT layperson []"))
  = Ok ("Abnormality of body height", "EXACT layperson", "").
Proof.
  split; [|split; [|split]].
  - intros s. destruct (re_match synonym_re s) as [m|] eqn:E.
    + destruct (re_match_shape s m E) as (x & rest & Hx & ->).
      rewrite (extract_shape x rest Hx). by eexists.
    + unfold extract_synonym_details. rewrite E. by eexists.
  - intros x Hx. by apply extract_shape.
  - intros s Hs. destruct (re_match synonym_re s) as [m|] eqn:E.
    + destruct (re_match_shape s m E) as (x & rest & Hx & ->).
      by destruct (Hs x rest Hx).
    + unfold extract_synonym_details. by rewrite E.
  - apply (extract_shape
             (Parts "Abnormality of body height" " " "EXACT"
                    (Some (" ", "layperson")) " " "") "").
    reflexivity.
Qed.

Lemma extract_synonym_details_shape_witness :
  extract_synonym_details
    (assemble (Parts "Short stature" " " "EXACT" None " " "HPO:probinson") "")
  = Ok ("Short stature", "EXACT", "HPO:probinson") /\
  extract_synonym_details "free text with no quotes"
  = Ok ("free text with no quotes", "", "").
Proof.
  destruct extract_synonym_details_shape as (_ & Hshape & Hraw & _). split.
  - apply (Hshape (Parts "Short stature" " " "EXACT" None " " "HPO:probinson")).
    reflexivity.
  - apply Hraw. intros x rest _. unfold assemble. discriminate.
Defined.

(** C10. On a string that begins with a text of the shape, the decomposer
    matches that text and no more: whatever follows the first closing bracket
    is accepted, and the three components returned are those of the shaped
    text alone, the same as when nothing follows. *)
Theorem extract_ignores_trailing_text (x : parts) (rest : string) :
  well_shaped x = true ->
  extract_synonym_details (assemble x rest)
  = Ok (Str.strip (quoted x), full_type x, Str.strip (bracketed x)) /\
  extract_synonym_details (assemble x rest)
  = extract_synonym_details (assemble x "").
Proof.
  intros Hx. by rewrite !(extract_shape x _ Hx).
Qed.

Lemma extract_ignores_trailing_text_witness :
  extract_synonym_details
    (assemble (Parts "Short stature" " " "EXACT" (Some (" ", "layperson")) " " "a")
              "b] and more")
  = Ok ("Short stature", "EXACT layperson", "a").
Proof.
  apply (extract_ignores_trailing_text
           (Parts "Short stature" " " "EXACT" (Some (" ", "layperson")) " " "a")
           "b] and more").
  reflexivity.
Defined.

End SynonymDetails.

(** ** The annotation-file reader *)

Section Annotations.
Import Hpoa.



Lemma data_loop_rows (data : list string) (written : list row) (total valid : nat) :
  data_loop (written, total, valid) data
  = (written ++ omap parse_hpoa_line data, total + length data,
     valid + length (omap parse_hpoa_line data)).
Proof.
  revert written total valid.
  induction data as [|line data IH]; intros written total valid.
  { cbn. by rewrite app_nil_r, !Nat.add_0_r. }
  cbn [data_loop omap list_omap length].
  destruct (parse_hpoa_line line) as [r|]; rewrite IH; cbn [length].
  - rewrite <- app_assoc. cbn. do 2 f_equal; lia.
  - do 2 f_equal; lia.
Qed.


Lemma startswith_empty (s : string) : Str.startswith s "" = true.
Proof. by destruct s. Qed.





End Annotations.

(** ** The single-entity flattener *)

Section SingleEntity.
Import Xml OrphaXml1.

(** C6. The conversion writes one row per [Disorder] node found in the
    document, in document order; when it finds none it raises its typed
    error and leaves the output file as it was: no file with a header alone
    is written. *)
Theorem convert_one_row_per_disorder (root : element) (file : option csv) :
  (findall_descendants "Disorder" root = [] ->
   convert root file = (Raise (CustomException no_disorder), file)) /\
  (findall_descendants "Disorder" root <> [] ->
   exists rows,
     convert root file = (Ok 0, Some (Csv fieldnames rows)) /\
     length rows = length (findall_descendants "Disorder" root) /\
     Forall2 (fun d r => r = parse_disorder d)
             (findall_descendants "Disorder" root) rows).
Proof.
  unfold convert. destruct (findall_descendants "Disorder" root) as [|d ds].
  - split; [done|]. by intros [].
  - split; [done|]. intros _. eexists. split; [done|]. split.
    + by rewrite length_fmap.
    + apply Forall2_fmap_r, Forall_Forall2_diag, Forall_forall. done.
Qed.

Lemma convert_one_row_per_disorder_witness :
  convert (Element "JDBOR" ∅ None
             [Element "Availability" ∅ None []]) None
  = (Raise (CustomException no_disorder), None) /\
  exists rows,
    convert (Element "JDBOR" ∅ None
               [Element "DisorderList" ∅ None
                  [Element "Disorder" {["id" := "17601"]} None
                     [Element "OrphaCode" ∅ (Some "166024") []];
                   Element "Disorder" {["id" := "2"]} None []]]) None
    = (Ok 0, Some (Csv fieldnames rows)) /\
    length rows = 2.
Proof.
  split.
  - apply (convert_one_row_per_disorder
             (Element "JDBOR" ∅ None [Element "Availability" ∅ None []]) None).
    reflexivity.
  - destruct (convert_one_row_per_disorder
                (Element "JDBOR" ∅ None
                   [Element "DisorderList" ∅ None
                      [Element "Disorder" {["id" := "17601"]} None
                         [Element "OrphaCode" ∅ (Some "166024") []];
                       Element "Disorder" {["id" := "2"]} None []]]) None)
      as [_ H].
    destruct H as (rows & Hc & Hl & _); [discriminate|].
    exists rows. split; [exact Hc|exact Hl].
Defined.

End SingleEntity.

(** ** The streaming link parser *)

Section Links.
Import Xml OrphaXml4.







End Links.

(** ** Trees and the helpers of [xml_utlis.py] *)

Section Trees.
Import Xml.

Lemma element_ind_nested (P : element -> Prop) :
  (forall t a x cs, Forall P cs -> P (Element t a x cs)) ->
  forall e, P e.
Proof.
  intros H. fix IH 1. intros [t a x cs]. apply H.
  induction cs as [|c cs IHcs]; constructor; [apply IH|apply IHcs].
Qed.

Lemma well_tagged_inv (e : element) :
  well_tagged e = true ->
  (exists name, local (tag e) = Ok name) /\
  Forall (fun c => well_tagged c = true) (children e).
Proof.
  destruct e as [t a x cs]. cbn. intros [Ht Hcs]%andb_true_iff. split.
  - destruct (local t); [by eexists|done].
  - apply Forall_forall. intros c Hc. rewrite forallb_forall in Hcs.
    apply Hcs. by apply list_elem_of_In.
Qed.

Lemma first_child_ok (name : string) (cs : list element) :
  Forall (fun c => well_tagged c = true) cs ->
  exists r, first_child name cs = Ok r /\ forall e, r = Some e -> e ∈ cs.
Proof.
  induction 1 as [|c cs Hc _ IH]; [by exists None|].
  destruct (well_tagged_inv c Hc) as [[n Hn] _]. cbn. rewrite Hn. cbn.
  destruct (decide (n = name)).
  - exists (Some c). split; [done|]. intros d [= <-]. by left.
  - destruct IH as (r & -> & Hr). exists r. split; [done|].
    intros d Hd. right. by apply Hr.
Qed.

Lemma find_first_ok (p : element) (name : string) :
  well_tagged p = true ->
  exists r, find_first (Some p) name = Ok r /\
            forall e, r = Some e -> well_tagged e = true.
Proof.
  intros [_ Hcs]%well_tagged_inv.
  destruct (first_child_ok name _ Hcs) as (r & Hr & Hin).
  exists r. split; [done|]. intros e He.
  rewrite Forall_forall in Hcs. by apply Hcs, Hin.
Qed.

Lemma find_text_ok (p : element) (name dflt : string) :
  well_tagged p = true -> exists s, find_text (Some p) name dflt = Ok s.
Proof.
  intros Hp. destruct (find_first_ok p name Hp) as (r & Hr & _).
  unfold find_text. rewrite Hr. destruct r; by eexists.
Qed.

Lemma first_lang_text_ok (name lang dflt : string) (cs : list element) :
  Forall (fun c => well_tagged c = true) cs ->
  exists s, first_lang_text name lang dflt cs = Ok s.
Proof.
  induction 1 as [|c cs Hc _ IH]; [by eexists|].
  destruct (well_tagged_inv c Hc) as [[n Hn] _]. cbn. rewrite Hn. cbn.
  destruct (decide (n = name)); [|done].
  destruct (attrib c !! "lang") as [l|]; [|by eexists].
  destruct (decide (l = lang)); [by eexists|done].
Qed.

Lemma find_text_lang_ok (p : element) (name lang dflt : string) :
  well_tagged p = true ->
  exists s, find_text_lang (Some p) name lang dflt = Ok (Some s).
Proof.
  intros [_ Hcs]%well_tagged_inv.
  destruct (first_lang_text_ok name lang dflt _ Hcs) as [s Hs].
  exists s. unfold find_text_lang. by rewrite Hs.
Qed.

End Trees.

(** ** What the streaming pass leaves in memory *)

Section StreamingPass.
Import Xml OrphaXml4.

Lemma is_association_tag (e e' : element) :
  tag e = tag e' -> is_association e = is_association e'.
Proof. unfold is_association. by intros ->. Qed.

Lemma well_tagged_residue (e : element) :
  well_tagged e = true -> well_tagged (residue e) = true.
Proof.
  induction e as [t a x cs IH] using element_ind_nested.
  cbn [residue well_tagged]. intros [Ht Hcs]%andb_true_iff.
  destruct (is_association _); cbn [well_tagged]; rewrite Ht; [done|].
  cbn. apply forallb_forall. intros c' Hc'.
  apply in_map_iff in Hc' as (c & <- & Hc).
  rewrite Forall_forall in IH. rewrite forallb_forall in Hcs.
  apply IH; [by apply list_elem_of_In|by apply Hcs].
Qed.

Lemma or_else_ok (a b : exn string) :
  (exists s, a = Ok s) -> (exists s, b = Ok s) -> exists s, or_else a b = Ok s.
Proof.
  intros [s ->] [s' ->]. unfold or_else. cbn.
  destruct (decide (s = "")); by eexists.
Qed.

Lemma link_row_ok (upper : string -> string) (elem : element) :
  well_tagged elem = true -> exists r, link_row upper elem = Ok r.
Proof.
  intros Hw. unfold link_row.
  assert (exists o, orpha_of elem = Ok o) as [o ->].
  { unfold orpha_of. destruct (find_first_ok elem "Disorder" Hw) as (r & -> & Hr).
    destruct r as [d|]; [|by eexists]. specialize (Hr d eq_refl).
    destruct (or_else_ok (find_text (Some d) "OrphaNumber" "")
                (find_text (Some d) "OrphaCode" "")) as [s Hs];
      [by apply find_text_ok..|].
    cbn -[find_text]. rewrite Hs. by eexists. }
  assert (exists o, hp_id_of elem = Ok o) as [h ->].
  { unfold hp_id_of. destruct (find_first_ok elem "HPO" Hw) as (r & -> & Hr).
    destruct r as [d|]; [|by eexists]. specialize (Hr d eq_refl).
    destruct (or_else_ok (find_text (Some d) "HPOId" "")
                (or_else (find_text (Some d) "HPO_ID" "")
                   (or_else (find_text (Some d) "Id" "")
                      (find_text (Some d) "ID" "")))) as [s Hs].
    { by apply find_text_ok. }
    { repeat apply or_else_ok; by apply find_text_ok. }
    cbn -[find_text]. rewrite Hs. by eexists. }
  assert (exists o, freq_of elem = Ok o) as [f ->].
  { unfold freq_of.
    destruct (find_first_ok elem "Frequency" Hw) as (r1 & -> & Hr1).
    destruct (find_first_ok elem "HPOFrequency" Hw) as (r2 & Hr2e & Hr2).
    cbn -[find_text find_first].
    assert (exists b, (if truthy_element r1 then Ok r1
                       else find_first (Some elem) "HPOFrequency") = Ok b /\
                      forall e, b = Some e -> well_tagged e = true)
      as (b & -> & Hb).
    { destruct (truthy_element r1); eauto. }
    cbn -[find_text]. destruct b as [e|]; [|by eexists].
    destruct (or_else_ok (find_text (Some e) "Name" "") (Ok (text_stripped e)))
      as [s Hs]; [by apply find_text_ok, Hb|by eexists|].
    rewrite Hs. by eexists. }
  by eexists.
Qed.

Lemma walk_children_residue (upper : string -> string) (cs : list element) :
  Forall (fun c => well_tagged c = true ->
                   exists rows, walk upper c = (rows, Ok (residue c))) cs ->
  Forall (fun c => well_tagged c = true) cs ->
  exists rows, walk_children (walk upper) cs = (rows, Ok (map residue cs)).
Proof.
  induction 1 as [|c cs Hc _ IH]; intros Hw; [by eexists|].
  inversion Hw as [|? ? Hwc Hwcs]; subst.
  destruct (Hc Hwc) as [rows1 H1]. destruct (IH Hwcs) as [rows2 H2].
  cbn [walk_children map]. rewrite H1.
  change ((fix go (cs0 : list element) := _) cs)
    with (walk_children (walk upper) cs).
  rewrite H2. by eexists.
Qed.

Lemma walk_residue (upper : string -> string) (e : element) :
  well_tagged e = true ->
  exists rows, walk upper e = (rows, Ok (residue e)).
Proof.
  induction e as [t a x cs IH] using element_ind_nested. intros Hw.
  destruct (well_tagged_inv _ Hw) as [[name Hname] Hcs]. cbn in Hname, Hcs.
  destruct (walk_children_residue upper cs IH Hcs) as [rows Hrows].
  cbn [walk]. rewrite Hrows, Hname. cbn [residue].
  unfold is_association. cbn [tag]. rewrite Hname.
  destruct (decide (name = assoc_tag)) as [->|Hne].
  - rewrite bool_decide_true by done.
    destruct (link_row_ok upper (Element t a x (map residue cs))) as [r Hr].
    { cbn. rewrite Hname. cbn. apply forallb_forall. intros c' Hc'.
      apply in_map_iff in Hc' as (c & <- & Hc).
      rewrite Forall_forall in Hcs.
      by apply well_tagged_residue, Hcs, list_elem_of_In. }
    rewrite Hr. by eexists.
  - rewrite bool_decide_false by done. by eexists.
Qed.

Lemma residue_associations_cleared (e : element) :
  Forall (fun d => is_association d = true -> is_cleared d = true)
         (iter (residue e)).
Proof.
  induction e as [t a x cs IH] using element_ind_nested. cbn [residue].
  destruct (is_association (Element t a x cs)) eqn:Ha.
  - cbn. by repeat constructor.
  - cbn [iter]. constructor.
    + rewrite (is_association_tag _ (Element t a x cs)) by done. by rewrite Ha.
    + apply Forall_concat, Forall_forall. intros l Hl.
      apply list_elem_of_In, in_map_iff in Hl as (c' & <- & Hc').
      apply in_map_iff in Hc' as (c & <- & Hc).
      rewrite Forall_forall in IH. by apply IH, list_elem_of_In.
Qed.

(** C9, as stated, fails: the pass clears association elements only, and
    clearing an element does not take it off its parent. After the pass over
    a document without associations the whole tree is still there, the text
    of its leaves included. *)
Lemma walk_keeps_other_elements :
  ~ (forall doc rows doc',
       walk Str.upper_ascii doc = (rows, Ok doc') ->
       Forall (fun d => is_cleared d = true) (iter doc')).
Proof.
  intros H.
  specialize (H (Element "JDBOR" ∅ None
                   [Element "Disorder" ∅ None
                      [Element "OrphaCode" ∅ (Some "58") []]])
                [] _ eq_refl).
  cbn in H. apply Forall_inv_tail, Forall_inv_tail, Forall_inv in H.
  vm_compute in H. discriminate.
Qed.

(** C9, amended. The pass over a document goes through and leaves the tree
    [residue doc]: every association element, whether it gave a row or was
    skipped, is left cleared (no attribute, no text, no child), and stays in
    its place under its parent; an element with another tag keeps its
    attributes, its text and all its children. *)
Theorem walk_clears_associations (upper : string -> string) (doc : element) :
  well_tagged doc = true ->
  exists rows,
    walk upper doc = (rows, Ok (residue doc)) /\
    Forall (fun d => is_association d = true -> is_cleared d = true)
           (iter (residue doc)) /\
    (is_association doc = false ->
     residue doc
     = Element (tag doc) (attrib doc) (text doc) (map residue (children doc))).
Proof.
  intros Hw. destruct (walk_residue upper doc Hw) as [rows Hrows].
  exists rows. split; [done|]. split; [apply residue_associations_cleared|].
  destruct doc as [t a x cs]. cbn [residue]. by intros ->.
Qed.

Lemma walk_clears_associations_witness :
  exists rows,
    walk Str.upper_ascii
      (Element "HPODisorderSetStatusList" ∅ None
         [Element "DisorderHPOTermAssociation" {["id" := "1"]} None
            [Element "Disorder" ∅ None
               [Element "OrphaCode" ∅ (Some "166024") []];
             Element "HPO" ∅ None [Element "HPOId" ∅ (Some "HP_0001250") []]];
          Element "DisorderHPOTermAssociation" {["id" := "2"]} None
            [Element "Disorder" ∅ None []]])
    = (rows,
       Ok (Element "HPODisorderSetStatusList" ∅ None
             [Element "DisorderHPOTermAssociation" ∅ None [];
              Element "DisorderHPOTermAssociation" ∅ None []])).
Proof.
  destruct (walk_clears_associations Str.upper_ascii
              (Element "HPODisorderSetStatusList" ∅ None
                 [Element "DisorderHPOTermAssociation" {["id" := "1"]} None
                    [Element "Disorder" ∅ None
                       [Element "OrphaCode" ∅ (Some "166024") []];
                     Element "HPO" ∅ None
                       [Element "HPOId" ∅ (Some "HP_0001250") []]];
                  Element "DisorderHPOTermAssociation" {["id" := "2"]} None
                    [Element "Disorder" ∅ None []]]))
    as (rows & Hrows & _); [reflexivity|].
  exists rows. exact Hrows.
Defined.

End StreamingPass.

(** ** Namespace prefixes *)

Section Namespaces.
Import Xml OrphaXml4.

Lemma same_local_names_inv (e e' : element) :
  same_local_names e e' ->
  local (tag e) = local (tag e') /\ attrib e = attrib e' /\
  text e = text e' /\ Forall2 same_local_names (children e) (children e').
Proof. by destruct 1. Qed.

Lemma first_child_same (name : string) (cs cs' : list element) :
  Forall2 same_local_names cs cs' ->
  exn_rel (option_Forall2 same_local_names)
          (first_child name cs) (first_child name cs').
Proof.
  induction 1 as [|c c' cs cs' Hc _ IH]; [constructor|].
  cbn [first_child]. destruct (same_local_names_inv c c' Hc) as (-> & _).
  destruct (local (tag c')) as [n|er]; [|done]. cbn.
  destruct (decide (n = name)); [by constructor|done].
Qed.

Lemma find_first_same (p p' : element) (name : string) :
  same_local_names p p' ->
  exn_rel (option_Forall2 same_local_names)
          (find_first (Some p) name) (find_first (Some p') name).
Proof. intros (_ & _ & _ & H)%same_local_names_inv. by apply first_child_same. Qed.

Lemma all_children_same (name : string) (cs cs' : list element) :
  Forall2 same_local_names cs cs' ->
  exn_rel (Forall2 same_local_names)
          (all_children name cs) (all_children name cs').
Proof.
  induction 1 as [|c c' cs cs' Hc _ IH]; [constructor|].
  cbn [all_children]. destruct (same_local_names_inv c c' Hc) as (-> & _).
  destruct (local (tag c')) as [n|er]; [|done]. cbn.
  destruct (all_children name cs) as [l|er], (all_children name cs') as [l'|er'];
    cbn in *; try done.
  destruct (decide (n = name)); [by constructor|done].
Qed.

Lemma has_text_same (e e' : element) :
  same_local_names e e' -> has_text e = has_text e'.
Proof. intros (_ & _ & H & _)%same_local_names_inv. unfold has_text. by rewrite H. Qed.

Lemma text_stripped_same (e e' : element) :
  same_local_names e e' -> text_stripped e = text_stripped e'.
Proof.
  intros (_ & _ & H & _)%same_local_names_inv. unfold text_stripped. by rewrite H.
Qed.

Lemma find_text_same (p p' : element) (name dflt : string) :
  same_local_names p p' ->
  find_text (Some p) name dflt = find_text (Some p') name dflt.
Proof.
  intros H. unfold find_text. pose proof (find_first_same p p' name H) as Hf.
  destruct (find_first (Some p) name) as [r|er],
           (find_first (Some p') name) as [r'|er']; cbn in *; try done.
  - destruct Hf as [e e' He|]; [|done].
    rewrite (has_text_same e e' He).
    destruct (same_local_names_inv e e' He) as (_ & _ & -> & _). done.
  - by subst.
Qed.

Lemma first_lang_text_same (name lang dflt : string) (cs cs' : list element) :
  Forall2 same_local_names cs cs' ->
  first_lang_text name lang dflt cs = first_lang_text name lang dflt cs'.
Proof.
  induction 1 as [|c c' cs cs' Hc _ IH]; [done|].
  cbn [first_lang_text]. rewrite (text_stripped_same c c' Hc).
  destruct (same_local_names_inv c c' Hc) as (-> & -> & _).
  by rewrite IH.
Qed.

Lemma find_text_lang_same (p p' : element) (name lang dflt : string) :
  same_local_names p p' ->
  find_text_lang (Some p) name lang dflt = find_text_lang (Some p') name lang dflt.
Proof.
  intros (_ & _ & _ & H)%same_local_names_inv. unfold find_text_lang.
  by rewrite (first_lang_text_same name lang dflt _ _ H).
Qed.

Lemma truthy_element_same (r r' : option element) :
  option_Forall2 same_local_names r r' -> truthy_element r = truthy_element r'.
Proof.
  destruct 1 as [e e' He|]; [|done]. cbn.
  destruct (same_local_names_inv e e' He) as (_ & _ & _ & H).
  by destruct H.
Qed.

Lemma link_row_same (upper : string -> string) (e e' : element) :
  same_local_names e e' -> link_row upper e = link_row upper e'.
Proof.
  intros H. unfold link_row.
  assert (orpha_of e = orpha_of e') as ->.
  { unfold orpha_of. pose proof (find_first_same e e' "Disorder" H) as Hf.
    destruct (find_first (Some e) "Disorder") as [r|er],
             (find_first (Some e') "Disorder") as [r'|er']; cbn in *; try done.
    - destruct Hf as [d d' Hd|]; [|done].
      by rewrite !(find_text_same d d' _ _ Hd).
    - by subst. }
  assert (hp_id_of e = hp_id_of e') as ->.
  { unfold hp_id_of. pose proof (find_first_same e e' "HPO" H) as Hf.
    destruct (find_first (Some e) "HPO") as [r|er],
             (find_first (Some e') "HPO") as [r'|er']; cbn in *; try done.
    - destruct Hf as [d d' Hd|]; [|done].
      by rewrite !(find_text_same d d' _ _ Hd).
    - by subst. }
  assert (freq_of e = freq_of e') as ->; [|done].
  unfold freq_of. pose proof (find_first_same e e' "Frequency" H) as Hf.
  pose proof (find_first_same e e' "HPOFrequency" H) as Hg.
  destruct (find_first (Some e) "Frequency") as [r|er],
           (find_first (Some e') "Frequency") as [r'|er'];
    cbn -[find_first find_text] in *; try done; [|by subst].
  rewrite (truthy_element_same r r' Hf).
  assert (exn_rel (option_Forall2 same_local_names)
            (if truthy_element r' then Ok r
             else find_first (Some e) "HPOFrequency")
            (if truthy_element r' then Ok r'
             else find_first (Some e') "HPOFrequency")) as Hb.
  { by destruct (truthy_element r'). }
  destruct (if truthy_element r' then Ok r else _) as [b|er],
           (if truthy_element r' then Ok r' else _) as [b'|er'];
    cbn -[find_text] in *; try done; [|by subst].
  destruct Hb as [d d' Hd|]; [|done].
  by rewrite (find_text_same d d' _ _ Hd), (text_stripped_same d d' Hd).
Qed.

Lemma walk_children_cons (walk : element -> list link * exn element)
    (c : element) (cs : list element) :
  walk_children walk (c :: cs)
  = match walk c with
    | (rows1, Ok c') =>
        match walk_children walk cs with
        | (rows2, Ok cs'') => (rows1 ++ rows2, Ok (c' :: cs''))
        | (rows2, Raise er) => (rows1 ++ rows2, Raise er)
        end
    | (rows1, Raise er) => (rows1, Raise er)
    end.
Proof. done. Qed.

Lemma walk_unfold (upper : string -> string) t a x (cs : list element) :
  walk upper (Element t a x cs)
  = match walk_children (walk upper) cs with
    | (rows, Ok cs') =>
        match local t with
        | Ok name =>
            if decide (name = assoc_tag) then
              match link_row upper (Element t a x cs') with
              | Ok r => (rows ++ option_list r, Ok (clear (Element t a x cs')))
              | Raise er => (rows, Raise er)
              end
            else (rows, Ok (Element t a x cs'))
        | Raise er => (rows, Raise er)
        end
    | (rows, Raise er) => (rows, Raise er)
    end.
Proof. done. Qed.

Lemma walk_children_same (upper : string -> string) (cs cs' : list element) :
  Forall (fun c => forall c', same_local_names c c' ->
            (walk upper c).1 = (walk upper c').1 /\
            exn_rel same_local_names (walk upper c).2 (walk upper c').2) cs ->
  Forall2 same_local_names cs cs' ->
  (walk_children (walk upper) cs).1 = (walk_children (walk upper) cs').1 /\
  exn_rel (Forall2 same_local_names)
          (walk_children (walk upper) cs).2 (walk_children (walk upper) cs').2.
Proof.
  intros HF H. revert HF.
  induction H as [|c c' cs cs' Hc _ IH]; intros HF; [by split; [|constructor]|].
  inversion HF as [|? ? Hwc HF']; subst.
  destruct (Hwc c' Hc) as [Hr1 He1]. destruct (IH HF') as [Hr2 He2].
  rewrite !walk_children_cons.
  destruct (walk upper c) as [r1 [c1|er1]], (walk upper c') as [r1' [c1'|er1']];
    cbn in Hr1, He1; subst; try done.
  destruct (walk_children (walk upper) cs) as [r2 [l|er2]],
           (walk_children (walk upper) cs') as [r2' [l'|er2']];
    cbn in Hr2, He2; subst; try done.
  split; [done|]. by constructor.
Qed.

Lemma walk_same (upper : string -> string) (e : element) :
  forall e', same_local_names e e' ->
    (walk upper e).1 = (walk upper e').1 /\
    exn_rel same_local_names (walk upper e).2 (walk upper e').2.
Proof.
  induction e as [t a x cs IH] using element_ind_nested. intros e' H.
  inversion H as [? t' ? ? ? cs' Ht Hcs]; subst.
  destruct (walk_children_same upper cs cs' IH Hcs) as [Hr He].
  rewrite !walk_unfold.
  destruct (walk_children (walk upper) cs) as [rows [l|er]],
           (walk_children (walk upper) cs') as [rows' [l'|er']];
    cbn in Hr, He; subst; try done.
  rewrite Ht. destruct (local t') as [n|er] eqn:Ht'; [|done].
  assert (Htt : local t = local t') by congruence.
  destruct (decide (n = assoc_tag)); [|split; [done|by constructor]].
  rewrite (link_row_same upper (Element t a x l) (Element t' a x l'))
    by by constructor.
  destruct (link_row upper (Element t' a x l')) as [r|er]; [|done].
  split; [done|]. cbn. unfold clear. cbn. by constructor.
Qed.

(** C8, as stated, fails: the single-entity parser finds its [Disorder] nodes
    with the lookups of ElementTree, which compare whole tags. The same
    document with its tags in a namespace gives no row but the fatal error. *)
Lemma single_entity_lookup_sees_namespace :
  ~ (forall root root' file,
       same_local_names root root' ->
       OrphaXml1.convert root file = OrphaXml1.convert root' file).
Proof.
  intros H.
  specialize (H (Element "JDBOR" ∅ None
                   [Element "Disorder" {["id" := "17601"]} None
                      [Element "OrphaCode" ∅ (Some "166024") []]])
                (qualify "http://www.orpha.net"
                   (Element "JDBOR" ∅ None
                      [Element "Disorder" {["id" := "17601"]} None
                         [Element "OrphaCode" ∅ (Some "166024") []]]))
                None).
  assert (Heq : OrphaXml1.convert
                  (Element "JDBOR" ∅ None
                     [Element "Disorder" {["id" := "17601"]} None
                        [Element "OrphaCode" ∅ (Some "166024") []]]) None
                = OrphaXml1.convert
                    (qualify "http://www.orpha.net"
                       (Element "JDBOR" ∅ None
                          [Element "Disorder" {["id" := "17601"]} None
                             [Element "OrphaCode" ∅ (Some "166024") []]])) None).
  { apply H. cbn. repeat constructor. }
  vm_compute in Heq. discriminate Heq.
Qed.

(** C8, amended. The lookups of the tree navigation helpers [find_first],
    [find_all], [find_text] and [find_text_lang] compare local names only:
    on two documents that differ in namespace prefixes alone they find the
    children at the same places, and return the same texts. The streaming
    link parser looks children up in no other way, so it writes the same rows
    for both documents and ends the same way. *)
Theorem helpers_ignore_namespaces (upper : string -> string) (d d' : element) :
  same_local_names d d' ->
  (forall name,
     exn_rel (option_Forall2 same_local_names)
             (find_first (Some d) name) (find_first (Some d') name)) /\
  (forall name,
     exn_rel (Forall2 same_local_names)
             (find_all (Some d) name) (find_all (Some d') name)) /\
  (forall name dflt, find_text (Some d) name dflt = find_text (Some d') name dflt) /\
  (forall name lang dflt,
     find_text_lang (Some d) name lang dflt
     = find_text_lang (Some d') name lang dflt) /\
  convert upper d = convert upper d'.
Proof.
  intros H. split; [intros; by apply find_first_same|].
  split.
  { intros name. destruct (same_local_names_inv d d' H) as (_ & _ & _ & Hcs).
    by apply all_children_same. }
  split; [intros; by apply find_text_same|].
  split; [intros; by apply find_text_lang_same|].
  unfold convert. destruct (walk_same upper d d' H) as [Hr He].
  destruct (walk upper d) as [rows [r|er]], (walk upper d') as [rows' [r'|er']];
    cbn in Hr, He; by subst.
Qed.

Lemma helpers_ignore_namespaces_witness :
  convert Str.upper_ascii
    (Element "JDBOR" ∅ None
       [Element "DisorderHPOTermAssociation" ∅ None
          [Element "Disorder" ∅ None [Element "OrphaCode" ∅ (Some "166024") []];
           Element "HPO" ∅ None [Element "HPOId" ∅ (Some "HP_0001250") []]]])
  = convert Str.upper_ascii
      (qualify "http://www.orpha.net"
         (Element "JDBOR" ∅ None
            [Element "DisorderHPOTermAssociation" ∅ None
               [Element "Disorder" ∅ None
                  [Element "OrphaCode" ∅ (Some "166024") []];
                Element "HPO" ∅ None
                  [Element "HPOId" ∅ (Some "HP_0001250") []]]])).
Proof.
  apply helpers_ignore_namespaces. cbn. repeat constructor.
Defined.

End Namespaces.

(** ** The gene-association flattener *)

Section GeneAssociations.
Import Xml OrphaXml6.

Lemma findall_well_tagged (path : list string) (e : element) :
  well_tagged e = true ->
  Forall (fun c => well_tagged c = true) (findall path e).
Proof.
  revert e. induction path as [|name path IH]; intros e He.
  { by repeat constructor. }
  cbn [findall]. apply Forall_forall. intros x Hx.
  apply list_elem_of_bind in Hx as (c & Hx & Hc).
  apply list_elem_of_filter in Hc as [_ Hc].
  destruct (well_tagged_inv e He) as [_ Hcs]. rewrite Forall_forall in Hcs.
  specialize (IH c (Hcs c Hc)). rewrite Forall_forall in IH. by apply IH.
Qed.

Lemma find_well_tagged (path : list string) (e x : element) :
  well_tagged e = true -> find path e = Some x -> well_tagged x = true.
Proof.
  intros He Hx. pose proof (findall_well_tagged path e He) as H.
  unfold find in Hx. destruct (findall path e) as [|y l]; [done|].
  injection Hx as ->. by inversion H.
Qed.

Lemma external_references_ok (l : list element) (refs : gmap string string) :
  Forall (fun c => well_tagged c = true) l ->
  exists refs', external_references refs l = Ok refs'.
Proof.
  intros H. revert refs. induction H as [|ref l Hr _ IH]; intros refs.
  { by eexists. }
  cbn [external_references].
  destruct (find_text_ok ref "Source" "" Hr) as [s ->].
  destruct (find_text_ok ref "Reference" "" Hr) as [r ->].
  cbn. destruct (_ && _); apply IH.
Qed.


Lemma add_refs_lookup (refs : gmap string string) (gene : dict) (k : string) :
  (forall source, "Ref_" +:+ source <> k) ->
  add_refs refs gene !! k = gene !! k.
Proof.
  intros Hk. unfold add_refs.
  apply (map_fold_weak_ind (fun r _ => r !! k = gene !! k)); [done|].
  intros source ref m r _ Hr. by rewrite lookup_insert_ne.
Qed.








(** C4. The parser breaks the claim on a disorder whose children are in a
    namespace. [parse_disorder] reads the scalar fields through the helpers,
    which compare local names, and looks the associations and their genes up
    with [findall] and [find], which compare whole tags. On the [Disorder]
    element [d] below, the helpers find the association list, its two
    associations and the [Gene] child of each, and the code of the disorder
    is read; yet [findall] returns no association, [parse_disorder] gives no
    row, and the conversion of the document ends well with the header
    alone. *)
Theorem namespaced_associations_give_no_row :
  let g1 := Element "{http://www.orpha.net}Gene" {["id" := "1"]} None
              [Element "{http://www.orpha.net}Symbol" ∅ (Some "KIF7") []] in
  let g2 := Element "{http://www.orpha.net}Gene" {["id" := "2"]} None [] in
  let a1 := Element "{http://www.orpha.net}DisorderGeneAssociation" ∅ None [g1] in
  let a2 := Element "{http://www.orpha.net}DisorderGeneAssociation" ∅ None [g2] in
  let d := Element "Disorder" {["id" := "17601"]} None
             [Element "{http://www.orpha.net}OrphaCode" ∅ (Some "166024") [];
              Element "{http://www.orpha.net}DisorderGeneAssociationList" ∅ None
                [a1; a2]] in
  well_tagged d = true /\
  (l ← find_first (Some d) "DisorderGeneAssociationList";
   find_all l "DisorderGeneAssociation") = Ok [a1; a2] /\
  find_first (Some a1) "Gene" = Ok (Some g1) /\
  find_first (Some a2) "Gene" = Ok (Some g2) /\
  (info ← disorder_info d; Ok (info !! "OrphaCode"))
  = Ok (Some (VStr "166024")) /\
  associations d = [] /\
  parse_disorder d = Ok [] /\
  OrphaXml6File.convert (Element "JDBOR" ∅ None [d]) None
  = (Ok 0, Some (OrphaXml6File.Csv OrphaXml6File.fieldnames [])).
Proof. cbv zeta. repeat split; vm_compute; reflexivity. Qed.

End GeneAssociations.

(** ** The ontology file, block by block *)

Section OntologyFile.
Import Obo Synonym OboFile.

Lemma parse_term_block_ok (lines : list string) :
  exists r, parse_term_block lines = Ok r /\
    forall term t vs, r = Some term -> term !! t = Some vs -> vs <> [].
Proof.
  destruct lines as [|first body]; [by exists None|].
  unfold parse_term_block. destruct (Str.startswith first "[Term]").
  - destruct (term_loop_agrees body _ _ agrees_init) as (st & Hst & Hag).
    rewrite Hst. cbn. eexists. split; [done|].
    intros term t vs [= <-] Ht. destruct (Hag t) as [_ Hl].
    rewrite Ht in Hl. symmetry in Hl.
    by apply held_some_nonempty in Hl as [? _].
  - exists None. split; [done|]. by intros ? ? ? [=].
Qed.

Lemma rstrip_empty_all_space (s : string) :
  Str.rstrip s = "" <-> Str.all Str.is_space s = true.
Proof.
  induction s as [|c s IH]; [done|]. cbn.
  destruct (Str.rstrip s) eqn:E.
  - destruct (Str.is_space c); cbn; [|by split].
    split; [intros _; by apply IH|done].
  - split; [done|]. intros [_ H]%andb_true_iff. by apply IH in H.
Qed.

Lemma lstrip_empty_all_space (s : string) :
  Str.lstrip s = "" <-> Str.all Str.is_space s = true.
Proof.
  induction s as [|c s IH]; [done|]. cbn.
  destruct (Str.is_space c); cbn; [done|]. by split.
Qed.

Lemma all_space_rstrip (s : string) :
  Str.all Str.is_space (Str.rstrip s) = true -> Str.all Str.is_space s = true.
Proof.
  induction s as [|c s IH]; [done|]. cbn.
  destruct (Str.rstrip s) eqn:E.
  - assert (Hs : Str.all Str.is_space s = true) by by apply rstrip_empty_all_space.
    rewrite Hs. destruct (Str.is_space c) eqn:Hc; cbn; [done|]. by rewrite Hc.
  - cbn. intros [Hc H]%andb_true_iff. rewrite Hc. cbn. by apply IH.
Qed.

Lemma strip_empty_all_space (s : string) :
  Str.strip s = "" <-> Str.all Str.is_space s = true.
Proof.
  unfold Str.strip. rewrite lstrip_empty_all_space. split.
  - apply all_space_rstrip.
  - intros H. apply rstrip_empty_all_space in H. by rewrite H.
Qed.

Lemma strip_rstrip_empty (raw : string) :
  Str.strip (Str.rstrip raw) = "" <-> Str.rstrip raw = "".
Proof.
  rewrite strip_empty_all_space. split.
  - intros H. by apply rstrip_empty_all_space, all_space_rstrip.
  - by intros ->.
Qed.

Lemma emit_ok (block : list string) :
  exists ts, emit block = Ok ts /\ Forall sound_term ts.
Proof.
  unfold emit. destruct (parse_term_block_ok block) as (r & -> & Hr). cbn.
  eexists. split; [done|]. destruct r as [term|]; [|constructor].
  destruct (decide (term = ∅)); [constructor|].
  repeat constructor; [done|]. intros t vs. by apply Hr.
Qed.

Lemma emit_terms_of (b : list string) :
  emit (Str.rstrip <$> b) = Ok (terms_of b).
Proof.
  unfold emit, terms_of.
  by destruct (parse_term_block_ok (Str.rstrip <$> b)) as ([term|] & -> & _).
Qed.

Lemma block_loop_ok (lines block : list string) :
  exists ts, block_loop block lines = (ts, Ok ()) /\ Forall sound_term ts.
Proof.
  revert block. induction lines as [|raw rest IH]; intros block.
  - cbn. destruct block as [|l block]; [by exists []|].
    destruct (emit_ok (l :: block)) as (ts & -> & Hts). by exists ts.
  - cbn [block_loop]. destruct (decide (Str.rstrip raw = "[Term]")).
    + destruct (IH [Str.rstrip raw]) as (more & -> & Hmore).
      destruct block as [|l block]; [by exists more|].
      destruct (emit_ok (l :: block)) as (ts & -> & Hts).
      exists (ts ++ more). split; [done|]. by apply Forall_app.
    + destruct (_ && _).
      * destruct (emit_ok block) as (ts & -> & Hts).
        destruct (IH []) as (more & -> & Hmore).
        exists (ts ++ more). split; [done|]. by apply Forall_app.
      * destruct (_ || _); apply IH.
Qed.

Lemma block_loop_body (b rest block : list string) :
  forallb is_body_line b = true ->
  block_loop block (b ++ rest) = block_loop (block ++ (Str.rstrip <$> b)) rest.
Proof.
  revert block. induction b as [|raw b IH]; intros block Hb.
  { cbn. by rewrite app_nil_r. }
  cbn in Hb. apply andb_true_iff in Hb as [Hraw Hb].
  unfold is_body_line in Hraw. apply andb_true_iff in Hraw as [H1 H2].
  apply negb_true_iff, bool_decide_eq_false in H1, H2.
  cbn [app block_loop fmap list_fmap]. rewrite decide_False by done.
  rewrite (bool_decide_false (Str.rstrip raw = "")) by done. cbn [andb].
  assert (Hs : Str.strip (Str.rstrip raw) <> "").
  { by rewrite strip_rstrip_empty. }
  rewrite (bool_decide_false (Str.strip _ = "")) by done.
  rewrite orb_true_r. rewrite IH by done.
  by rewrite <- app_assoc.
Qed.

Lemma block_loop_stanza (b rest : list string) :
  is_stanza b = true ->
  block_loop [] (b ++ rest) = block_loop (Str.rstrip <$> b) rest.
Proof.
  destruct b as [|first b]; [done|]. cbn [is_stanza].
  intros [Hf Hb]%andb_true_iff. unfold is_separator in Hf.
  apply negb_true_iff, bool_decide_eq_false in Hf.
  cbn [app block_loop fmap list_fmap].
  assert (Hs : Str.strip (Str.rstrip first) <> "").
  { by rewrite strip_rstrip_empty. }
  destruct (decide (Str.rstrip first = "[Term]")).
  - rewrite (block_loop_body b rest _ Hb). cbn [app].
    by destruct (block_loop _ rest).
  - rewrite (bool_decide_false (Str.rstrip first = "")) by done. cbn [andb].
    rewrite (bool_decide_false (Str.strip _ = "")) by done.
    rewrite orb_true_r. by rewrite (block_loop_body b rest _ Hb).
Qed.

Lemma terms_of_nil : terms_of [] = [].
Proof. done. Qed.

Lemma block_loop_stanza_sep (b rest : list string) (sep : string) :
  is_stanza b = true -> is_separator sep = true ->
  block_loop [] (b ++ sep :: rest)
  = (terms_of b ++ (block_loop [] rest).1, (block_loop [] rest).2).
Proof.
  intros Hb Hsep. rewrite (block_loop_stanza b _ Hb).
  unfold is_separator in Hsep. apply bool_decide_eq_true in Hsep.
  cbn [block_loop]. rewrite Hsep. rewrite decide_False by done.
  rewrite bool_decide_true by done. rewrite bool_decide_false; cycle 1.
  { destruct b; done. }
  cbn [andb negb]. rewrite emit_terms_of. by destruct (block_loop [] rest).
Qed.

Lemma block_loop_stanza_end (b : list string) :
  b = [] \/ is_stanza b = true ->
  block_loop [] b = (terms_of b, Ok ()).
Proof.
  intros [->|Hb]; [done|]. rewrite <- (app_nil_r b) at 1.
  rewrite (block_loop_stanza b _ Hb). cbn [block_loop].
  rewrite emit_terms_of. destruct b; [done|]. done.
Qed.

(** X1. Whatever the lines of the file, the generator runs to its end
    without an exception, and every Term it yields is a dictionary that is
    not empty and holds no empty list of values. *)
Theorem parse_obo_file_yields_sound_terms (lines : list string) :
  exists terms,
    parse_obo_file lines = (terms, Ok ()) /\
    Forall (fun term : Term =>
              term <> ∅ /\ forall t vs, term !! t = Some vs -> vs <> []) terms.
Proof. apply block_loop_ok. Qed.

(** X2. A file made of stanzas, each followed by a blank line, and possibly
    a last stanza that nothing follows, yields the Terms of its stanzas in
    order: a stanza gives the Term of its lines stripped on the right when
    it opens with the Term marker and has a tag with a value, and nothing
    otherwise. *)
Theorem parse_obo_file_stanzas (bs : list (list string)) (final : list string)
    (sep : string) :
  Forall (fun b => is_stanza b = true) bs ->
  is_separator sep = true ->
  final = [] \/ is_stanza final = true ->
  parse_obo_file (concat ((fun b => b ++ [sep]) <$> bs) ++ final)
  = (concat (terms_of <$> bs) ++ terms_of final, Ok ()).
Proof.
  intros Hbs Hsep Hfinal. unfold parse_obo_file.
  induction Hbs as [|b bs Hb _ IH].
  { cbn. by apply block_loop_stanza_end. }
  cbn [fmap list_fmap concat]. rewrite <- !app_assoc. cbn [app].
  rewrite (block_loop_stanza_sep b _ sep Hb Hsep), IH. cbn.
  by rewrite app_assoc.
Qed.

Lemma parse_obo_file_stanzas_witness :
  parse_obo_file
    (concat ((fun b => b ++ [String "010" ""]) <$>
             [["format-version: 1.2" +:+ String "010" ""];
              ["[Term]" +:+ String "010" "";
               "id: HP:0000001" +:+ String "010" "";
               "name: All" +:+ String "010" ""];
              ["[Typedef]" +:+ String "010" "";
               "id: part_of" +:+ String "010" ""];
              ["[Term]" +:+ String "010" ""]])
     ++ ["[Term]"; "id: HP:0000002"])
  = ([{["id" := ["HP:0000001"]; "name" := ["All"]]};
      {["id" := ["HP:0000002"]]}], Ok ()).
Proof.
  rewrite parse_obo_file_stanzas;
    [vm_compute; reflexivity|repeat constructor|reflexivity|by right].
Defined.

(** X3. A Term marker ends the block before it, blank line or not: the
    stanza read so far yields its Term, and the marker opens the next
    block. *)
Theorem term_marker_ends_block (b rest : list string) (marker : string) :
  is_stanza b = true ->
  Str.rstrip marker = "[Term]" ->
  parse_obo_file (b ++ marker :: rest)
  = (terms_of b ++ (parse_obo_file (marker :: rest)).1,
     (parse_obo_file (marker :: rest)).2).
Proof.
  intros Hb Hm. unfold parse_obo_file. rewrite (block_loop_stanza b _ Hb).
  cbn [block_loop]. rewrite Hm. rewrite decide_True by done.
  rewrite emit_terms_of. destruct b as [|l b]; [done|]. cbn [fmap list_fmap].
  by destruct (block_loop ["[Term]"] rest).
Qed.

Lemma term_marker_ends_block_witness :
  parse_obo_file (["[Term]"; "id: HP:1"] ++ "[Term]" :: ["id: HP:2"])
  = ([{["id" := ["HP:1"]]}; {["id" := ["HP:2"]]}], Ok ()).
Proof.
  rewrite term_marker_ends_block; [vm_compute; reflexivity|reflexivity..].
Defined.

End OntologyFile.

(** ** The table of the ontology *)

Section OntologyTable.
Import Obo Re Synonym OboFile.

Lemma extract_matched (s : string) (m : groups) :
  re_match synonym_re s = Some m ->
  exists text ty src, extract_synonym_details s = Ok (text, ty, src) /\ ty <> "".
Proof.
  intros E. destruct (re_match_shape s m E) as (x & rest & Hx & ->).
  rewrite (extract_shape x rest Hx). do 3 eexists. split; [done|].
  unfold well_shaped in Hx. rewrite !andb_true_iff in Hx.
  destruct Hx as [[[[[[[[[_ _] _] _] Ht1] _] _] _] _] _].
  apply nonempty_neq in Ht1. unfold full_type.
  destruct (type_token x) as [|c ty]; [done|]. by destruct (subtype x) as [[? ?]|].
Qed.

Lemma extract_unmatched (s : string) :
  re_match synonym_re s = None -> extract_synonym_details s = Ok (s, "", "").
Proof. intros E. unfold extract_synonym_details. by rewrite E. Qed.

Lemma synonym_columns_ok (syns : list string) :
  exists texts types,
    synonym_columns syns = Ok (texts, types) /\
    length texts = length syns /\
    length types
    = length (filter (fun s => is_Some (re_match synonym_re s)) syns) /\
    Forall (fun ty => ty <> "") types.
Proof.
  induction syns as [|syn syns IH]; [by exists [], []|].
  destruct IH as (texts & types & Hc & Hl1 & Hl2 & Hne).
  cbn [synonym_columns]. rewrite Hc.
  destruct (re_match synonym_re syn) as [m|] eqn:E.
  - destruct (extract_matched syn m E) as (text & ty & src & -> & Hty). cbn.
    rewrite decide_False by done. do 2 eexists. split; [done|].
    rewrite decide_True by by eexists. cbn.
    split; [by rewrite Hl1|]. split; [by rewrite Hl2|]. by constructor.
  - rewrite (extract_unmatched syn E). cbn.
    do 2 eexists. split; [done|].
    rewrite (decide_True (P := "" = "")) by done.
    rewrite decide_False by (rewrite E; by apply is_Some_None). cbn.
    split; [by rewrite Hl1|]. done.
Qed.

Lemma first_value_ok (term : Term) (tag : string) :
  (forall t vs, term !! t = Some vs -> vs <> []) ->
  exists v, first_value term tag = Ok v.
Proof.
  intros H. unfold first_value. destruct (term !! tag) as [[|v vs]|] eqn:E.
  - by destruct (H tag [] E).
  - by eexists.
  - by eexists.
Qed.

Lemma term_row_ok (term : Term) :
  (forall t vs, term !! t = Some vs -> vs <> []) ->
  exists r, term_row term = Ok r /\ (is_Some r <-> is_Some (term !! "id")).
Proof.
  intros H. unfold term_row. destruct (term !! "id") as [ids|] eqn:Eid; cycle 1.
  { exists None. split; [done|]. split; by intros [? ?]. }
  assert (exists cols, match term !! "synonym" with
                       | Some syns => synonym_columns syns
                       | None => Ok ([], [])
                       end = Ok cols) as [cols ->].
  { destruct (term !! "synonym") as [syns|]; [|by eexists].
    destruct (synonym_columns_ok syns) as (texts & types & -> & _). by eexists. }
  destruct (first_value_ok term "id" H) as [i ->].
  destruct (first_value_ok term "name" H) as [n ->].
  destruct (first_value_ok term "def" H) as [d ->].
  destruct (first_value_ok term "comment" H) as [c ->].
  destruct (first_value_ok term "creation_date" H) as [cd ->].
  cbn. eexists. split; [done|]. split; by eexists.
Qed.

Lemma term_rows_ok (terms : list Term) :
  Forall (fun term : Term => forall t vs, term !! t = Some vs -> vs <> []) terms ->
  exists rows,
    write_rows terms = (rows, Ok ()) /\
    length rows = length (filter (fun term : Term => is_Some (term !! "id")) terms).
Proof.
  induction 1 as [|term terms Ht _ IH]; [by exists []|].
  destruct IH as (rows & Hrows & Hlen).
  destruct (term_row_ok term Ht) as (r & Hr & Hid).
  cbn [write_rows]. rewrite Hr, Hrows. eexists. split; [done|].
  rewrite length_app, Hlen. destruct r as [x|].
  - rewrite filter_cons_True by (apply Hid; by eexists). done.
  - rewrite filter_cons_False; [done|]. intros Hs. apply Hid in Hs.
    by destruct Hs.
Qed.

(** X4. The conversion of the ontology file goes through on any text: no
    sequence of lines makes the reader or the table builder raise. It writes
    the header and one row for each Term the reader yields that has an [id],
    and no row for the others. *)
Theorem convert_writes_terms_with_id (lines : list string) :
  exists rows,
    convert lines = (Ok 0, Csv fieldnames rows) /\
    length rows
    = length (filter (fun term : Term => is_Some (term !! "id"))
                (parse_obo_file lines).1).
Proof.
  unfold convert, parse_obo_file.
  destruct (block_loop_ok lines []) as (terms & -> & Hterms).
  destruct (term_rows_ok terms) as (rows & -> & Hlen).
  { eapply Forall_impl; [exact Hterms|]. by intros term [_ ?]. }
  by exists rows.
Qed.

(** X5. The two synonym columns are built from the synonym values of a Term
    without an exception: there is one text for each value, and one type for
    each value that has the shape of a synonym; a value without that shape
    gives its own text and no type, so the list of types can be the
    shorter one. *)
Theorem synonym_columns_lengths (syns : list string) :
  exists texts types,
    synonym_columns syns = Ok (texts, types) /\
    length texts = length syns /\
    length types
    = length (filter (fun s => is_Some (re_match synonym_re s)) syns) /\
    length types <= length texts /\
    Forall (fun ty => ty <> "") types.
Proof.
  destruct (synonym_columns_ok syns) as (texts & types & H & Hl1 & Hl2 & Hne).
  exists texts, types. repeat split; try done.
  rewrite Hl1, Hl2. apply length_filter.
Qed.

Lemma tag_values_empty (t : string) (body : list string) :
  tag_values t body = [] <-> occurrences t body = [].
Proof.
  pose proof (occ_fold_continues t body [] false [] (Forall2_nil_2 _ _ _)) as HF.
  cbn [app] in HF. fold (tag_values t body) in HF.
  apply Forall2_length in HF. split; intros H; rewrite H in HF.
  - by destruct (occurrences t body).
  - by destruct (tag_values t body).
Qed.

(** X6. The row of a Term block, read off the lines of the block: the
    block is written when it has an [id] line with a value; the row has the
    last entry of each single-valued tag, the empty text without one, and
    the entries of a multi-valued tag joined; the [obsolete] column says
    true as soon as the block has an [is_obsolete] line with a value,
    whatever the value. *)
Theorem term_row_of_block (first : string) (body : list string) :
  Str.startswith first "[Term]" = true ->
  exists term r,
    parse_term_block (first :: body) = Ok (Some term) /\
    term_row term = Ok r /\
    (r = None <-> occurrences "id" body = []) /\
    forall x, r = Some x ->
      last (tag_values "id" body) = Some (id x) /\
      name x = default "" (last (tag_values "name" body)) /\
      definition x = default "" (last (tag_values "def" body)) /\
      comment x = default "" (last (tag_values "comment" body)) /\
      created_date x = default "" (last (tag_values "creation_date" body)) /\
      xrefs x = Str.join "; " (tag_values "xref" body) /\
      alt_ids x = Str.join "; " (tag_values "alt_id" body) /\
      is_a x = Str.join "; " (tag_values "is_a" body) /\
      (obsolete x = "true" <-> occurrences "is_obsolete" body <> []) /\
      (obsolete x = "false" <-> occurrences "is_obsolete" body = []).
Proof.
  intros Hfirst.
  destruct (term_loop_agrees body _ _ agrees_init) as (st & Hst & Hag).
  assert (Hheld : forall t, st.1 !! t = held t (tag_values t body)).
  { intros t. by destruct (Hag t) as [_ Hl]. }
  assert (Hsingle : forall t, is_multi t = false ->
            first_value st.1 t = Ok (default "" (last (tag_values t body)))).
  { intros t Ht. unfold first_value. rewrite Hheld. unfold held. rewrite Ht.
    by destruct (last (tag_values t body)). }
  assert (Hmulti : forall t, is_multi t = true ->
            default [] (st.1 !! t) = tag_values t body).
  { intros t Ht. rewrite Hheld. unfold held. rewrite Ht.
    by destruct (tag_values t body). }
  assert (Hin : forall t, st.1 !! t = None <-> occurrences t body = []).
  { intros t. rewrite <- tag_values_empty, Hheld. split.
    - apply held_none.
    - intros ->. unfold held. by destruct (is_multi t). }
  assert (Hsound : forall t vs, st.1 !! t = Some vs -> vs <> []).
  { intros t vs Ht. rewrite Hheld in Ht.
    by apply held_some_nonempty in Ht as [? _]. }
  destruct (term_row_ok st.1 Hsound) as (r & Hr & Hid).
  exists st.1, r. split.
  { unfold parse_term_block. by rewrite Hfirst, Hst. }
  split; [done|]. split.
  { rewrite <- Hin. destruct r as [x|].
    - split; [done|]. intros Hn. destruct Hid as [Hid _].
      destruct Hid as [? Hs]; [by eexists|]. congruence.
    - split; [|done]. intros _. destruct (st.1 !! "id") eqn:E; [|done].
      destruct Hid as [_ Hid]. destruct Hid as [? ?]; [by eexists|done]. }
  intros x ->. unfold term_row in Hr.
  destruct (st.1 !! "id") as [ids|] eqn:Eid; [|done].
  destruct (match st.1 !! "synonym" with
            | Some syns => synonym_columns syns
            | None => Ok ([], [])
            end) as [cols|]; [|done].
  rewrite !Hsingle in Hr by done. cbn in Hr. injection Hr as <-. cbn.
  rewrite !Hmulti by done.
  assert (Hlast : last (tag_values "id" body)
                  = Some (default "" (last (tag_values "id" body)))).
  { rewrite Hheld in Eid. unfold held in Eid. cbn in Eid.
    by destruct (last (tag_values "id" body)). }
  split; [done|]. do 7 (split; [done|]).
  destruct (st.1 !! "is_obsolete") eqn:Eo.
  - assert (occurrences "is_obsolete" body <> []).
    { intros Hn. apply Hin in Hn. congruence. }
    split; split; done.
  - apply Hin in Eo. split; split; done.
Qed.

Lemma term_row_of_block_witness :
  exists term x,
    parse_term_block
      ["[Term]"; "id: HP:0000057"; "name: old"; "name: Abnormal clitoris";
       "xref: UMLS:C1"; "xref: UMLS:C2"; "is_obsolete: false"]
    = Ok (Some term) /\
    term_row term = Ok (Some x) /\
    id x = "HP:0000057" /\ name x = "Abnormal clitoris" /\
    xrefs x = "UMLS:C1; UMLS:C2" /\ obsolete x = "true".
Proof.
  destruct (term_row_of_block "[Term]"
              ["id: HP:0000057"; "name: old"; "name: Abnormal clitoris";
               "xref: UMLS:C1"; "xref: UMLS:C2"; "is_obsolete: false"])
    as (term & r & Hp & Hr & Hnone & Hx); [reflexivity|].
  destruct r as [x|]; cycle 1.
  { destruct Hnone as [Hnone _]. specialize (Hnone eq_refl).
    vm_compute in Hnone. discriminate Hnone. }
  exists term, x. split; [exact Hp|]. split; [exact Hr|].
  destruct (Hx x eq_refl) as (Hid & Hname & _ & _ & _ & Hxr & _ & _ & Hobs & _).
  split; [|split; [|split]].
  - enough (Hs : Some (id x) = Some "HP:0000057") by (by injection Hs).
    rewrite <- Hid. vm_compute. reflexivity.
  - rewrite Hname. vm_compute. reflexivity.
  - rewrite Hxr. vm_compute. reflexivity.
  - apply Hobs. vm_compute. discriminate.
Defined.

End OntologyTable.

(** ** Tag lines *)

Section TagLines.
Import Obo.

Lemma split1_colon_space (tag value : string) :
  Str.contains ": " tag = false ->
  Str.split1 ": " (tag +:+ ": " +:+ value) = Some (tag, value).
Proof.
  unfold Str.contains. induction tag as [|c tag IH].
  { intros _. rewrite str_app_nil_l. cbn. by destruct value. }
  intros H. rewrite str_app_cons.
  assert (Hs : Str.startswith (String c tag) ": " = false).
  { cbn [Str.split1] in H. by destruct (Str.startswith (String c tag) ": "). }
  assert (Ht : match Str.split1 ": " tag with Some _ => true | None => false end
               = false).
  { cbn [Str.split1] in H. rewrite Hs in H.
    by destruct (Str.split1 ": " tag) as [[? ?]|]. }
  assert (Hs' : Str.startswith (String c (tag +:+ ": " +:+ value)) ": " = false).
  { cbn in Hs |- *. destruct (decide (":"%char = c)); [|done].
    destruct tag as [|c' tag]; [done|]. rewrite str_app_cons. cbn in Hs |- *.
    destruct (decide (" "%char = c')); [|done]. by rewrite startswith_empty in Hs. }
  cbn [Str.split1]. rewrite Hs'. by rewrite (IH Ht).
Qed.

(** X7. A tag line is split at its first colon followed by a space: when
    the text before that separator has no such separator in it, the tag is
    that text and the value all that follows, colons included, both
    stripped of surrounding white space. A line without the separator is
    its own tag, as it stands, and has no value. *)
Theorem parse_tag_value_first_separator (tag value line : string) :
  (Str.contains ": " tag = false ->
   parse_tag_value (tag +:+ ": " +:+ value) = (Str.strip tag, Str.strip value)) /\
  (Str.contains ": " line = false -> parse_tag_value line = (line, "")).
Proof.
  split.
  - intros H. unfold parse_tag_value. by rewrite split1_colon_space.
  - unfold Str.contains, parse_tag_value.
    by destruct (Str.split1 ": " line) as [[? ?]|].
Qed.

Lemma parse_tag_value_first_separator_witness :
  parse_tag_value ("xref" +:+ ": " +:+ "UMLS:C0000768 ! note: see text")
  = (Str.strip "xref", Str.strip "UMLS:C0000768 ! note: see text") /\
  parse_tag_value " is_obsolete:true" = (" is_obsolete:true", "").
Proof.
  split.
  - apply (parse_tag_value_first_separator "xref"
             "UMLS:C0000768 ! note: see text" ""). reflexivity.
  - apply (parse_tag_value_first_separator "" "" " is_obsolete:true").
    reflexivity.
Defined.

End TagLines.

(** ** Annotation lines and their fields *)

Section AnnotationLines.
Import Hpoa HpoaLine.

Lemma split_nonempty (sep : ascii) (s : string) : Str.split sep s <> [].
Proof.
  induction s as [|c s IH]; [done|]. cbn.
  destruct (decide (c = sep)); [done|]. by destruct (Str.split sep s).
Qed.

Lemma join_cons (sep x : string) (l : list string) :
  l <> [] -> Str.join sep (x :: l) = x +:+ sep +:+ Str.join sep l.
Proof. by destruct l. Qed.

Lemma join_split (sep : ascii) (s : string) :
  Str.join (String sep "") (Str.split sep s) = s.
Proof.
  induction s as [|c s IH]; [done|]. cbn [Str.split].
  pose proof (split_nonempty sep s) as Hne.
  destruct (decide (c = sep)) as [->|Hc].
  - rewrite join_cons by done. by rewrite IH.
  - destruct (Str.split sep s) as [|w ws]; [done|].
    destruct ws as [|w' ws].
    + cbn in *. by rewrite IH.
    + rewrite join_cons in IH by done. rewrite join_cons by done.
      rewrite str_app_cons. by rewrite IH.
Qed.

Lemma split_no_sep (sep : ascii) (s : string) :
  Forall (fun w => Str.all (fun c => negb (bool_decide (c = sep))) w = true)
         (Str.split sep s).
Proof.
  induction s as [|c s IH]; [by repeat constructor|]. cbn [Str.split].
  destruct (decide (c = sep)) as [->|Hc]; [by constructor|].
  destruct (Str.split sep s) as [|w ws].
  - constructor; [|done]. cbn. by rewrite bool_decide_false.
  - inversion IH as [|? ? Hw Hws]; subst.
    constructor; [|done]. cbn. by rewrite bool_decide_false.
Qed.

Lemma split_join (sep : ascii) (l : list string) :
  l <> [] ->
  Forall (fun w => Str.all (fun c => negb (bool_decide (c = sep))) w = true) l ->
  Str.split sep (Str.join (String sep "") l) = l.
Proof.
  intros Hne HF. induction HF as [|w l Hw HF IH]; [done|].
  assert (Hword : forall rest ws,
            Str.split sep rest = ws -> ws <> [] ->
            Str.split sep (w +:+ rest)
            = match ws with [] => [] | x :: xs => (w +:+ x) :: xs end).
  { intros rest ws <- Hws. clear -Hw Hws. induction w as [|c w IHw].
    - rewrite str_app_nil_l. destruct (Str.split sep rest); done.
    - cbn in Hw. apply andb_true_iff in Hw as [Hc Hw].
      apply negb_true_iff, bool_decide_eq_false in Hc.
      rewrite str_app_cons. cbn [Str.split]. rewrite decide_False by done.
      rewrite (IHw Hw). destruct (Str.split sep rest); done. }
  destruct l as [|w' l].
  - cbn. rewrite <- (str_app_nil_r w) at 1.
    rewrite (Hword "" [""] eq_refl) by done. by rewrite str_app_nil_r.
  - rewrite join_cons by done.
    rewrite (Hword _ ("" :: w' :: l)); [by rewrite str_app_nil_r| |done].
    cbn [Str.split]. rewrite str_app_cons, str_app_nil_l. cbn [Str.split].
    rewrite decide_True by done. by rewrite IH.
Qed.

(** X8. A line that gives a row is its twelve fields joined by tabs, up to
    the white space around the line that the reader strips; no field of the
    row has a tab in it. *)
Theorem parse_hpoa_line_fields (line : string) (r : row) :
  parse_hpoa_line line = Some r ->
  Str.join (String tab "") (fields r) = Str.strip line /\
  Forall (fun f => Str.all not_tab f = true) (fields r).
Proof.
  unfold parse_hpoa_line. intros H.
  pose proof (join_split tab (Str.strip line)) as Hj.
  pose proof (split_no_sep tab (Str.strip line)) as Hs.
  destruct (Str.split tab (Str.strip line))
    as [|a [|b [|c [|d [|e [|f [|g [|h [|i [|j [|k [|l [|? ?]]]]]]]]]]]]];
    try discriminate H.
  injection H as <-. by split.
Qed.

Lemma parse_hpoa_line_fields_witness :
  Str.join (String tab "")
    (fields (Row "OMIM:619340" "Developmental and epileptic encephalopathy 96"
                 "" "HP:0011097" "PMID:31675180" "PCS" "" "1/2" "" "" "P"
                 "HPO:probinson[2021-06-21]"))
  = Str.strip
      (Str.join (String tab "")
         ["  OMIM:619340"; "Developmental and epileptic encephalopathy 96"; "";
          "HP:0011097"; "PMID:31675180"; "PCS"; ""; "1/2"; ""; ""; "P";
          "HPO:probinson[2021-06-21]"] +:+ String "010" "") /\
  Forall (fun f => Str.all not_tab f = true)
    (fields (Row "OMIM:619340" "Developmental and epileptic encephalopathy 96"
                 "" "HP:0011097" "PMID:31675180" "PCS" "" "1/2" "" "" "P"
                 "HPO:probinson[2021-06-21]")).
Proof. apply parse_hpoa_line_fields. vm_compute. reflexivity. Defined.

Lemma rstrip_app_space (s e : string) :
  Str.all Str.is_space e = true -> Str.rstrip (s +:+ e) = Str.rstrip s.
Proof.
  intros He. induction s as [|c s IH].
  - rewrite str_app_nil_l. cbn. by apply rstrip_empty_all_space.
  - rewrite str_app_cons. cbn. by rewrite IH.
Qed.

Lemma rstrip_app_clean (p q : string) :
  Str.rstrip q = q -> q <> "" -> Str.rstrip (p +:+ q) = p +:+ q.
Proof.
  intros Hq Hne. induction p as [|c p IH]; [done|].
  rewrite str_app_cons. cbn. rewrite IH.
  destruct (p +:+ q) eqn:E; [|done]. destruct p; [|done].
  by rewrite str_app_nil_l in E.
Qed.

Lemma rstrip_join_clean (sep : ascii) (xs : list string) (l : string) :
  ends_clean l = true ->
  Str.rstrip (Str.join (String sep "") (xs ++ [l]))
  = Str.join (String sep "") (xs ++ [l]) /\
  Str.join (String sep "") (xs ++ [l]) <> "".
Proof.
  intros [Hne Hl]%andb_true_iff.
  apply negb_true_iff, bool_decide_eq_false in Hne.
  apply bool_decide_eq_true in Hl.
  induction xs as [|x xs [IH1 IH2]]; [done|].
  cbn [app]. rewrite join_cons by by destruct xs.
  rewrite str_app_cons, str_app_nil_l.
  set (q := Str.join (String sep "") (xs ++ [l])) in *.
  assert (Hq : Str.rstrip (String sep q) = String sep q).
  { cbn. rewrite IH1. by destruct q. }
  split; [by apply rstrip_app_clean|]. by destruct x.
Qed.

(** X9. A row whose fields have no tab in them, whose first field does not
    begin with white space and whose last field does not end with it, is
    read back from its line: the fields joined by tabs, followed by a line
    ending or any other white space, give that row. *)
Theorem parse_hpoa_line_of_fields (r : row) (ending : string) :
  Forall (fun f => Str.all not_tab f = true) (fields r) ->
  starts_clean (database_id r) = true ->
  ends_clean (biocuration r) = true ->
  Str.all Str.is_space ending = true ->
  parse_hpoa_line (Str.join (String tab "") (fields r) +:+ ending) = Some r.
Proof.
  intros Hf Hfirst Hlast Hend. unfold parse_hpoa_line.
  assert (Hstrip : Str.strip (Str.join (String tab "") (fields r) +:+ ending)
                   = Str.join (String tab "") (fields r)).
  { unfold Str.strip. rewrite rstrip_app_space by done.
    destruct (rstrip_join_clean tab
                [database_id r; disease_name r; qualifier r; hpo_id r;
                 reference r; evidence r; onset r; frequency r; sex r;
                 modifier r; aspect r] (biocuration r) Hlast) as [Hr _].
    change (_ ++ [biocuration r]) with (fields r) in Hr. rewrite Hr.
    apply lstrip_head. unfold fields. rewrite join_cons by done.
    destruct (database_id r) as [|c s]; [done|]. cbn in *.
    by apply negb_true_iff. }
  rewrite Hstrip, split_join by done. by destruct r.
Qed.

Lemma parse_hpoa_line_of_fields_witness :
  parse_hpoa_line
    (Str.join (String tab "")
       (fields (Row "OMIM:619340" "Developmental and epileptic encephalopathy 96"
                    "" "HP:0011097" "PMID:31675180" "PCS" "" "1/2" "" "" "P"
                    "HPO:probinson[2021-06-21]")) +:+ String "010" "")
  = Some (Row "OMIM:619340" "Developmental and epileptic encephalopathy 96"
              "" "HP:0011097" "PMID:31675180" "PCS" "" "1/2" "" "" "P"
              "HPO:probinson[2021-06-21]").
Proof.
  apply parse_hpoa_line_of_fields; [|reflexivity..].
  repeat constructor.
Defined.

Lemma length_omap_le {A B} (f : A -> option B) (l : list A) :
  length (omap f l) <= length l.
Proof.
  induction l as [|x l IH]; [done|]. cbn. destruct (f x); cbn; lia.
Qed.

Lemma first_data_line_bound (lines : list string) (i : nat) :
  first_data_line i lines = 0 \/
  (i <= first_data_line i lines /\ first_data_line i lines < i + length lines).
Proof.
  revert i. induction lines as [|line lines IH]; intros i; [by left|].
  cbn. destruct (negb (Str.startswith line "#")); [right; lia|].
  destruct (IH (S i)) as [->|H]; [by left|right; lia].
Qed.


(** X10. The conversion of an annotation file fails on the empty file and on
    no other: with one line or more it goes through, whatever the lines
    are; the count of valid rows is the number of rows written, it is at
    most the count of data lines, and the data lines are fewer than the
    lines of the file. *)
Theorem convert_fails_on_empty_file_only (lines : list string) :
  (lines = [] -> exists msg, convert lines = Raise (CustomException msg)) /\
  (lines <> [] ->
   exists out,
     convert lines = Ok out /\
     valid_rows out = length (rows out) /\
     valid_rows out <= total_rows out /\
     total_rows out < length lines).
Proof.
  split; [intros ->; by eexists|]. intros Hne. unfold convert.
  assert (Hlt : first_data_line 0 lines < length lines).
  { destruct (first_data_line_bound lines 0) as [->|H]; [|lia].
    destruct lines; [done|]. cbn. lia. }
  destruct (lookup_lt_is_Some_2 lines _ Hlt) as [h ->].
  rewrite data_loop_rows. eexists. split; [done|]. cbn.
  split; [done|]. split.
  - rewrite length_drop. etrans; [apply length_omap_le|].
    rewrite length_drop. lia.
  - rewrite length_drop. lia.
Qed.

Lemma convert_fails_on_empty_file_only_witness :
  (exists msg, convert [] = Raise (CustomException msg)) /\
  exists out,
    convert ["no comment, no header, not even a tab"] = Ok out /\
    valid_rows out = length (rows out) /\
    valid_rows out <= total_rows out /\
    total_rows out < 1.
Proof.
  split.
  - by apply (proj1 (convert_fails_on_empty_file_only [])).
  - apply (proj2 (convert_fails_on_empty_file_only
                    ["no comment, no header, not even a tab"])).
    discriminate.
Defined.



End AnnotationLines.

(** ** The lookups of the helpers *)

Section Lookups.
Import Xml XmlPlain.

Lemma split1_rbrace (ns name : string) :
  Str.all not_rbrace ns = true ->
  Str.split1 "}" (ns +:+ String "}" name) = Some (ns, name).
Proof.
  induction ns as [|c ns IH]; [intros _; by destruct name|]. cbn [Str.all].
  intros [Hc Hk]%andb_true_iff. rewrite str_app_cons.
  unfold not_rbrace in Hc. apply negb_true_iff, bool_decide_eq_false in Hc.
  cbn. rewrite decide_False by done.
  change (match Str.split1 "}" (ns +:+ String "}" name) with
          | Some (a, b) => Some (String c a, b) | None => None end
          = Some (String c ns, name)).
  by rewrite IH.
Qed.

Lemma local_plain (t : string) : plain t = true -> local t = Ok t.
Proof.
  unfold plain. destruct t as [|c t]; [done|]. cbn.
  destruct (decide ("{"%char = c)) as [<-|Hne].
  - rewrite startswith_empty. done.
  - intros _. destruct c as [[] [] [] [] [] [] [] []]; try done.
Qed.

Lemma local_brace (t : string) :
  local (String "{" t)
  = match Str.split1 "}" (String "{" t) with
    | Some (_, name) => Ok name
    | None => Raise IndexError
    end.
Proof. done. Qed.

(** X12. [local] gives the name that follows the namespace: a tag that does
    not open a brace is returned as it is; [{ns}name] gives [name], the
    namespace running to the first closing brace; the one failure is a tag
    that opens a brace and never closes it. *)
Theorem local_cases (t : string) :
  (plain t = true -> local t = Ok t) /\
  (forall ns name,
     Str.all not_rbrace ns = true ->
     t = "{" +:+ ns +:+ "}" +:+ name -> local t = Ok name) /\
  (forall e, local t = Raise e ->
     e = IndexError /\ plain t = false /\ Str.contains "}" t = false).
Proof.
  split; [apply local_plain|]. split.
  - intros ns name Hns ->. rewrite str_app_cons, str_app_nil_l.
    rewrite local_brace.
    change (String "{" (ns +:+ "}" +:+ name))
      with (String "{" ns +:+ String "}" name).
    rewrite split1_rbrace; [done|]. cbn. by rewrite Hns.
  - intros e He. destruct (plain t) eqn:Hp.
    { by rewrite local_plain in He. }
    unfold plain in Hp. apply negb_false_iff in Hp.
    destruct t as [|c t]; [done|]. cbn in Hp.
    destruct (decide ("{"%char = c)) as [<-|]; [|done].
    rewrite local_brace in He. unfold Str.contains.
    destruct (Str.split1 "}" (String "{" t)) as [[? ?]|]; [done|].
    by injection He as <-.
Qed.

Lemma local_cases_witness :
  local "{http://www.orpha.net}Disorder" = Ok "Disorder" /\
  local "Disorder" = Ok "Disorder".
Proof.
  split.
  - apply (proj1 (proj2 (local_cases "{http://www.orpha.net}Disorder"))
             "http://www.orpha.net" "Disorder"); reflexivity.
  - apply (proj1 (local_cases "Disorder")). reflexivity.
Defined.

Lemma all_children_head (name : string) (cs l : list element) :
  all_children name cs = Ok l ->
  first_child name cs = Ok (head l) /\
  sublist l cs /\ Forall (fun c => local (tag c) = Ok name) l.
Proof.
  revert l. induction cs as [|c cs IH]; intros l.
  { intros [= <-]. split; [done|]. split; [done|constructor]. }
  cbn. destruct (local (tag c)) as [n|e] eqn:Hn; [|done]. cbn.
  destruct (all_children name cs) as [rest|e]; [|done]. cbn.
  destruct (IH rest eq_refl) as (Hf & Hs & Ha). intros [= <-].
  destruct (decide (n = name)) as [->|Hne].
  - split; [done|]. split; [by constructor|by constructor].
  - split; [done|]. split; [by constructor|done].
Qed.

(** X13. When [find_all] returns, [find_first] returns the first of the
    elements it found, or [None] when it found none; the elements found are
    children of the parent, in their order, and each has the local name
    asked for. *)
Theorem find_first_is_head_of_find_all (p : element) (name : string)
    (l : list element) :
  find_all (Some p) name = Ok l ->
  find_first (Some p) name = Ok (head l) /\
  sublist l (children p) /\
  Forall (fun c => local (tag c) = Ok name) l.
Proof. apply all_children_head. Qed.

Lemma find_first_is_head_of_find_all_witness :
  find_first
    (Some (Element "Disorder" ∅ None
             [Element "Name" {["lang" := "fr"]} (Some "un") [];
              Element "{ns}OrphaCode" ∅ (Some "58") [];
              Element "OrphaCode" ∅ (Some "59") []])) "OrphaCode"
  = Ok (head [Element "{ns}OrphaCode" ∅ (Some "58") [];
              Element "OrphaCode" ∅ (Some "59") []]).
Proof.
  apply find_first_is_head_of_find_all. vm_compute. reflexivity.
Defined.

Lemma findall_one (name : string) (p : element) :
  findall [name] p = filter (fun c => tag c = name) (children p).
Proof.
  cbn. induction (filter (fun c => tag c = name) (children p)) as [|c l IH];
    [done|]. cbn. by rewrite IH.
Qed.


Lemma first_child_plain (name : string) (cs : list element) :
  Forall (fun c => plain (tag c) = true) cs ->
  first_child name cs = Ok (head (filter (fun c => tag c = name) cs)).
Proof.
  induction 1 as [|c cs Hc _ IH]; [done|]. cbn [first_child].
  rewrite (local_plain _ Hc). cbn -[filter].
  destruct (decide (tag c = name)).
  - by rewrite filter_cons_True.
  - by rewrite filter_cons_False.
Qed.



Lemma text_stripped_no_text (e : element) :
  has_text e = false -> text_stripped e = "".
Proof.
  unfold has_text, text_stripped. destruct (text e) as [s|]; [|done].
  intros H. apply negb_false_iff, bool_decide_eq_true in H. by subst.
Qed.

Lemma first_lang_text_plain (name lang : string) (cs : list element) :
  Forall (fun c => plain (tag c) = true) cs ->
  Forall (fun c => tag c = name -> is_Some (attrib c !! "lang")) cs ->
  first_lang_text name lang "" cs
  = Ok (OrphaXml1.first_text (Some lang) (filter (fun c => tag c = name) cs)).
Proof.
  induction 1 as [|c cs Hc _ IH]; [done|]. intros Hl.
  inversion Hl as [|? ? Hcl Hl']; subst.
  cbn [first_lang_text]. rewrite (local_plain _ Hc). cbn -[filter].
  destruct (decide (tag c = name)) as [Ht|Ht].
  - rewrite filter_cons_True by done. cbn [OrphaXml1.first_text].
    destruct (Hcl Ht) as [l El]. rewrite El.
    destruct (decide (l = lang)) as [->|Hne].
    + by rewrite decide_True.
    + rewrite decide_False by congruence. by apply IH.
  - rewrite filter_cons_False by done. by apply IH.
Qed.

Lemma find_text_plain (p : element) (name : string) :
  Forall (fun c => plain (tag c) = true) (children p) ->
  find_text (Some p) name "" = Ok (OrphaXml1.get_child_text (Some p) name None).
Proof.
  intros Hp. unfold find_text, find_first. rewrite first_child_plain by done.
  unfold OrphaXml1.get_child_text. rewrite findall_one. cbn -[filter].
  destruct (filter _ _) as [|e l]; [done|]. cbn.
  destruct (has_text e) eqn:He; [done|]. by rewrite text_stripped_no_text.
Qed.

Lemma find_text_lang_plain (p : element) (name lang : string) :
  Forall (fun c => plain (tag c) = true) (children p) ->
  Forall (fun c => tag c = name -> is_Some (attrib c !! "lang")) (children p) ->
  find_text_lang (Some p) name lang ""
  = Ok (Some (OrphaXml1.get_child_text (Some p) name (Some lang))).
Proof.
  intros Hp Hl. unfold find_text_lang.
  rewrite first_lang_text_plain by done.
  unfold OrphaXml1.get_child_text. by rewrite findall_one.
Qed.

Lemma find_text_lang_plain_ok (p : element) (name lang dflt : string) :
  Forall (fun c => plain (tag c) = true) (children p) ->
  exists s, find_text_lang (Some p) name lang dflt = Ok (Some s).
Proof.
  intros Hp. unfold find_text_lang.
  assert (exists s, first_lang_text name lang dflt (children p) = Ok s) as [s ->].
  { induction Hp as [|c cs Hc _ IH]; [by eexists|].
    cbn [first_lang_text]. rewrite (local_plain _ Hc). cbn.
    destruct (decide (tag c = name)); [|done].
    destruct (attrib c !! "lang") as [l|]; [|by eexists].
    destruct (decide (l = lang)); [by eexists|done]. }
  by eexists.
Qed.



End Lookups.

(** ** One disorder, two parsers *)

Section TwoParsers.
Import Xml XmlPlain.

(** X16. The single-entity parser and the gene-association parser read the
    same disorder the same way: on a [Disorder] element whose children
    carry no namespace, the identifier, the code, the type and the group of
    the one are those of the other; so are the name and the link when every
    [Name] and [ExpertLink] child states its language. *)
Theorem disorder_columns_agree (d : element) :
  Forall (fun c => plain (tag c) = true) (children d) ->
  exists info,
    OrphaXml6.disorder_info d = Ok info /\
    info !! "DisorderID" = Some (OrphaXml6.VStr (OrphaXml1.id (OrphaXml1.parse_disorder d))) /\
    info !! "OrphaCode"
    = Some (OrphaXml6.VStr (OrphaXml1.OrphaCode (OrphaXml1.parse_disorder d))) /\
    info !! "DisorderType"
    = Some (OrphaXml6.VStr (OrphaXml1.DisorderType (OrphaXml1.parse_disorder d))) /\
    info !! "DisorderGroup"
    = Some (OrphaXml6.VStr (OrphaXml1.DisorderGroup (OrphaXml1.parse_disorder d))) /\
    (Forall (fun c => tag c = "Name" \/ tag c = "ExpertLink" ->
                      is_Some (attrib c !! "lang")) (children d) ->
     info !! "DisorderName"
     = Some (OrphaXml6.VStr (OrphaXml1.Name (OrphaXml1.parse_disorder d))) /\
     info !! "ExpertLink"
     = Some (OrphaXml6.VStr (OrphaXml1.ExpertLink (OrphaXml1.parse_disorder d)))).
Proof.
  intros Hp. unfold OrphaXml6.disorder_info.
  rewrite (find_text_plain d "OrphaCode" Hp).
  destruct (find_text_lang_plain_ok d "Name" "en" "" Hp) as [nm Hnm].
  destruct (find_text_lang_plain_ok d "ExpertLink" "en" "" Hp) as [lk Hlk].
  rewrite Hnm, Hlk. cbn -[find OrphaXml1.get_child_text].
  eexists. split; [done|].
  split; [by rewrite !lookup_insert_ne, lookup_insert_eq by done|].
  split; [by rewrite !lookup_insert_ne, lookup_insert_eq by done|].
  split; [by rewrite !lookup_insert_ne, lookup_insert_eq by done|].
  split; [by rewrite lookup_insert_eq|].
  intros Hl.
  rewrite (find_text_lang_plain d "Name" "en" Hp) in Hnm; cycle 1.
  { eapply Forall_impl; [exact Hl|]. cbn. intros c Hc Ht. apply Hc. by left. }
  rewrite (find_text_lang_plain d "ExpertLink" "en" Hp) in Hlk; cycle 1.
  { eapply Forall_impl; [exact Hl|]. cbn. intros c Hc Ht. apply Hc. by right. }
  injection Hnm as <-. injection Hlk as <-.
  split; by rewrite !lookup_insert_ne, lookup_insert_eq by done.
Qed.

Lemma disorder_columns_agree_witness :
  exists info,
    OrphaXml6.disorder_info
      (Element "Disorder" {["id" := "17601"]} None
         [Element "OrphaCode" ∅ (Some "166024") [];
          Element "Name" {["lang" := "en"]} (Some "Kyphoscoliotic EDS") [];
          Element "DisorderType" ∅ None
            [Element "Name" {["lang" := "en"]} (Some "Disease") []]])
    = Ok info /\
    info !! "OrphaCode" = Some (OrphaXml6.VStr "166024") /\
    info !! "DisorderType" = Some (OrphaXml6.VStr "Disease").
Proof.
  destruct (disorder_columns_agree
      (Element "Disorder" {["id" := "17601"]} None
         [Element "OrphaCode" ∅ (Some "166024") [];
          Element "Name" {["lang" := "en"]} (Some "Kyphoscoliotic EDS") [];
          Element "DisorderType" ∅ None
            [Element "Name" {["lang" := "en"]} (Some "Disease") []]]))
    as (info & Hi & _ & Hc & Ht & _).
  { repeat constructor. }
  exists info. split; [exact Hi|]. split.
  - rewrite Hc. vm_compute. reflexivity.
  - rewrite Ht. vm_compute. reflexivity.
Defined.

End TwoParsers.

(** ** The table of gene associations *)

Section GeneTable.
Import Xml OrphaXml6 OrphaXml6File.

Lemma iter_well_tagged (e : element) :
  well_tagged e = true -> Forall (fun d => well_tagged d = true) (iter e).
Proof.
  induction e as [t a x cs IH] using element_ind_nested. intros Hw.
  cbn [iter]. constructor; [done|].
  destruct (well_tagged_inv _ Hw) as [_ Hcs]. cbn in Hcs.
  apply Forall_concat, Forall_forall. intros l Hl.
  apply list_elem_of_In, in_map_iff in Hl as (c & <- & Hc).
  rewrite Forall_forall in IH, Hcs. apply list_elem_of_In in Hc.
  by apply IH, Hcs.
Qed.

Lemma findall_descendants_well_tagged (name : string) (e : element) :
  well_tagged e = true ->
  Forall (fun d => well_tagged d = true) (findall_descendants name e).
Proof.
  intros Hw. unfold findall_descendants.
  pose proof (iter_well_tagged e Hw) as H. destruct e as [t a x cs].
  cbn [iter children] in *. inversion H as [|? ? _ Hcs]; subst.
  apply Forall_forall. intros d [_ Hd]%list_elem_of_filter.
  rewrite Forall_forall in Hcs. by apply Hcs.
Qed.





Lemma external_references_step (refs : gmap string string) (ref : element)
    (l : list element) :
  external_references refs (ref :: l)
  = (source ← find_text (Some ref) "Source" "";
     reference ← find_text (Some ref) "Reference" "";
     if negb (bool_decide (source = "")) && negb (bool_decide (reference = ""))
     then external_references (<[source := reference]> refs) l
     else external_references refs l).
Proof. done. Qed.

Lemma external_references_states (refs : gmap string string) (ref : element)
    (l : list element) (s r : string) :
  states ref s r ->
  external_references refs (ref :: l) = external_references (<[s := r]> refs) l.
Proof.
  intros (Hs & Hr & Hs' & Hr'). rewrite external_references_step, Hs, Hr. cbn.
  by rewrite !bool_decide_false.
Qed.

Lemma external_references_sound (l : list element) (refs0 refs : gmap string string) :
  external_references refs0 l = Ok refs ->
  forall s r, refs !! s = Some r ->
    refs0 !! s = Some r \/ exists ref, ref ∈ l /\ states ref s r.
Proof.
  revert refs0. induction l as [|ref l IH]; intros refs0.
  { intros [= <-] s r Hs. by left. }
  rewrite external_references_step.
  destruct (find_text (Some ref) "Source" "") as [source|] eqn:Es; [|done].
  destruct (find_text (Some ref) "Reference" "") as [reference|] eqn:Er; [|done].
  cbn. destruct (decide (source = "")) as [->|Hs].
  { rewrite bool_decide_true by done. cbn. intros H s r Hsr.
    destruct (IH _ H s r Hsr) as [?|(x & Hx & Hst)]; [by left|].
    right. exists x. split; [by right|done]. }
  destruct (decide (reference = "")) as [->|Hr].
  { rewrite (bool_decide_true ("" = "")) by done. cbn [negb].
    rewrite andb_false_r. intros H s r Hsr.
    destruct (IH _ H s r Hsr) as [?|(x & Hx & Hst)]; [by left|].
    right. exists x. split; [by right|done]. }
  rewrite !bool_decide_false by done. cbn. intros H s r Hsr.
  destruct (IH _ H s r Hsr) as [Hin|(x & Hx & Hst)].
  - destruct (decide (source = s)) as [<-|Hne].
    + rewrite lookup_insert_eq in Hin. injection Hin as <-.
      right. exists ref. split; [by left|done].
    + rewrite lookup_insert_ne in Hin by done. by left.
  - right. exists x. split; [by right|done].
Qed.

Lemma external_references_mono (l : list element) (refs0 refs : gmap string string) :
  external_references refs0 l = Ok refs ->
  forall s, is_Some (refs0 !! s) -> is_Some (refs !! s).
Proof.
  revert refs0. induction l as [|ref l IH]; intros refs0.
  { by intros [= <-]. }
  rewrite external_references_step.
  destruct (find_text (Some ref) "Source" "") as [source|]; [|done].
  destruct (find_text (Some ref) "Reference" "") as [reference|]; [|done].
  cbn. destruct (_ && _); intros H s Hs; apply (IH _ H); [|done].
  destruct (decide (source = s)) as [<-|Hne].
  - rewrite lookup_insert_eq. by eexists.
  - by rewrite lookup_insert_ne.
Qed.

Lemma external_references_complete (l : list element) (refs0 refs : gmap string string) :
  external_references refs0 l = Ok refs ->
  forall ref s r, ref ∈ l -> states ref s r -> is_Some (refs !! s).
Proof.
  revert refs0. induction l as [|x l IH]; intros refs0 H ref s r Hin Hst.
  { by apply elem_of_nil in Hin. }
  apply elem_of_cons in Hin as [->|Hin].
  - rewrite (external_references_states _ _ _ _ _ Hst) in H.
    apply (external_references_mono _ _ _ H). rewrite lookup_insert_eq.
    by eexists.
  - rewrite external_references_step in H.
    destruct (find_text (Some x) "Source" "") as [source|]; [|done].
    destruct (find_text (Some x) "Reference" "") as [reference|]; [|done].
    cbn in H. destruct (_ && _); by apply (IH _ H ref s r).
Qed.

Lemma external_references_last (l : list element) (ref : element)
    (refs0 refs : gmap string string) (s r : string) :
  external_references refs0 (l ++ [ref]) = Ok refs ->
  states ref s r -> refs !! s = Some r.
Proof.
  revert refs0. induction l as [|x l IH]; intros refs0 H Hst.
  - cbn [app] in H. rewrite (external_references_states _ _ _ _ _ Hst) in H.
    cbn in H. injection H as <-. by rewrite lookup_insert_eq.
  - cbn [app] in H. rewrite external_references_step in H.
    destruct (find_text (Some x) "Source" "") as [source|]; [|done].
    destruct (find_text (Some x) "Reference" "") as [reference|]; [|done].
    cbn in H. destruct (_ && _); by apply (IH _ H).
Qed.

(** X18. The external references of a gene, as a dictionary: it has a key
    for a source exactly when some [ExternalReference] of the gene states
    that source with a reference, both not empty; the value under a key is
    the reference some such element states for it, and when the last element
    states a source and a reference, that reference is the one kept, whatever
    the elements before it state. *)
Theorem parse_external_references_sources (g : element) :
  well_tagged g = true ->
  exists refs,
    parse_external_references g = Ok refs /\
    (forall s,
       is_Some (refs !! s) <->
       exists ref r,
         ref ∈ findall ["ExternalReferenceList"; "ExternalReference"] g /\
         states ref s r) /\
    (forall s r,
       refs !! s = Some r ->
       exists ref,
         ref ∈ findall ["ExternalReferenceList"; "ExternalReference"] g /\
         states ref s r) /\
    (forall l ref s r,
       findall ["ExternalReferenceList"; "ExternalReference"] g = l ++ [ref] ->
       states ref s r -> refs !! s = Some r).
Proof.
  intros Hg. unfold parse_external_references.
  destruct (external_references_ok
              (findall ["ExternalReferenceList"; "ExternalReference"] g) ∅
              (findall_well_tagged _ g Hg)) as [refs Hrefs].
  exists refs. split; [done|].
  assert (Hsound : forall s r, refs !! s = Some r ->
            exists ref,
              ref ∈ findall ["ExternalReferenceList"; "ExternalReference"] g /\
              states ref s r).
  { intros s r Hs.
    destruct (external_references_sound _ _ _ Hrefs s r Hs) as [H|H]; [|done].
    by rewrite lookup_empty in H. }
  split; [|split; [done|]].
  - intros s. split.
    + intros [r Hr]. destruct (Hsound s r Hr) as (ref & ? & ?). by exists ref, r.
    + intros (ref & r & Hin & Hst).
      by apply (external_references_complete _ _ _ Hrefs ref s r).
  - intros l ref s r Hl Hst. rewrite Hl in Hrefs.
    by apply (external_references_last _ _ _ _ _ _ Hrefs).
Qed.

Lemma parse_external_references_sources_witness :
  exists refs,
    parse_external_references
      (Element "Gene" ∅ None
         [Element "ExternalReferenceList" ∅ None
            [Element "ExternalReference" ∅ None
               [Element "Source" ∅ (Some "OMIM") [];
                Element "Reference" ∅ (Some "1") []];
             Element "ExternalReference" ∅ None
               [Element "Source" ∅ (Some "HGNC") []];
             Element "ExternalReference" ∅ None
               [Element "Source" ∅ (Some "OMIM") [];
                Element "Reference" ∅ (Some "2") []]]]) = Ok refs /\
    refs !! "OMIM" = Some "2" /\ refs !! "HGNC" = None.
Proof.
  destruct (parse_external_references_sources
      (Element "Gene" ∅ None
         [Element "ExternalReferenceList" ∅ None
            [Element "ExternalReference" ∅ None
               [Element "Source" ∅ (Some "OMIM") [];
                Element "Reference" ∅ (Some "1") []];
             Element "ExternalReference" ∅ None
               [Element "Source" ∅ (Some "HGNC") []];
             Element "ExternalReference" ∅ None
               [Element "Source" ∅ (Some "OMIM") [];
                Element "Reference" ∅ (Some "2") []]]]))
    as (refs & Hrefs & Hdom & _ & Hlast); [reflexivity|].
  exists refs. split; [exact Hrefs|]. split.
  - eapply (Hlast [_; _]); [reflexivity|]. by repeat split.
  - destruct (refs !! "HGNC") as [r|] eqn:E; [|reflexivity].
    destruct (proj1 (Hdom "HGNC")) as (ref & r' & Hin & Hs & Hr & _ & Hne);
      [by eexists|].
    cbn in Hin.
    repeat (apply elem_of_cons in Hin as [->|Hin];
            [vm_compute in Hs; vm_compute in Hr; congruence|]).
    by apply elem_of_nil in Hin.
Defined.

Lemma ref_key_inj (s s' : string) : "Ref_" +:+ s = "Ref_" +:+ s' -> s = s'.
Proof. intros H. by injection H. Qed.

Lemma add_refs_ref (refs : gmap string string) (gene : dict) (s : string) :
  add_refs refs gene !! ("Ref_" +:+ s)
  = match refs !! s with
    | Some r => Some (VStr r)
    | None => gene !! ("Ref_" +:+ s)
    end.
Proof.
  unfold add_refs.
  apply (map_fold_weak_ind
           (fun (r : dict) (m : gmap string string) =>
              r !! ("Ref_" +:+ s)
              = match m !! s with
                | Some x => Some (VStr x)
                | None => gene !! ("Ref_" +:+ s)
                end)).
  { by rewrite lookup_empty. }
  intros source ref m r Hm Hr. destruct (decide (source = s)) as [->|Hne].
  - by rewrite !lookup_insert_eq.
  - rewrite !lookup_insert_ne; [done|done|].
    intros H. by apply ref_key_inj in H.
Qed.

(** X19. The dictionary of a gene has a column [Ref_<source>] for each
    source of its external references and for no other source, with the
    reference kept for that source; the columns [GeneLocus] and [LocusKey]
    are there exactly when the gene has a locus, and the five columns of
    the gene itself always are. *)
Theorem parse_gene_columns (g : element) :
  well_tagged g = true ->
  exists gd refs,
    parse_gene (Some g) = Ok (Some gd) /\
    parse_external_references g = Ok refs /\
    (forall s, gd !! ("Ref_" +:+ s) = VStr <$> refs !! s) /\
    (is_Some (gd !! "GeneLocus") <-> is_Some (find ["LocusList"; "Locus"] g)) /\
    (is_Some (gd !! "LocusKey") <-> is_Some (find ["LocusList"; "Locus"] g)) /\
    Forall (fun k => is_Some (gd !! k))
           ["GeneID"; "GeneName"; "GeneSymbol"; "GeneSynonyms"; "GeneType"].
Proof.
  intros Hg. unfold parse_gene.
  destruct (find_text_lang_ok g "Name" "en" "" Hg) as [name ->].
  destruct (find_text_ok g "Symbol" "" Hg) as [symbol ->].
  destruct (external_references_ok
              (findall ["ExternalReferenceList"; "ExternalReference"] g) ∅
              (findall_well_tagged _ g Hg)) as [refs Hrefs].
  unfold parse_external_references. cbn -[find_text findall find add_refs].
  rewrite Hrefs. cbn -[find_text findall find add_refs].
  set (g0 := <["GeneType" := _]> _).
  assert (Hbase : forall k, (forall s, "Ref_" +:+ s <> k) ->
                            add_refs refs g0 !! k = g0 !! k).
  { intros k Hk. by apply add_refs_lookup. }
  assert (Href : forall s, add_refs refs g0 !! ("Ref_" +:+ s) = VStr <$> refs !! s).
  { intros s. rewrite add_refs_ref. destruct (refs !! s); [done|].
    unfold g0. by rewrite !lookup_insert_ne, lookup_empty by done. }
  assert (Hfive : Forall (fun k => is_Some (add_refs refs g0 !! k))
                    ["GeneID"; "GeneName"; "GeneSymbol"; "GeneSynonyms";
                     "GeneType"]).
  { repeat constructor; (rewrite Hbase; [|intros s; discriminate]); unfold g0;
      rewrite ?lookup_insert_ne by done; rewrite lookup_insert_eq; by eexists. }
  assert (Hnone : add_refs refs g0 !! "GeneLocus" = None /\
                  add_refs refs g0 !! "LocusKey" = None).
  { split; (rewrite Hbase; [|intros s; discriminate]); unfold g0;
      by rewrite !lookup_insert_ne, lookup_empty by done. }
  destruct (find ["LocusList"; "Locus"] g) as [locus|] eqn:Hl.
  - pose proof (find_well_tagged _ g locus Hg Hl) as Hw.
    destruct (find_text_ok locus "GeneLocus" "" Hw) as [gl ->].
    destruct (find_text_ok locus "LocusKey" "" Hw) as [lk ->].
    cbn -[add_refs]. do 2 eexists. split; [done|]. split; [done|].
    split; [|split; [|split]].
    + intros s. by rewrite !lookup_insert_ne by discriminate.
    + rewrite lookup_insert_ne, lookup_insert_eq by done. split; by eexists.
    + rewrite lookup_insert_eq. split; by eexists.
    + eapply Forall_impl; [exact Hfive|]. cbn. intros k Hk.
      destruct (decide (k = "LocusKey")) as [->|]; [by rewrite lookup_insert_eq|].
      rewrite lookup_insert_ne by done.
      destruct (decide (k = "GeneLocus")) as [->|]; [by rewrite lookup_insert_eq|].
      by rewrite lookup_insert_ne.
  - do 2 eexists. split; [done|]. split; [done|]. split; [done|].
    destruct Hnone as [-> ->]. split; [|split; [|done]]; split; by intros [? ?].
Qed.

Lemma parse_gene_columns_witness :
  exists gd,
    parse_gene
      (Some (Element "Gene" {["id" := "20160"]} None
               [Element "Symbol" ∅ (Some "KIF7") [];
                Element "ExternalReferenceList" ∅ None
                  [Element "ExternalReference" ∅ None
                     [Element "Source" ∅ (Some "OMIM") [];
                      Element "Reference" ∅ (Some "611254") []]]]))
    = Ok (Some gd) /\
    gd !! "Ref_OMIM" = Some (VStr "611254") /\
    gd !! "Ref_HGNC" = None /\
    ~ is_Some (gd !! "GeneLocus").
Proof.
  destruct (parse_gene_columns
      (Element "Gene" {["id" := "20160"]} None
         [Element "Symbol" ∅ (Some "KIF7") [];
          Element "ExternalReferenceList" ∅ None
            [Element "ExternalReference" ∅ None
               [Element "Source" ∅ (Some "OMIM") [];
                Element "Reference" ∅ (Some "611254") []]]]))
    as (gd & refs & Hgd & Hrefs & Href & Hlocus & _); [reflexivity|].
  exists gd. split; [exact Hgd|].
  assert (Hr : Ok refs = Ok ({["OMIM" := "611254"]} : gmap string string)).
  { rewrite <- Hrefs. vm_compute. reflexivity. }
  injection Hr as Hr.
  split; [|split].
  - etrans; [exact (Href "OMIM")|]. rewrite Hr. reflexivity.
  - etrans; [exact (Href "HGNC")|]. rewrite Hr. reflexivity.
  - intros H. apply Hlocus in H. destruct H as [x Hx]. vm_compute in Hx.
    discriminate Hx.
Defined.

End GeneTable.

(** ** The disorder-association flattener *)

Section DisorderAssociations.
Import Xml OrphaXml7.

Ltac insert_keys Hk :=
  repeat (apply lookup_insert_Some in Hk as [[<- _]|[_ Hk]];
          [by repeat constructor|]);
  try by rewrite lookup_empty in Hk.

Lemma parse_target_disorder_ok (target : option element) :
  (forall t, target = Some t -> well_tagged t = true) ->
  exists td,
    parse_target_disorder target = Ok td /\
    forall k, is_Some (td !! k) ->
              k ∈ ["TargetId"; "TargetOrphaCode"; "TargetName"].
Proof.
  intros Hw. destruct target as [t|]; cycle 1.
  { exists ∅. split; [done|]. intros k [v Hk]. by rewrite lookup_empty in Hk. }
  specialize (Hw t eq_refl). unfold parse_target_disorder.
  destruct (find_text_ok t "OrphaCode" "" Hw) as [code ->].
  destruct (find_text_lang_ok t "Name" "en" "" Hw) as [name ->].
  cbn. eexists. split; [done|]. intros k [v Hk]. insert_keys Hk.
Qed.

Lemma parse_disorder_association_ok (a : element) (disorder_id : string) :
  well_tagged a = true ->
  exists data,
    parse_disorder_association (Some a) disorder_id = Ok (Some data) /\
    data <> ∅ /\
    data !! "DisorderId" = Some (VStr disorder_id) /\
    data !! "TotalAssociations" = None /\
    forall k, is_Some (data !! k) ->
              k ∈ ["DisorderId"; "RootId"; "IsCycle"; "AssociationType";
                   "TargetId"; "TargetOrphaCode"; "TargetName"].
Proof.
  intros Ha. unfold parse_disorder_association.
  destruct (parse_target_disorder_ok (find ["TargetDisorder"] a))
    as (td & -> & Hkeys).
  { intros t Ht. exact (find_well_tagged _ a t Ha Ht). }
  cbn -[find]. eexists. split; [done|].
  set (base := <["AssociationType" := _]> _).
  assert (Hnot : forall k, k ∉ ["TargetId"; "TargetOrphaCode"; "TargetName"] ->
                           td !! k = None).
  { intros k Hk. destruct (td !! k) eqn:E; [|done].
    destruct Hk. apply Hkeys. by eexists. }
  assert (Hid : td !! "DisorderId" = None).
  { apply Hnot. intros H. by repeat (apply elem_of_cons in H as [?|H]; [done|]);
      apply elem_of_nil in H. }
  assert (Htot : td !! "TotalAssociations" = None).
  { apply Hnot. intros H. by repeat (apply elem_of_cons in H as [?|H]; [done|]);
      apply elem_of_nil in H. }
  assert (Hbid : base !! "DisorderId" = Some (VStr disorder_id)).
  { unfold base. by rewrite !lookup_insert_ne, lookup_insert_eq by done. }
  split; [|split; [|split]].
  - intros He. apply (f_equal (fun m => m !! "DisorderId")) in He.
    rewrite lookup_union_r, lookup_empty in He by done. congruence.
  - by rewrite lookup_union_r.
  - rewrite lookup_union_r by done. unfold base.
    by rewrite !lookup_insert_ne by done.
  - intros k [v Hk]. apply lookup_union_Some_raw in Hk as [Hk|[_ Hk]].
    + assert (Hin : k ∈ ["TargetId"; "TargetOrphaCode"; "TargetName"]).
      { apply Hkeys. by eexists. }
      do 4 apply list_elem_of_further. exact Hin.
    + unfold base in Hk. insert_keys Hk.
Qed.

Lemma relation_rows_ok (base : dict) (disorder_id : string)
    (assocs : list element) :
  Forall (fun a => well_tagged a = true) assocs ->
  (forall k, is_Some (base !! k) ->
             k ∈ ["OrphaCode"; "DisorderName"; "ExpertLink"; "TotalAssociations"]) ->
  exists rows,
    association_rows base disorder_id assocs = Ok rows /\
    length rows = length assocs /\
    Forall (fun row : dict =>
              row !! "DisorderId" = Some (VStr disorder_id) /\
              row !! "TotalAssociations" = base !! "TotalAssociations" /\
              forall k, is_Some (row !! k) -> k ∈ fieldnames) rows.
Proof.
  intros Hw Hbase. induction Hw as [|a assocs Ha _ IH]; [by exists []|].
  destruct IH as (rows & Hrows & Hlen & Hall).
  destruct (parse_disorder_association_ok a disorder_id Ha)
    as (data & Hdata & Hne & Hid & Htot & Hkeys).
  cbn [association_rows]. rewrite Hdata, Hrows. cbn.
  rewrite decide_False by done. eexists. split; [done|].
  split; [cbn; by rewrite Hlen|]. constructor; [|done].
  split; [by apply lookup_union_Some_l|].
  split; [by rewrite lookup_union_r|].
  intros k [v Hk]. apply lookup_union_Some_raw in Hk as [Hk|[_ Hk]].
  - assert (Hin : k ∈ ["DisorderId"; "RootId"; "IsCycle"; "AssociationType";
                       "TargetId"; "TargetOrphaCode"; "TargetName"]).
    { apply Hkeys. by eexists. }
    repeat (apply elem_of_cons in Hin as [->|Hin]; [by repeat constructor|]).
    by apply elem_of_nil in Hin.
  - assert (Hin : k ∈ ["OrphaCode"; "DisorderName"; "ExpertLink";
                       "TotalAssociations"]).
    { apply Hbase. by eexists. }
    repeat (apply elem_of_cons in Hin as [->|Hin]; [by repeat constructor|]).
    by apply elem_of_nil in Hin.
Qed.

Lemma relation_row_fits (row : dict) :
  (forall k, is_Some (row !! k) -> k ∈ fieldnames) ->
  cells row = Ok ((fun k => default (VStr "") (row !! k)) <$> fieldnames).
Proof.
  intros H. unfold cells. rewrite decide_True; [done|].
  apply subseteq_empty_difference_L. intros k Hk%elem_of_dom.
  by apply elem_of_list_to_set, H.
Qed.

Section WithInt.
Variable int : string -> exn Z.

Lemma relation_parse_disorder_cases (d : element) :
  well_tagged d = true ->
  match count_text d with
  | None => parse_disorder int d = Ok []
  | Some txt =>
      match int txt with
      | Raise e => parse_disorder int d = Raise e
      | Ok n =>
          exists rows,
            parse_disorder int d = Ok rows /\
            length rows = length (associations d) /\
            Forall (fun row : dict =>
                      row !! "DisorderId" = Some (VStr (get d "id" "")) /\
                      row !! "TotalAssociations" = Some (VInt n) /\
                      forall k, is_Some (row !! k) -> k ∈ fieldnames) rows
      end
  end.
Proof.
  intros Hd. unfold parse_disorder, count_text, associations.
  destruct (find_text_ok d "OrphaCode" "" Hd) as [code ->].
  destruct (find_text_lang_ok d "Name" "en" "" Hd) as [name ->].
  destruct (find_text_lang_ok d "ExpertLink" "en" "" Hd) as [link ->].
  cbn -[find findall].
  destruct (find ["DisorderDisorderAssociationList"] d) as [al|] eqn:Eal;
    [|done].
  cbn -[find findall]. destruct (int (get al "count" "0")) as [n|e]; [|done].
  cbn -[find findall].
  pose proof (find_well_tagged _ d al Hd Eal) as Hal.
  destruct (relation_rows_ok
              (<["TotalAssociations" := VInt n]>
                 (<["ExpertLink" := VStr link]>
                    (<["DisorderName" := VStr name]>
                       (<["OrphaCode" := VStr code]> ∅))))
              (get d "id" "")
              (findall ["DisorderDisorderAssociation"] al))
    as (rows & Hrows & Hlen & Hall).
  { by apply findall_well_tagged. }
  { intros k [v Hk]. insert_keys Hk. }
  exists rows. split; [done|]. split; [done|].
  eapply Forall_impl; [exact Hall|]. cbn. intros row (? & Ht & ?).
  rewrite lookup_insert_eq in Ht. done.
Qed.

End WithInt.

(** X20. The rows of a disorder in the disorder-association parser: a
    disorder without an association list gives no row, and its count is not
    looked at; with a list, the count attribute is converted first, and a
    count that [int] refuses makes the parser raise, associations or not;
    otherwise there is one row for each [DisorderDisorderAssociation] of the
    list, and every row carries the identifier of the disorder and the count
    as the attribute states it, which need not be the number of rows. *)
Theorem parse_disorder_association_rows (int : string -> exn Z) (d : element) :
  well_tagged d = true ->
  (count_text d = None -> parse_disorder int d = Ok []) /\
  (forall txt e,
     count_text d = Some txt -> int txt = Raise e ->
     parse_disorder int d = Raise e) /\
  (forall txt n,
     count_text d = Some txt -> int txt = Ok n ->
     exists rows,
       parse_disorder int d = Ok rows /\
       length rows = length (associations d) /\
       Forall (fun row : dict =>
                 row !! "DisorderId" = Some (VStr (get d "id" "")) /\
                 row !! "TotalAssociations" = Some (VInt n)) rows).
Proof.
  intros Hd. pose proof (relation_parse_disorder_cases int d Hd) as H.
  split; [|split].
  - intros E. by rewrite E in H.
  - intros txt e E Hi. by rewrite E, Hi in H.
  - intros txt n E Hi. rewrite E, Hi in H.
    destruct H as (rows & Hr & Hl & Hall). exists rows.
    split; [done|]. split; [done|].
    eapply Forall_impl; [exact Hall|]. by intros row (? & ? & _).
Qed.

Lemma parse_disorder_association_rows_witness :
  parse_disorder int_of_digits
    (Element "Disorder" {["id" := "7"]} None
       [Element "DisorderDisorderAssociationList" {["count" := "two"]} None []])
  = Raise ValueError /\
  exists rows,
    parse_disorder int_of_digits
      (Element "Disorder" {["id" := "7"]} None
         [Element "DisorderDisorderAssociationList" {["count" := "5"]} None
            [Element "DisorderDisorderAssociation" ∅ None []]])
    = Ok rows /\
    length rows = 1.
Proof.
  split.
  - apply (proj1 (proj2 (parse_disorder_association_rows int_of_digits
             (Element "Disorder" {["id" := "7"]} None
                [Element "DisorderDisorderAssociationList"
                   {["count" := "two"]} None []]) eq_refl)) "two");
      vm_compute; reflexivity.
  - destruct (proj2 (proj2 (parse_disorder_association_rows int_of_digits
             (Element "Disorder" {["id" := "7"]} None
                [Element "DisorderDisorderAssociationList"
                   {["count" := "5"]} None
                   [Element "DisorderDisorderAssociation" ∅ None []]])
             eq_refl)) "5" 5%Z) as (rows & Hr & Hl & _);
      [vm_compute; reflexivity..|].
    exists rows. split; [exact Hr|]. rewrite Hl. vm_compute. reflexivity.
Defined.

Lemma relation_cells_ok (rows : list dict) :
  Forall (fun row : dict => forall k, is_Some (row !! k) -> k ∈ fieldnames) rows ->
  exists written,
    write_rows rows = (written, Ok ()) /\
    length written = length rows /\
    Forall (fun r => length r = length fieldnames) written.
Proof.
  induction 1 as [|row rows Hrow _ IH]; [by exists []|].
  destruct IH as (more & Hmore & Hlen & Hall).
  cbn [write_rows]. rewrite (relation_row_fits row Hrow), Hmore.
  eexists. split; [done|]. split; [cbn; by rewrite Hlen|].
  constructor; [|done]. by rewrite length_fmap.
Qed.

Lemma relation_disorder_ok (int : string -> exn Z) (d : element) :
  well_tagged d = true ->
  (forall txt, count_text d = Some txt -> exists n, int txt = Ok n) ->
  exists rows written,
    parse_disorder int d = Ok rows /\
    write_rows rows = (written, Ok ()) /\
    length written = length (associations d) /\
    Forall (fun r => length r = length fieldnames) written.
Proof.
  intros Hd Hint. pose proof (relation_parse_disorder_cases int d Hd) as H.
  destruct (count_text d) as [txt|] eqn:E.
  - destruct (Hint txt eq_refl) as [n Hn]. rewrite Hn in H.
    destruct H as (rows & Hr & Hl & Hall).
    destruct (relation_cells_ok rows) as (written & Hw & Hlw & Hcells).
    { eapply Forall_impl; [exact Hall|]. by intros row (_ & _ & ?). }
    exists rows, written. split; [done|]. split; [done|].
    split; [by rewrite Hlw|done].
  - exists [], []. split; [done|]. split; [done|]. split; [|done].
    unfold associations. unfold count_text in E.
    by destruct (find ["DisorderDisorderAssociationList"] d).
Qed.

Lemma relation_disorders_ok (int : string -> exn Z) (ds : list element) :
  Forall (fun d => well_tagged d = true) ds ->
  Forall (fun d => forall txt, count_text d = Some txt ->
                               exists n, int txt = Ok n) ds ->
  exists rows,
    write_disorders int ds = (rows, Ok ()) /\
    length rows = sum_list ((fun d => length (associations d)) <$> ds) /\
    Forall (fun r => length r = length fieldnames) rows.
Proof.
  induction 1 as [|d ds Hd _ IH]; intros Hint; [by exists []|].
  inversion Hint as [|? ? Hid Hids]; subst.
  destruct (IH Hids) as (more & Hmore & Hlen & Hall).
  destruct (relation_disorder_ok int d Hd Hid) as (rows & written & Hr & Hw & Hl & Hc).
  cbn [write_disorders]. rewrite Hr, Hw, Hmore.
  exists (written ++ more). split; [done|]. split.
  - rewrite length_app, Hl, Hlen. done.
  - by apply Forall_app.
Qed.

Lemma relation_disorders_app (int : string -> exn Z) (ds1 ds2 : list element)
    (rows1 : list (list value)) :
  write_disorders int ds1 = (rows1, Ok ()) ->
  write_disorders int (ds1 ++ ds2)
  = (rows1 ++ (write_disorders int ds2).1, (write_disorders int ds2).2).
Proof.
  revert rows1. induction ds1 as [|d ds1 IH]; intros rows1.
  { intros [= <-]. cbn. by destruct (write_disorders int ds2). }
  cbn [app write_disorders].
  destruct (parse_disorder int d) as [rows|e]; [|done].
  destruct (write_rows rows) as [written [[]|e]]; [|done].
  destruct (write_disorders int ds1) as [more r] eqn:E.
  intros [= <- ->]. rewrite (IH more eq_refl). by rewrite app_assoc.
Qed.



(** X22. A count that [int] refuses stops the conversion at its disorder:
    the outcome is the wrapped exception, and the output file is left with
    the header and the rows of the disorders before that one, and no row
    of it or of the disorders after it. *)
Theorem convert_stops_at_refused_count (int : string -> exn Z) (root : element)
    (file : option csv) (before after : list element) (d : element)
    (txt : string) (e : error) :
  well_tagged root = true ->
  findall_descendants "Disorder" root = before ++ d :: after ->
  Forall (fun d => forall txt, count_text d = Some txt ->
                               exists n, int txt = Ok n) before ->
  count_text d = Some txt ->
  int txt = Raise e ->
  exists rows,
    convert int root file
    = (Raise (CustomException (message e)), Some (Csv fieldnames rows)) /\
    length rows = sum_list ((fun d => length (associations d)) <$> before).
Proof.
  intros Hw Hds Hint Hd He. unfold convert.
  pose proof (findall_descendants_well_tagged "Disorder" root Hw) as Hwds.
  rewrite Hds in *. apply Forall_app in Hwds as [Hwb Hwd].
  inversion Hwd as [|? ? Hwd' _]; subst.
  destruct (relation_disorders_ok int before Hwb Hint) as (rows & Hrows & Hlen & _).
  rewrite (relation_disorders_app int before (d :: after) rows Hrows).
  pose proof (relation_parse_disorder_cases int d Hwd') as H. rewrite Hd, He in H.
  cbn [write_disorders]. rewrite H. cbn. rewrite app_nil_r.
  exists rows. split; [|done]. by destruct before.
Qed.

Lemma convert_stops_at_refused_count_witness :
  exists rows,
    convert int_of_digits
      (Element "JDBOR" ∅ None
         [Element "Disorder" {["id" := "7"]} None
            [Element "DisorderDisorderAssociationList" {["count" := "1"]} None
               [Element "DisorderDisorderAssociation" ∅ None []]];
          Element "Disorder" {["id" := "8"]} None
            [Element "DisorderDisorderAssociationList" {["count" := ""]} None
               [Element "DisorderDisorderAssociation" ∅ None []]]]) None
    = (Raise (CustomException (message ValueError)),
       Some (Csv fieldnames rows)) /\
    length rows = 1.
Proof.
  destruct (convert_stops_at_refused_count int_of_digits
      (Element "JDBOR" ∅ None
         [Element "Disorder" {["id" := "7"]} None
            [Element "DisorderDisorderAssociationList" {["count" := "1"]} None
               [Element "DisorderDisorderAssociation" ∅ None []]];
          Element "Disorder" {["id" := "8"]} None
            [Element "DisorderDisorderAssociationList" {["count" := ""]} None
               [Element "DisorderDisorderAssociation" ∅ None []]]]) None
      [Element "Disorder" {["id" := "7"]} None
         [Element "DisorderDisorderAssociationList" {["count" := "1"]} None
            [Element "DisorderDisorderAssociation" ∅ None []]]]
      []
      (Element "Disorder" {["id" := "8"]} None
         [Element "DisorderDisorderAssociationList" {["count" := ""]} None
            [Element "DisorderDisorderAssociation" ∅ None []]])
      "" ValueError) as (rows & Hc & Hl);
    [reflexivity|vm_compute; reflexivity| |vm_compute; reflexivity|reflexivity|].
  { repeat constructor. intros txt Ht. vm_compute in Ht.
    injection Ht as <-. by exists 1%Z. }
  exists rows. split; [exact Hc|]. rewrite Hl. vm_compute. reflexivity.
Defined.

End DisorderAssociations.

(** ** The rows of the streaming pass *)

Section EndEvents.
Import Xml OrphaXml4 OrphaXml4Order.

Lemma walk_children_inspected (upper : string -> string) (cs : list element) :
  Forall (fun c => well_tagged c = true ->
            exists rs,
              Forall2 (fun a r => link_row upper a = Ok r) (inspected c) rs /\
              walk upper c = (omap id rs, Ok (residue c))) cs ->
  Forall (fun c => well_tagged c = true) cs ->
  exists rs,
    Forall2 (fun a r => link_row upper a = Ok r) (concat (map inspected cs)) rs /\
    walk_children (walk upper) cs = (omap id rs, Ok (map residue cs)).
Proof.
  induction 1 as [|c cs Hc _ IH]; intros Hw; [by exists []|].
  inversion Hw as [|? ? Hwc Hwcs]; subst.
  destruct (Hc Hwc) as (rs1 & HF1 & H1). destruct (IH Hwcs) as (rs2 & HF2 & H2).
  exists (rs1 ++ rs2). split.
  - cbn [map concat]. by apply Forall2_app.
  - cbn [walk_children map]. rewrite H1.
    change ((fix go (cs0 : list element) := _) cs)
      with (walk_children (walk upper) cs).
    rewrite H2. by rewrite omap_app.
Qed.

Lemma walk_inspected (upper : string -> string) (e : element) :
  well_tagged e = true ->
  exists rs,
    Forall2 (fun a r => link_row upper a = Ok r) (inspected e) rs /\
    walk upper e = (omap id rs, Ok (residue e)).
Proof.
  induction e as [t a x cs IH] using element_ind_nested. intros Hw.
  destruct (well_tagged_inv _ Hw) as [[name Hname] Hcs]. cbn in Hname, Hcs.
  destruct (walk_children_inspected upper cs IH Hcs) as (rs & HF & Hrows).
  cbn [walk inspected]. rewrite Hrows, Hname. cbn [residue].
  unfold is_association. cbn [tag]. rewrite Hname.
  destruct (decide (name = assoc_tag)) as [->|Hne].
  - rewrite bool_decide_true by done.
    destruct (link_row_ok upper (Element t a x (map residue cs))) as [r Hr].
    { cbn. rewrite Hname. cbn. apply forallb_forall. intros c' Hc'.
      apply in_map_iff in Hc' as (c & <- & Hc).
      rewrite Forall_forall in Hcs.
      by apply well_tagged_residue, Hcs, list_elem_of_In. }
    rewrite Hr. exists (rs ++ [r]). split.
    + apply Forall2_app; [done|]. by repeat constructor.
    + rewrite omap_app. cbn. by destruct r.
  - rewrite bool_decide_false by done. exists rs. split.
    + by rewrite app_nil_r.
    + done.
Qed.

(** X23. The rows the streaming parser writes are those of the association
    elements of the document, one element after the other in the order of
    their end events: each element gives the row of the loop body, or none,
    and nothing else is written. An association is inspected after the
    associations below it have been cleared. *)
Theorem convert_rows_in_end_order (upper : string -> string) (doc : element) :
  well_tagged doc = true ->
  exists rs,
    Forall2 (fun a r => link_row upper a = Ok r) (inspected doc) rs /\
    convert upper doc = (omap id rs, Ok 0) /\
    length (omap id rs) <= length (inspected doc).
Proof.
  intros Hw. destruct (walk_inspected upper doc Hw) as (rs & HF & Hwalk).
  exists rs. split; [done|]. split.
  - unfold convert. by rewrite Hwalk.
  - rewrite (Forall2_length _ _ _ HF). clear.
    induction rs as [|[r|] rs IH]; cbn; lia.
Qed.

Lemma convert_rows_in_end_order_witness :
  exists rs,
    Forall2 (fun a r => link_row Str.upper_ascii a = Ok r)
      (inspected
         (Element "HPODisorderSetStatusList" ∅ None
            [Element "DisorderHPOTermAssociation" ∅ None
               [Element "Disorder" ∅ None
                  [Element "OrphaCode" ∅ (Some "166024") []];
                Element "HPO" ∅ None [Element "HPOId" ∅ (Some "HP_0001250") []]];
             Element "DisorderHPOTermAssociation" ∅ None []])) rs /\
    convert Str.upper_ascii
      (Element "HPODisorderSetStatusList" ∅ None
         [Element "DisorderHPOTermAssociation" ∅ None
            [Element "Disorder" ∅ None
               [Element "OrphaCode" ∅ (Some "166024") []];
             Element "HPO" ∅ None [Element "HPOId" ∅ (Some "HP_0001250") []]];
          Element "DisorderHPOTermAssociation" ∅ None []])
    = (omap id rs, Ok 0).
Proof.
  destruct (convert_rows_in_end_order Str.upper_ascii
      (Element "HPODisorderSetStatusList" ∅ None
         [Element "DisorderHPOTermAssociation" ∅ None
            [Element "Disorder" ∅ None
               [Element "OrphaCode" ∅ (Some "166024") []];
             Element "HPO" ∅ None [Element "HPOId" ∅ (Some "HP_0001250") []]];
          Element "DisorderHPOTermAssociation" ∅ None []]))
    as (rs & HF & Hc & _); [reflexivity|].
  exists rs. split; [exact HF|exact Hc].
Defined.

Lemma replace_no_underscore (s : string) :
  Str.all not_underscore (Str.replace "_" ":" s) = true.
Proof.
  induction s as [|c s IH]; [done|]. cbn. rewrite IH, andb_true_r.
  destruct (decide (c = "_"%char)) as [->|Hc]; [done|].
  unfold not_underscore. by rewrite bool_decide_false.
Qed.

Lemma replace_id (s : string) :
  Str.all not_underscore s = true -> Str.replace "_" ":" s = s.
Proof.
  induction s as [|c s IH]; [done|]. cbn. intros [Hc Hs]%andb_true_iff.
  rewrite IH by done. unfold not_underscore in Hc.
  apply negb_true_iff, bool_decide_eq_false in Hc. by rewrite decide_False.
Qed.

(** X24. For an upper-casing that brings in no underscore and leaves an
    upper-cased text as it is, as [str.upper] does: a normalised identifier
    has no underscore, and normalising it again changes nothing. *)
Theorem normalize_hp_idempotent (upper : string -> string) (hp : string) :
  (forall s, Str.all not_underscore s = true ->
             Str.all not_underscore (upper s) = true) ->
  (forall s, upper (upper s) = upper s) ->
  Str.all not_underscore (normalize_hp upper hp) = true /\
  normalize_hp upper (normalize_hp upper hp) = normalize_hp upper hp.
Proof.
  intros Hno Hidem. unfold normalize_hp.
  destruct (decide (hp = "")) as [->|Hne]; [done|].
  assert (H : Str.all not_underscore (upper (Str.replace "_" ":" hp)) = true).
  { apply Hno, replace_no_underscore. }
  split; [done|]. destruct (decide (_ = "")) as [|_]; [done|].
  by rewrite replace_id, Hidem.
Qed.

Lemma upper_ascii_no_underscore (s : string) :
  Str.all not_underscore s = true ->
  Str.all not_underscore (Str.upper_ascii s) = true.
Proof.
  induction s as [|c s IH]; [done|]. cbn. intros [Hc Hs]%andb_true_iff.
  rewrite IH, andb_true_r by done. revert Hc.
  destruct c as [[] [] [] [] [] [] [] []]; by vm_compute.
Qed.

Lemma upper_ascii_idempotent (s : string) :
  Str.upper_ascii (Str.upper_ascii s) = Str.upper_ascii s.
Proof.
  induction s as [|c s IH]; [done|]. cbn. rewrite IH. f_equal.
  destruct c as [[] [] [] [] [] [] [] []]; by vm_compute.
Qed.

Lemma normalize_hp_idempotent_witness :
  Str.all not_underscore (normalize_hp Str.upper_ascii "hp_0001250") = true /\
  normalize_hp Str.upper_ascii (normalize_hp Str.upper_ascii "hp_0001250")
  = normalize_hp Str.upper_ascii "hp_0001250".
Proof.
  apply normalize_hp_idempotent.
  - apply upper_ascii_no_underscore.
  - apply upper_ascii_idempotent.
Defined.

End EndEvents.

(** ** Documents in a namespace *)

Section NamespacedDocuments.
Import Xml XmlPlain.

Lemma iter_qualify_tags (ns : string) (e : element) :
  Forall (fun d => tag d <> "Disorder") (iter (qualify ns e)).
Proof.
  induction e as [t a x cs IH] using element_ind_nested.
  cbn [qualify iter]. constructor; [done|].
  apply Forall_concat, Forall_forall. intros l Hl.
  apply list_elem_of_In, in_map_iff in Hl as (c' & <- & Hc').
  apply in_map_iff in Hc' as (c & <- & Hc).
  rewrite Forall_forall in IH. by apply IH, list_elem_of_In.
Qed.

Lemma findall_descendants_qualify (ns : string) (root : element) :
  findall_descendants "Disorder" (qualify ns root) = [].
Proof.
  unfold findall_descendants.
  pose proof (iter_qualify_tags ns root) as H.
  destruct root as [t a x cs]. cbn [qualify iter children] in *.
  inversion H as [|? ? _ Hcs]; subst. clear H.
  induction Hcs as [|d l Hd _ IH]; [done|].
  by rewrite filter_cons_False.
Qed.

(** X25. A document whose tags are all in a namespace has no [Disorder]
    element for the three parsers that look their disorders up with
    [findall]: the single-entity parser, the gene-association parser and the
    disorder-association parser each give the typed error of a document
    without disorders, and leave their output file as it was. *)
Theorem namespaced_document_has_no_disorder (ns : string) (root : element)
    (int : string -> exn Z)
    (file1 : option OrphaXml1.csv) (file6 : option OrphaXml6File.csv)
    (file7 : option OrphaXml7.csv) :
  OrphaXml1.convert (qualify ns root) file1
  = (Raise (CustomException OrphaXml1.no_disorder), file1) /\
  OrphaXml6File.convert (qualify ns root) file6
  = (Raise (CustomException OrphaXml1.no_disorder), file6) /\
  OrphaXml7.convert int (qualify ns root) file7
  = (Raise (CustomException OrphaXml1.no_disorder), file7).
Proof.
  unfold OrphaXml1.convert, OrphaXml6File.convert, OrphaXml7.convert.
  by rewrite findall_descendants_qualify.
Qed.

Lemma local_qualified (ns t : string) :
  Str.all not_rbrace ns = true -> plain t = true ->
  local ("{" +:+ ns +:+ "}" +:+ t) = local t.
Proof.
  intros Hns Ht. rewrite (local_plain t Ht).
  rewrite str_app_cons, str_app_nil_l. rewrite local_brace.
  change (String "{" (ns +:+ "}" +:+ t)) with (String "{" ns +:+ String "}" t).
  rewrite split1_rbrace; [done|]. cbn. by rewrite Hns.
Qed.

Lemma qualify_same_local_names (ns : string) (e : element) :
  Str.all not_rbrace ns = true -> plain_tree e = true ->
  same_local_names e (qualify ns e).
Proof.
  intros Hns. induction e as [t a x cs IH] using element_ind_nested.
  cbn [plain_tree qualify]. intros [Ht Hcs]%andb_true_iff.
  constructor; [by rewrite local_qualified|].
  apply Forall2_fmap_r, Forall_Forall2_diag, Forall_forall. intros c Hc.
  rewrite Forall_forall in IH. apply IH; [done|].
  rewrite forallb_forall in Hcs. by apply Hcs, list_elem_of_In.
Qed.

(** X26. Putting a document without namespaces into a namespace whose name
    has no closing brace changes nothing for the streaming link parser: it
    writes the same rows and ends the same way. *)
Theorem convert_of_qualified_document (upper : string -> string) (ns : string)
    (doc : element) :
  Str.all not_rbrace ns = true ->
  plain_tree doc = true ->
  OrphaXml4.convert upper (qualify ns doc) = OrphaXml4.convert upper doc.
Proof.
  intros Hns Hdoc. unfold OrphaXml4.convert.
  destruct (walk_same upper doc (qualify ns doc)
              (qualify_same_local_names ns doc Hns Hdoc)) as [Hr He].
  destruct (OrphaXml4.walk upper doc) as [rows [r|er]],
           (OrphaXml4.walk upper (qualify ns doc)) as [rows' [r'|er']];
    cbn in Hr, He; by subst.
Qed.

Lemma convert_of_qualified_document_witness :
  OrphaXml4.convert Str.upper_ascii
    (qualify "http://www.orpha.net"
       (Element "JDBOR" ∅ None
          [Element "DisorderHPOTermAssociation" ∅ None
             [Element "Disorder" ∅ None
                [Element "OrphaCode" ∅ (Some "166024") []];
              Element "HPO" ∅ None
                [Element "HPOId" ∅ (Some "HP_0001250") []]]]))
  = OrphaXml4.convert Str.upper_ascii
      (Element "JDBOR" ∅ None
         [Element "DisorderHPOTermAssociation" ∅ None
            [Element "Disorder" ∅ None
               [Element "OrphaCode" ∅ (Some "166024") []];
             Element "HPO" ∅ None
               [Element "HPOId" ∅ (Some "HP_0001250") []]]]).
Proof.
  apply convert_of_qualified_document; reflexivity.
Defined.

End NamespacedDocuments.
